(** * Code Break: the line rotation, the brick layout and the Breakout
      simulation of [code_break_ida.py]

    A shallow embedding of the host-independent kernel of the plugin:
    [_rotate_items_from_anchor], the tokenizer [LINE_SPLIT_RE],
    [CodeBreakWidget._build_bricks], [_find_hover_brick],
    [_reset_ball_on_paddle], [reload_bricks], the key handlers and
    [_tick].

    Conventions.
    - Python [int] is [Z]; Python [float] is modelled by the exact
      rationals [Q] (the properties below are about control flow and
      comparisons, not about rounding).
    - Python [str] is [string].
    - An operation that can raise lives in the error monad [Py].
    - What the host supplies (widget geometry, font metrics, the lines
      of the current function) is gathered in the record [Env]. *)

From Stdlib Require Import ZArith QArith Bool List String Ascii Lia Lqa.
From Stdlib Require Import Permutation Sorted.
From Equations Require Import Equations.
Import ListNotations.

Local Open Scope Z_scope.

(** ** Python primitives *)

Inductive PyExn : Set := IndexError | ZeroDivisionError.

Inductive Py (A : Type) : Type :=
| Ok (a : A)
| Raise (e : PyExn).
Arguments Ok {A} a.
Arguments Raise {A} e.

Definition bind {A B : Type} (c : Py A) (k : A -> Py B) : Py B :=
  match c with
  | Ok a => k a
  | Raise e => Raise e
  end.

Declare Scope py_scope.
Delimit Scope py_scope with py.
Notation "x <- c1 ;; c2" := (bind c1 (fun x => c2))
  (at level 61, c1 at next level, right associativity) : py_scope.
Local Open Scope py_scope.

(** [len(xs)] *)
Definition len {A : Type} (xs : list A) : Z := Z.of_nat (List.length xs).

(** [a % n] on integers: the sign follows the divisor, and a zero
    divisor raises. *)
Definition py_mod (a n : Z) : Py Z :=
  if n =? 0 then Raise ZeroDivisionError else Ok (a mod n).

(** [xs[k]]: a negative index counts from the end; out of range raises. *)
Definition getitem {A : Type} (xs : list A) (k : Z) : Py A :=
  let k' := if k <? 0 then k + len xs else k in
  if k' <? 0 then Raise IndexError
  else match nth_error xs (Z.to_nat k') with
       | Some x => Ok x
       | None => Raise IndexError
       end.

(** [range(k)]: empty when [k <= 0]. *)
Definition range (k : Z) : list Z := map Z.of_nat (seq 0 (Z.to_nat k)).

(** [for x in xs: acc = body(x, acc)], stopping at the first exception. *)
Fixpoint for_each {A S : Type} (xs : list A) (body : A -> S -> Py S) (acc : S) : Py S :=
  match xs with
  | [] => Ok acc
  | x :: xs' => acc' <- body x acc ;; for_each xs' body acc'
  end.

(** ** Line rotation (lines 49-59) *)

Definition _rotate_items_from_anchor {A : Type}
    (items : list A) (anchor_idx limit : Z) : Py (list A) :=
  match items with
  | [] => Ok []
  | _ :: _ =>
    let anchor_idx :=
      if (anchor_idx <? 0) || (anchor_idx >=? len items) then 0 else anchor_idx in
    let n := len items in
    for_each (range (Z.min limit n))
      (fun i out =>
         k <- py_mod (anchor_idx + i) n ;;
         x <- getitem items k ;;
         Ok (out ++ [x]))
      []
  end.

(** ** The tokenizer [LINE_SPLIT_RE = re.compile(r"\S+|\s+")] (line 42) *)

(** The class [\s] of a [str] pattern, which is also the set of
    characters [str.strip()] removes, on the code points below 256:
    TAB..CR, FS..US, SPACE, NEL and NBSP. *)
Definition is_space (c : ascii) : bool :=
  let n := N_of_ascii c in
  (((9 <=? n) && (n <=? 13)) || ((28 <=? n) && (n <=? 32))
   || (n =? 133) || (n =? 160))%N.

(** The class [\S]. *)
Definition is_nonspace (c : ascii) : bool := negb (is_space c).

(** The longest prefix of [s] whose characters are all in [cls], and
    what follows it. *)
Fixpoint take_while (cls : ascii -> bool) (s : string) : string * string :=
  match s with
  | EmptyString => (EmptyString, EmptyString)
  | String c s' =>
    if cls c
    then let (m, r) := take_while cls s' in (String c m, r)
    else (EmptyString, s)
  end.

(** [cls+] matched at the start of [s]: greedy, at least one character. *)
Definition match_plus (cls : ascii -> bool) (s : string) : option (string * string) :=
  match s with
  | EmptyString => None
  | String c _ => if cls c then Some (take_while cls s) else None
  end.

(** [\S+|\s+] matched at the start of [s]: the left alternative first. *)
Definition LINE_SPLIT_RE_match (s : string) : option (string * string) :=
  match match_plus is_nonspace s with
  | Some r => Some r
  | None => match_plus is_space s
  end.

(** Pattern matching on a value while keeping its equation. *)
Definition inspect {A : Type} (x : A) : {y : A | x = y} := exist _ x eq_refl.

(** [LINE_SPLIT_RE.findall(s)]: the matches from left to right, each
    search resuming where the previous match ended; a position where
    the pattern does not match is skipped. *)
Equations? findall (s : string) : list string by wf (String.length s) lt :=
  findall EmptyString := [];
  findall (String c s') with inspect (LINE_SPLIT_RE_match (String c s')) := {
    | exist _ (Some (m, rest)) _ => m :: findall rest;
    | exist _ None _ => findall s' }.
Proof.
  (* a match consumes at least one character *)
  - assert (L : forall cls t,
      (String.length (fst (take_while cls t)) + String.length (snd (take_while cls t))
       = String.length t)%nat).
    { intros cls t. induction t as [|a t IH]; simpl; [reflexivity|].
      destruct (cls a); [|reflexivity].
      destruct (take_while cls t) as [m1 r1]; simpl in *. lia. }
    assert (P : forall cls, match_plus cls (String c s') = Some (m, rest) ->
      (String.length rest < String.length (String c s'))%nat).
    { intros cls. unfold match_plus. destruct (cls c) eqn:Hc; [|discriminate].
      simpl. rewrite Hc. specialize (L cls s').
      destruct (take_while cls s') as [m1 r1]; simpl in *.
      intros E; inversion E; subst. lia. }
    unfold LINE_SPLIT_RE_match in *.
    destruct (match_plus is_nonspace (String c s')) as [[m1 r1]|] eqn:E.
    + apply (P is_nonspace). congruence.
    + apply (P is_space). congruence.
Qed.

(** Every character of [s] is in [cls]. *)
Fixpoint all_chars (cls : ascii -> bool) (s : string) : bool :=
  match s with
  | EmptyString => true
  | String c s' => cls c && all_chars cls s'
  end.

(** A run: a non-empty string of characters of one class. *)
Definition is_run (t : string) : Prop :=
  t <> EmptyString /\ (all_chars is_nonspace t = true \/ all_chars is_space t = true).

(** Neighbouring tokens are of different classes. *)
Fixpoint classes_alternate (ts : list string) : Prop :=
  match ts with
  | t1 :: ((t2 :: _) as ts') =>
    all_chars is_space t1 = negb (all_chars is_space t2) /\ classes_alternate ts'
  | _ => True
  end.

(** [s.lstrip()], [s.rstrip()], [s.strip()] *)
Fixpoint lstrip (s : string) : string :=
  match s with
  | EmptyString => EmptyString
  | String c s' => if is_space c then lstrip s' else s
  end.

Fixpoint rstrip (s : string) : string :=
  match s with
  | EmptyString => EmptyString
  | String c s' =>
    match rstrip s' with
    | EmptyString => if is_space c then EmptyString else String c EmptyString
    | r => String c r
    end
  end.

Definition strip (s : string) : string := rstrip (lstrip s).

(** Truth value of a [str]: non-empty. *)
Definition truthy (s : string) : bool :=
  match s with EmptyString => false | String _ _ => true end.

(** ** Numbers

    [min] and [max] of Python return their first argument unless the
    second is strictly smaller (larger). *)

Definition Qleb (a b : Q) : bool := Qle_bool a b.
Definition Qltb (a b : Q) : bool := negb (Qle_bool b a).

Definition py_min (a b : Q) : Q := if Qltb b a then b else a.
Definition py_max (a b : Q) : Q := if Qltb a b then b else a.

(** [abs(x)] *)
Definition py_abs (a : Q) : Q := if Qltb a 0 then (- a)%Q else a.

(** [int(a / b)] for integers: the quotient truncated towards zero
    (the operands are pixel counts, far below the range where the
    float quotient could round to the next integer). *)
Definition int_div (a b : Z) : Z := Z.quot a b.

(** [xs[:k]] *)
Definition slice_to {A : Type} (xs : list A) (k : Z) : list A :=
  if k <? 0 then firstn (Z.to_nat (len xs + k)) xs else firstn (Z.to_nat k) xs.

(** [enumerate(xs)] *)
Definition enumerate {A : Type} (xs : list A) : list (Z * A) :=
  combine (range (len xs)) xs.

(** ** Geometry: [QPoint], [QPointF] and [QRectF] of Qt *)

Record QPoint : Type := { qx : Z; qy : Z }.
Record QPointF : Type := { px : Q; py : Q }.
Record QRectF : Type := { rx : Q; ry : Q; rw : Q; rh : Q }.

Definition QPointF_of (p : QPoint) : QPointF :=
  {| px := inject_Z (qx p); py := inject_Z (qy p) |}.

(** The two ends of one side of a rectangle: a negative extent is
    normalised as Qt does. *)
Definition side (lo ext : Q) : Q * Q :=
  if Qltb ext 0 then ((lo + ext)%Q, lo) else (lo, (lo + ext)%Q).

(** [QRectF::intersects]: false when a rectangle is null; touching
    edges do not intersect. *)
Definition QRectF_intersects (a b : QRectF) : bool :=
  let '(l1, r1) := side (rx a) (rw a) in
  let '(l2, r2) := side (rx b) (rw b) in
  let '(t1, b1) := side (ry a) (rh a) in
  let '(t2, b2) := side (ry b) (rh b) in
  negb (Qeq_bool l1 r1) && negb (Qeq_bool l2 r2)
  && negb (Qleb r2 l1 || Qleb r1 l2)
  && negb (Qeq_bool t1 b1) && negb (Qeq_bool t2 b2)
  && negb (Qleb b2 t1 || Qleb b1 t2).

(** [QRectF::contains(QPointF)]: edges included, null rectangles empty. *)
Definition QRectF_contains (r : QRectF) (p : QPointF) : bool :=
  let '(l, rr) := side (rx r) (rw r) in
  let '(t, b) := side (ry r) (rh r) in
  negb (Qeq_bool l rr) && negb (Qltb (px p) l || Qltb rr (px p))
  && negb (Qeq_bool t b) && negb (Qltb (py p) t || Qltb b (py p)).

(** ** What the host supplies *)

(** [QFontMetrics(QFont("Menlo", 10))] *)
Record FontMetrics : Type := {
  fm_height : Z;
  fm_ascent : Z;
  horizontalAdvance : string -> Z
}.

(** [width], [height]: the widget's current size.  [decompiler_lines]
    and [disasm_lines]: what [_collect_decompiler_lines(ea)] and
    [_collect_disasm_lines(ea)] return for the address the widget
    reads its lines from, a list of [(line_no, text)] and an anchor
    index. *)
Record Env : Type := {
  width : Z;
  height : Z;
  fm : FontMetrics;
  decompiler_lines : list (Z * string) * Z;
  disasm_lines : list (Z * string) * Z
}.

(** ** Data model *)

Definition MAX_BRICK_LINES : Z := 56.

(** An element of [brick_labels]. *)
Record LineInfo : Type := {
  li_line_no : Z;
  li_full_text : string;
  li_label : string
}.

(** An element of [render_lines]. *)
Record RenderLine : Type := {
  rl_line_no : Z;
  y_base : Z
}.

(** An element of [bricks]. *)
Record Brick : Type := {
  rect : QRectF;
  label : string;
  full_text : string;
  line_no : Z;
  draw_x : Z;
  draw_y : Z;
  alive : bool
}.

(** [b["alive"] = False] *)
Definition kill (b : Brick) : Brick :=
  {| rect := rect b; label := label b; full_text := full_text b;
     line_no := line_no b; draw_x := draw_x b; draw_y := draw_y b;
     alive := false |}.

(** The attributes [paddle_w], [paddle_h], [paddle_speed] and [ball_r]
    are assigned in [_init_state] only; they are constants here. *)
Definition paddle_w : Q := 130.
Definition paddle_h : Q := 12.
Definition paddle_speed : Q := 9.
Definition ball_r : Q := 7.

(** The mutable attributes of [CodeBreakWidget] (the tooltip text and
    [source_ea] play no part in the simulation and are left out). *)
Record Widget : Type := {
  paddle_x : Q;
  ball_x : Q;
  ball_y : Q;
  ball_vx : Q;
  ball_vy : Q;
  left_pressed : bool;
  right_pressed : bool;
  launched : bool;
  game_over : bool;
  score : Z;
  lives : Z;
  render_lines : list RenderLine;
  brick_labels : list LineInfo;
  bricks : list Brick
}.

Definition set_paddle_x (s : Widget) (v : Q) : Widget :=
  {| paddle_x := v;
     ball_x := ball_x s;
     ball_y := ball_y s;
     ball_vx := ball_vx s;
     ball_vy := ball_vy s;
     left_pressed := left_pressed s;
     right_pressed := right_pressed s;
     launched := launched s;
     game_over := game_over s;
     score := score s;
     lives := lives s;
     render_lines := render_lines s;
     brick_labels := brick_labels s;
     bricks := bricks s |}.

Definition set_ball_x (s : Widget) (v : Q) : Widget :=
  {| paddle_x := paddle_x s;
     ball_x := v;
     ball_y := ball_y s;
     ball_vx := ball_vx s;
     ball_vy := ball_vy s;
     left_pressed := left_pressed s;
     right_pressed := right_pressed s;
     launched := launched s;
     game_over := game_over s;
     score := score s;
     lives := lives s;
     render_lines := render_lines s;
     brick_labels := brick_labels s;
     bricks := bricks s |}.

Definition set_ball_y (s : Widget) (v : Q) : Widget :=
  {| paddle_x := paddle_x s;
     ball_x := ball_x s;
     ball_y := v;
     ball_vx := ball_vx s;
     ball_vy := ball_vy s;
     left_pressed := left_pressed s;
     right_pressed := right_pressed s;
     launched := launched s;
     game_over := game_over s;
     score := score s;
     lives := lives s;
     render_lines := render_lines s;
     brick_labels := brick_labels s;
     bricks := bricks s |}.

Definition set_ball_vx (s : Widget) (v : Q) : Widget :=
  {| paddle_x := paddle_x s;
     ball_x := ball_x s;
     ball_y := ball_y s;
     ball_vx := v;
     ball_vy := ball_vy s;
     left_pressed := left_pressed s;
     right_pressed := right_pressed s;
     launched := launched s;
     game_over := game_over s;
     score := score s;
     lives := lives s;
     render_lines := render_lines s;
     brick_labels := brick_labels s;
     bricks := bricks s |}.

Definition set_ball_vy (s : Widget) (v : Q) : Widget :=
  {| paddle_x := paddle_x s;
     ball_x := ball_x s;
     ball_y := ball_y s;
     ball_vx := ball_vx s;
     ball_vy := v;
     left_pressed := left_pressed s;
     right_pressed := right_pressed s;
     launched := launched s;
     game_over := game_over s;
     score := score s;
     lives := lives s;
     render_lines := render_lines s;
     brick_labels := brick_labels s;
     bricks := bricks s |}.

Definition set_left_pressed (s : Widget) (v : bool) : Widget :=
  {| paddle_x := paddle_x s;
     ball_x := ball_x s;
     ball_y := ball_y s;
     ball_vx := ball_vx s;
     ball_vy := ball_vy s;
     left_pressed := v;
     right_pressed := right_pressed s;
     launched := launched s;
     game_over := game_over s;
     score := score s;
     lives := lives s;
     render_lines := render_lines s;
     brick_labels := brick_labels s;
     bricks := bricks s |}.

Definition set_right_pressed (s : Widget) (v : bool) : Widget :=
  {| paddle_x := paddle_x s;
     ball_x := ball_x s;
     ball_y := ball_y s;
     ball_vx := ball_vx s;
     ball_vy := ball_vy s;
     left_pressed := left_pressed s;
     right_pressed := v;
     launched := launched s;
     game_over := game_over s;
     score := score s;
     lives := lives s;
     render_lines := render_lines s;
     brick_labels := brick_labels s;
     bricks := bricks s |}.

Definition set_launched (s : Widget) (v : bool) : Widget :=
  {| paddle_x := paddle_x s;
     ball_x := ball_x s;
     ball_y := ball_y s;
     ball_vx := ball_vx s;
     ball_vy := ball_vy s;
     left_pressed := left_pressed s;
     right_pressed := right_pressed s;
     launched := v;
     game_over := game_over s;
     score := score s;
     lives := lives s;
     render_lines := render_lines s;
     brick_labels := brick_labels s;
     bricks := bricks s |}.

Definition set_game_over (s : Widget) (v : bool) : Widget :=
  {| paddle_x := paddle_x s;
     ball_x := ball_x s;
     ball_y := ball_y s;
     ball_vx := ball_vx s;
     ball_vy := ball_vy s;
     left_pressed := left_pressed s;
     right_pressed := right_pressed s;
     launched := launched s;
     game_over := v;
     score := score s;
     lives := lives s;
     render_lines := render_lines s;
     brick_labels := brick_labels s;
     bricks := bricks s |}.

Definition set_score (s : Widget) (v : Z) : Widget :=
  {| paddle_x := paddle_x s;
     ball_x := ball_x s;
     ball_y := ball_y s;
     ball_vx := ball_vx s;
     ball_vy := ball_vy s;
     left_pressed := left_pressed s;
     right_pressed := right_pressed s;
     launched := launched s;
     game_over := game_over s;
     score := v;
     lives := lives s;
     render_lines := render_lines s;
     brick_labels := brick_labels s;
     bricks := bricks s |}.

Definition set_lives (s : Widget) (v : Z) : Widget :=
  {| paddle_x := paddle_x s;
     ball_x := ball_x s;
     ball_y := ball_y s;
     ball_vx := ball_vx s;
     ball_vy := ball_vy s;
     left_pressed := left_pressed s;
     right_pressed := right_pressed s;
     launched := launched s;
     game_over := game_over s;
     score := score s;
     lives := v;
     render_lines := render_lines s;
     brick_labels := brick_labels s;
     bricks := bricks s |}.

Definition set_render_lines (s : Widget) (v : list RenderLine) : Widget :=
  {| paddle_x := paddle_x s;
     ball_x := ball_x s;
     ball_y := ball_y s;
     ball_vx := ball_vx s;
     ball_vy := ball_vy s;
     left_pressed := left_pressed s;
     right_pressed := right_pressed s;
     launched := launched s;
     game_over := game_over s;
     score := score s;
     lives := lives s;
     render_lines := v;
     brick_labels := brick_labels s;
     bricks := bricks s |}.

Definition set_brick_labels (s : Widget) (v : list LineInfo) : Widget :=
  {| paddle_x := paddle_x s;
     ball_x := ball_x s;
     ball_y := ball_y s;
     ball_vx := ball_vx s;
     ball_vy := ball_vy s;
     left_pressed := left_pressed s;
     right_pressed := right_pressed s;
     launched := launched s;
     game_over := game_over s;
     score := score s;
     lives := lives s;
     render_lines := render_lines s;
     brick_labels := v;
     bricks := bricks s |}.

Definition set_bricks (s : Widget) (v : list Brick) : Widget :=
  {| paddle_x := paddle_x s;
     ball_x := ball_x s;
     ball_y := ball_y s;
     ball_vx := ball_vx s;
     ball_vy := ball_vy s;
     left_pressed := left_pressed s;
     right_pressed := right_pressed s;
     launched := launched s;
     game_over := game_over s;
     score := score s;
     lives := lives s;
     render_lines := render_lines s;
     brick_labels := brick_labels s;
     bricks := v |}.

(** ** Source lines (lines 151-176) *)

Definition placeholder_lines : list (Z * string) :=
  [ (1, "mov eax, ebx"); (2, "cmp eax, 0"); (3, "jne loc_next");
    (4, "call sub_handler"); (5, "ret") ]%string.

Definition is_empty {A : Type} (xs : list A) : bool :=
  match xs with [] => true | _ :: _ => false end.

Definition _extract_line_blocks_from_current_context
    (env : Env) (max_tokens : Z) : Py (list LineInfo) :=
  let '(ordered_lines, anchor_idx) := decompiler_lines env in
  let '(ordered_lines, anchor_idx) :=
    if is_empty ordered_lines then disasm_lines env
    else (ordered_lines, anchor_idx) in
  let ordered_lines :=
    if is_empty ordered_lines then placeholder_lines else ordered_lines in
  ordered_lines <- _rotate_items_from_anchor ordered_lines anchor_idx max_tokens ;;
  Ok (map (fun '(line_no, line) =>
             {| li_line_no := line_no; li_full_text := line; li_label := line |})
          ordered_lines).

(** ** Brick layout (lines 229-266) *)

Definition code_left : Z := 70.
Definition code_top : Z := 64.
Definition code_right (width : Z) : Z := Z.max 640 width - 18.
Definition line_h (f : FontMetrics) : Z := Z.max 16 (fm_height f + 2).
Definition max_visible_lines (f : FontMetrics) (height : Z) : Z :=
  let h := Z.max 360 height in
  Z.max 1 (int_div (h - code_top - 70) (line_h f)).

(** [part_w] of line 251 *)
Definition part_w (f : FontMetrics) (part : string) : Z :=
  Z.max 1 (horizontalAdvance f part).

(** The brick appended at lines 255-265. *)
Definition make_brick (f : FontMetrics) (x y_base : Z) (part : string)
    (line_info : LineInfo) : Brick :=
  {| rect := {| rx := inject_Z x;
                ry := inject_Z (y_base - fm_ascent f);
                rw := inject_Z (Z.max 6 (part_w f part));
                rh := inject_Z (line_h f) |};
     label := part;
     full_text := li_full_text line_info;
     line_no := li_line_no line_info;
     draw_x := x;
     draw_y := y_base;
     alive := true |}.

(** The inner loop (lines 250-266): the bricks appended for the parts
    of one line, the cursor being at [x]; [break] ends the line. *)
Fixpoint place_parts (f : FontMetrics) (cright y_base : Z) (line_info : LineInfo)
    (x : Z) (parts : list string) : list Brick :=
  match parts with
  | [] => []
  | part :: parts' =>
    if x + part_w f part >? cright then []
    else
      let rest := place_parts f cright y_base line_info (x + part_w f part) parts' in
      if truthy (strip part)
      then make_brick f x y_base part line_info :: rest
      else rest
  end.

(** [y_base] of row [i] (line 246) *)
Definition row_y_base (f : FontMetrics) (i : Z) : Z :=
  code_top + i * line_h f + fm_ascent f.

(** The bricks of row [i], in a widget [width] wide (lines 245-266). *)
Definition line_bricks (f : FontMetrics) (width : Z) (i : Z) (line_info : LineInfo)
    : list Brick :=
  place_parts f (code_right width) (row_y_base f i) line_info code_left
    (findall (li_full_text line_info)).

Definition _build_bricks (env : Env) (s : Widget) : Widget :=
  let rows :=
    enumerate (slice_to (brick_labels s) (max_visible_lines (fm env) (height env))) in
  let s := set_bricks s
    (flat_map (fun '(i, line_info) => line_bricks (fm env) (width env) i line_info) rows) in
  set_render_lines s
    (map (fun '(i, line_info) =>
            {| rl_line_no := li_line_no line_info; y_base := row_y_base (fm env) i |})
         rows).

(** ** Hover query (lines 268-273) *)

Definition _find_hover_brick (s : Widget) (pos : QPoint) : option Brick :=
  let point := QPointF_of pos in
  find (fun b => alive b && QRectF_contains (rect b) point) (bricks s).

(** ** Ball and paddle (lines 297-312) *)

Definition _reset_ball_on_paddle (env : Env) (s : Widget) : Widget :=
  let h := Z.max 300 (height env) in
  let s := set_paddle_x s
    (py_max 10 (py_min (paddle_x s) (inject_Z (width env) - paddle_w - 10))) in
  let s := set_ball_x s (paddle_x s + paddle_w / 2) in
  let s := set_ball_y s (inject_Z h - 42) in
  let s := set_ball_vx s 3.8 in
  let s := set_ball_vy s (-4.6) in
  set_launched s false.

Definition _ball_rect (s : Widget) : QRectF :=
  {| rx := ball_x s - ball_r; ry := ball_y s - ball_r;
     rw := ball_r * 2; rh := ball_r * 2 |}.

(** ** Loading (lines 197-227) *)

Definition reload_bricks (env : Env) (s : Widget) : Py Widget :=
  labels <- _extract_line_blocks_from_current_context env MAX_BRICK_LINES ;;
  let s := set_brick_labels s labels in
  let s := _build_bricks env s in
  Ok (_reset_ball_on_paddle env s).

Definition _init_state (env : Env) : Py Widget :=
  reload_bricks env
    {| paddle_x := 300; ball_x := 350; ball_y := 350;
       ball_vx := 3.8; ball_vy := -4.6;
       left_pressed := false; right_pressed := false;
       launched := false; game_over := false;
       score := 0; lives := 3;
       render_lines := []; brick_labels := []; bricks := [] |}.

(** ** Keys (lines 318-340) *)

Inductive Key : Set :=
| Key_Left | Key_A | Key_Right | Key_D | Key_Space | Key_R | Key_N | Key_other.

Definition keyPressEvent (env : Env) (s : Widget) (k : Key) : Py Widget :=
  match k with
  | Key_Left | Key_A => Ok (set_left_pressed s true)
  | Key_Right | Key_D => Ok (set_right_pressed s true)
  | Key_Space => if negb (game_over s) then Ok (set_launched s true) else Ok s
  | Key_R =>
    let s := set_score s 0 in
    let s := set_lives s 3 in
    let s := set_game_over s false in
    reload_bricks env s
  | Key_N => reload_bricks env s
  | Key_other => Ok s
  end.

Definition keyReleaseEvent (s : Widget) (k : Key) : Widget :=
  match k with
  | Key_Left | Key_A => set_left_pressed s false
  | Key_Right | Key_D => set_right_pressed s false
  | _ => s
  end.

(** ** The tick (lines 342-401), phase by phase *)

(** Lines 346-350: the paddle follows the keys and is clamped. *)
Definition move_paddle (env : Env) (s : Widget) : Widget :=
  let w := Z.max 640 (width env) in
  let s := if left_pressed s then set_paddle_x s (paddle_x s - paddle_speed) else s in
  let s := if right_pressed s then set_paddle_x s (paddle_x s + paddle_speed) else s in
  set_paddle_x s (py_max 10 (py_min (paddle_x s) (inject_Z w - paddle_w - 10))).

(** Lines 353-354: before launch the ball rides on the paddle. *)
Definition ride_paddle (env : Env) (s : Widget) : Widget :=
  let h := Z.max 360 (height env) in
  let s := set_ball_x s (paddle_x s + paddle_w / 2) in
  set_ball_y s (inject_Z h - 42).

(** Lines 362-363 *)
Definition move_ball (s : Widget) : Widget :=
  let s := set_ball_x s (ball_x s + ball_vx s) in
  set_ball_y s (ball_y s + ball_vy s).

(** Lines 365-373 *)
Definition bounce_walls (env : Env) (s : Widget) : Widget :=
  let w := Z.max 640 (width env) in
  let s := if Qleb (ball_x s - ball_r) 0
           then set_ball_vx (set_ball_x s ball_r) (ball_vx s * -1) else s in
  let s := if Qleb (inject_Z w) (ball_x s + ball_r)
           then set_ball_vx (set_ball_x s (inject_Z w - ball_r)) (ball_vx s * -1) else s in
  if Qleb (ball_y s - ball_r) 0
  then set_ball_vy (set_ball_y s ball_r) (ball_vy s * -1) else s.

(** Lines 375-380 *)
Definition bounce_paddle (env : Env) (s : Widget) : Widget :=
  let h := Z.max 360 (height env) in
  let paddle_rect :=
    {| rx := paddle_x s; ry := inject_Z (h - 30); rw := paddle_w; rh := paddle_h |} in
  if QRectF_intersects (_ball_rect s) paddle_rect && Qltb 0 (ball_vy s)
  then
    let s := set_ball_y s (inject_Z (h - 30) - ball_r) in
    let s := set_ball_vy s (- py_abs (ball_vy s)) in
    let hit := ((ball_x s - paddle_x s) / paddle_w)%Q in
    set_ball_vx s ((hit - 0.5) * 10)
  else s.

(** The loop of lines 383-388 over the brick list: [Some] of the list
    with the first alive brick that meets [brect] killed, or [None]
    when the loop runs to its end. *)
Fixpoint hit_first (brect : QRectF) (bs : list Brick) : option (list Brick) :=
  match bs with
  | [] => None
  | b :: bs' =>
    if alive b && QRectF_intersects brect (rect b)
    then Some (kill b :: bs')
    else option_map (cons b) (hit_first brect bs')
  end.

(** Lines 382-388 *)
Definition hit_bricks (s : Widget) : Widget :=
  let brect := _ball_rect s in
  match hit_first brect (bricks s) with
  | Some bs =>
    let s := set_bricks s bs in
    let s := set_score s (score s + 10) in
    set_ball_vy s (ball_vy s * -1)
  | None => s
  end.

(** Lines 390-391 *)
Definition clear_level (env : Env) (s : Widget) : Py Widget :=
  if negb (is_empty (bricks s)) && negb (existsb alive (bricks s))
  then reload_bricks env s
  else Ok s.

(** Lines 393-399 *)
Definition fall_bottom (env : Env) (s : Widget) : Widget :=
  let h := Z.max 360 (height env) in
  if Qltb (inject_Z h) (ball_y s - ball_r)
  then
    let s := set_lives s (lives s - 1) in
    if lives s <=? 0
    then set_launched (set_game_over s true) false
    else _reset_ball_on_paddle env s
  else s.

(** Lines 362-380: the ball moves and bounces off the walls and the
    paddle; the widget as it is when the bricks are scanned. *)
Definition before_bricks (env : Env) (s : Widget) : Widget :=
  let s := move_ball s in
  let s := bounce_walls env s in
  bounce_paddle env s.

Definition _tick (env : Env) (s : Widget) : Py Widget :=
  let s := move_paddle env s in
  if negb (launched s) && negb (game_over s) then Ok (ride_paddle env s)
  else if game_over s then Ok s
  else
    let s := before_bricks env s in
    let s := hit_bricks s in
    s <- clear_level env s ;;
    Ok (fall_bottom env s).

(** ** Runs of the widget *)

Inductive Event : Set :=
| Tick
| KeyPress (k : Key)
| KeyRelease (k : Key).

Definition handle (env : Env) (s : Widget) (e : Event) : Py Widget :=
  match e with
  | Tick => _tick env s
  | KeyPress k => keyPressEvent env s k
  | KeyRelease k => Ok (keyReleaseEvent s k)
  end.

Fixpoint run (env : Env) (s : Widget) (es : list Event) : Py Widget :=
  match es with
  | [] => Ok s
  | e :: es' => s' <- handle env s e ;; run env s' es'
  end.

(** ** Auxiliary notions used in the statements *)

(** The cursor after [x += part_w] for each of [parts] (line 266). *)
Definition cursor_after (f : FontMetrics) (x : Z) (parts : list string) : Z :=
  fold_left (fun x part => x + part_w f part) parts x.

(** The paddle lies between the margins of the play field, whose
    width is [w = max(640, self.width())]. *)
Definition paddle_clamped (env : Env) (s : Widget) : Prop :=
  (10 <= paddle_x s /\
   paddle_x s <= inject_Z (Z.max 640 (width env)) - paddle_w - 10)%Q.

(** [s'] differs from [s] in the ball's position and velocity at most. *)
Definition ball_only (s s' : Widget) : Prop :=
  paddle_x s' = paddle_x s
  /\ left_pressed s' = left_pressed s /\ right_pressed s' = right_pressed s
  /\ launched s' = launched s /\ game_over s' = game_over s
  /\ score s' = score s /\ lives s' = lives s
  /\ render_lines s' = render_lines s /\ brick_labels s' = brick_labels s
  /\ bricks s' = bricks s.

(** How many bricks are alive in [old] and dead at the same place in [new]. *)
Fixpoint deaths (old new : list Brick) : nat :=
  match old, new with
  | b :: old', b' :: new' =>
    ((if alive b && negb (alive b') then 1 else 0) + deaths old' new')%nat
  | _, _ => 0%nat
  end.

(** A fixed-pitch font, [cw] pixels a character, and a widget of the
    minimum size with no function under the cursor: the data of the
    examples. *)
Definition mono_font (cw : Z) : FontMetrics :=
  {| fm_height := 14; fm_ascent := 11;
     horizontalAdvance := fun part => cw * Z.of_nat (String.length part) |}.

Definition demo_env : Env :=
  {| width := 800; height := 520; fm := mono_font 7;
     decompiler_lines := ([], 0); disasm_lines := ([], 0) |}.

Definition demo_line (text : string) : LineInfo :=
  {| li_line_no := 1; li_full_text := text; li_label := text |}.

(** A widget with no bricks, the ball in flight. *)
Definition demo_widget : Widget :=
  {| paddle_x := 300; ball_x := 350; ball_y := 350;
     ball_vx := 3.8; ball_vy := -4.6;
     left_pressed := false; right_pressed := false;
     launched := true; game_over := false;
     score := 0; lives := 3;
     render_lines := []; brick_labels := []; bricks := [] |}.

(** A brick of the given rectangle. *)
Definition demo_brick (x y w h : Q) (alive : bool) : Brick :=
  {| rect := {| rx := x; ry := y; rw := w; rh := h |};
     label := "tok"; full_text := "tok tok"; line_no := 1;
     draw_x := 0; draw_y := 0; alive := alive |}.

(** ** Collecting the lines of the function (lines 45-148) *)

(** Line 46.  [tag_remove] is the host's [ida_lines.tag_remove];
    a line that is [None] is [None] here. *)
Definition _clean_ida_line (tag_remove : string -> string) (line : option string)
    : string :=
  strip (tag_remove (match line with Some l => l | None => EmptyString end)).

(** Lines 62-81.  [lnnum] is [vdui.cpos.lnnum] when the host calls
    yield an [int], and [None] on every other path (no decompiler, no
    widget, no [vdui], no [cpos], an exception). *)
Definition _get_hexrays_anchor_raw_idx (lnnum : option Z) : Z :=
  match lnnum with
  | Some n => if n >=? 0 then n else 0
  | None => 0
  end.

(** [idx = 0; for i, x in enumerate(xs): if p(x): idx = i; break] *)
Definition first_index_or_0 {A : Type} (p : A -> bool) (xs : list A) : Z :=
  match find (fun '(_, x) => p x) (enumerate xs) with
  | Some (i, _) => i
  | None => 0
  end.

(** The loops of lines 97-101 and 133-137: the cleaned lines that are
    not empty, as [(raw_idx + 1, line, raw_idx)]. *)
Definition numbered_lines (tag_remove : string -> string) (raw : list (option string))
    : list (Z * string * Z) :=
  flat_map (fun '(raw_idx, l) =>
              let line := _clean_ida_line tag_remove l in
              if truthy line then [(raw_idx + 1, line, raw_idx)] else [])
           (enumerate raw).

(** Lines 105-114 and 139-148: no lines, or the lines without their
    raw index and the index of the first one at or after [anchor_raw]. *)
Definition anchored (lines : list (Z * string * Z)) (anchor_raw : Z)
    : list (Z * string) * Z :=
  if is_empty lines then ([], 0)
  else (map (fun '(line_no, text, _) => (line_no, text)) lines,
        first_index_or_0 (fun '(_, _, raw_idx) => raw_idx >=? anchor_raw) lines).

(** What the decompiler answers: the module is missing, its
    initialisation fails, a call raises, [decompile] returns [None],
    or the [line] attributes of [cfunc.get_pseudocode()]. *)
Inductive Hexrays : Type :=
| HexraysMissing
| HexraysInitFails
| HexraysRaises
| HexraysNoCfunc
| Pseudocode (slines : list (option string)).

(** Lines 84-114 *)
Definition _collect_decompiler_lines (tag_remove : string -> string)
    (hexrays : Hexrays) (lnnum : option Z) : list (Z * string) * Z :=
  match hexrays with
  | Pseudocode slines =>
    anchored (numbered_lines tag_remove slines) (_get_hexrays_anchor_raw_idx lnnum)
  | _ => ([], 0)
  end.

(** Lines 117-148.  [func] is [None] when [get_func(ea)] is, and
    otherwise the item addresses of the function, each with what
    [generate_disasm_line] returns for it. *)
Definition _collect_disasm_lines (tag_remove : string -> string)
    (func : option (list (Z * option string))) (ea : Z) : list (Z * string) * Z :=
  match func with
  | None => ([], 0)
  | Some items =>
    if is_empty items then ([], 0)
    else
      let anchor_raw := first_index_or_0 (fun iea => iea >=? ea) (map fst items) in
      anchored (numbered_lines tag_remove (map snd items)) anchor_raw
  end.

(** The host as the collectors see it, and the environment it makes. *)
Record Host : Type := {
  host_width : Z;
  host_height : Z;
  host_fm : FontMetrics;
  host_tag_remove : string -> string;
  host_hexrays : Hexrays;
  host_lnnum : option Z;
  host_func : option (list (Z * option string));
  host_ea : Z
}.

Definition env_of (h : Host) : Env :=
  {| width := host_width h;
     height := host_height h;
     fm := host_fm h;
     decompiler_lines :=
       _collect_decompiler_lines (host_tag_remove h) (host_hexrays h) (host_lnnum h);
     disasm_lines :=
       _collect_disasm_lines (host_tag_remove h) (host_func h) (host_ea h) |}.

(** A collector's answer has no lines and anchor 0, or an anchor that
    is an index into its lines. *)
Definition anchor_in_range (r : list (Z * string) * Z) : Prop :=
  (fst r = [] /\ snd r = 0) \/ 0 <= snd r < len (fst r).

(** The anchor of a collector's answer [r] is its first line whose raw
    index ([line_no - 1]) is at least [anchor_raw], and 0 when no line
    is. *)
Definition anchor_is_first_from (r : list (Z * string) * Z) (anchor_raw : Z) : Prop :=
  (exists ln text,
     nth_error (fst r) (Z.to_nat (snd r)) = Some (ln, text)
     /\ anchor_raw < ln
     /\ forall j ln' text', (j < Z.to_nat (snd r))%nat ->
          nth_error (fst r) j = Some (ln', text') -> ln' <= anchor_raw)
  \/ (snd r = 0 /\ forall ln text, In (ln, text) (fst r) -> ln <= anchor_raw).

(** The lines [lines] are the non-empty cleaned lines of [raw], each
    with its position in [raw] counted from 1, in the order of [raw]. *)
Definition lines_of_raw (tag_remove : string -> string) (raw : list (option string))
    (lines : list (Z * string)) : Prop :=
  (forall ln text,
     In (ln, text) lines
     <-> (1 <= ln /\ text <> EmptyString
          /\ exists l, nth_error raw (Z.to_nat (ln - 1)) = Some l
                       /\ text = _clean_ida_line tag_remove l))
  /\ StronglySorted Z.lt (map fst lines).

(** Reading order: an upper row first, and in a row the brick further
    left. *)
Definition reads_before (b1 b2 : Brick) : Prop :=
  draw_y b1 < draw_y b2 \/ (draw_y b1 = draw_y b2 /\ draw_x b1 < draw_x b2).

(** ** Tooltips (lines 275-295) *)

(** The calls made on [QToolTip]. *)
Inductive ToolTipCall : Type :=
| showText (text : string)
| hideText.

(** Lines 277-280: the tooltip of a position. *)
Definition tooltip_at (s : Widget) (pos : QPoint) : string :=
  match _find_hover_brick s pos with
  | Some brick =>
    if negb (String.eqb (full_text brick) (label brick))
    then full_text brick else EmptyString
  | None => EmptyString
  end.

(** [mouseMoveEvent]: the new [_hover_text] and the call made, if any. *)
Definition mouseMoveEvent (s : Widget) (_hover_text : string) (pos : QPoint)
    : string * option ToolTipCall :=
  let tooltip := tooltip_at s pos in
  if truthy tooltip
  then
    if negb (String.eqb tooltip _hover_text)
    then (tooltip, Some (showText tooltip))
    else (_hover_text, None)
  else
    if truthy _hover_text
    then (EmptyString, Some hideText)
    else (_hover_text, None).

Definition leaveEvent (_hover_text : string) : string * option ToolTipCall :=
  if truthy _hover_text
  then (EmptyString, Some hideText)
  else (_hover_text, None).

(** The text on screen after a call, [""] when there is none. *)
Definition shown_after (shown : string) (call : option ToolTipCall) : string :=
  match call with
  | Some (showText text) => text
  | Some hideText => EmptyString
  | None => shown
  end.

(** ** Resizing (lines 314-316) *)

(** [env] is the host with the new size. *)
Definition resizeEvent (env : Env) (s : Widget) : Widget := _build_bricks env s.

(** ** Invariants of the game *)

(** The game is over exactly when no life is left, and then the ball
    is not launched; otherwise one to three lives are left. *)
Definition lives_consistent (s : Widget) : Prop :=
  (game_over s = true -> lives s = 0 /\ launched s = false)
  /\ (game_over s = false -> 1 <= lives s <= 3).

(** The centre of the ball is at least a radius from the left, right
    and top edges of the play field. *)
Definition ball_in_field (env : Env) (s : Widget) : Prop :=
  (ball_r <= ball_x s /\ ball_x s <= inject_Z (Z.max 640 (width env)) - ball_r
   /\ ball_r <= ball_y s)%Q.

(** The vertical speed is 4.6 and the horizontal speed at most 72/13. *)
Definition ball_speed_bounded (s : Widget) : Prop :=
  ((ball_vy s == 4.6 \/ ball_vy s == -4.6)
   /\ - (72 # 13) <= ball_vx s /\ ball_vx s <= 72 # 13)%Q.

(** A brick list is either empty or has an alive brick. *)
Definition playable (bs : list Brick) : Prop :=
  bs = [] \/ existsb alive bs = true.

(** Hosts for the examples: [tag_remove] is the identity. *)
Definition demo_host (hexrays : Hexrays) (lnnum : option Z)
    (func : option (list (Z * option string))) (ea : Z) : Host :=
  {| host_width := 800; host_height := 520; host_fm := mono_font 7;
     host_tag_remove := fun line => line;
     host_hexrays := hexrays; host_lnnum := lnnum;
     host_func := func; host_ea := ea |}.

Definition demo_pseudocode : Hexrays :=
  Pseudocode [Some "int f()"; Some "{"; Some "  "; None; Some "  return 0;"; Some "}"]%string.

Definition demo_func : option (list (Z * option string)) :=
  Some [(4096, Some "push ebp"); (4097, Some "  "); (4099, Some "mov ebp, esp");
        (4101, Some "ret")]%string.

Definition demo_line_numbered (l : Z * string) : LineInfo :=
  {| li_line_no := fst l; li_full_text := snd l; li_label := snd l |}.

(** ** Theorems *)

(** *** Rotation *)

Example rotate_spec_example :
  _rotate_items_from_anchor [1; 2; 3; 4; 5] 3 4 = Ok [4; 5; 1; 2].
Proof. reflexivity. Qed.

Lemma len_pos {A : Type} (xs : list A) : xs <> [] -> 0 < len xs.
Proof. unfold len. destruct xs; [congruence | simpl; lia]. Qed.

Lemma range_length (k : Z) : List.length (range k) = Z.to_nat k.
Proof. unfold range. now rewrite length_map, length_seq. Qed.

Lemma range_nth_error (k : Z) (i : nat) :
  (i < Z.to_nat k)%nat -> nth_error (range k) i = Some (Z.of_nat i).
Proof.
  intros H. unfold range.
  rewrite nth_error_map, nth_error_seq.
  destruct (Nat.ltb_spec i (Z.to_nat k)); [reflexivity | lia].
Qed.

(** A loop whose body appends one computed element per iteration. *)
Lemma for_each_append {A B : Type} (xs : list A)
    (body : A -> list B -> Py (list B)) (g : A -> B) :
  (forall x out, In x xs -> body x out = Ok (out ++ [g x])) ->
  forall acc, for_each xs body acc = Ok (acc ++ map g xs).
Proof.
  induction xs as [|x xs IH]; intros Hbody acc; simpl.
  - now rewrite app_nil_r.
  - rewrite (Hbody x acc) by now left. simpl.
    rewrite IH by (intros; apply Hbody; now right).
    now rewrite <- app_assoc.
Qed.

Lemma getitem_in_range {A : Type} (xs : list A) (k : Z) (d : A) :
  0 <= k < len xs -> getitem xs k = Ok (nth (Z.to_nat k) xs d).
Proof.
  intros Hk. unfold getitem, len in *.
  destruct (Z.ltb_spec k 0); [lia|].
  destruct (Z.ltb_spec k 0); [lia|].
  destruct (nth_error xs (Z.to_nat k)) as [x|] eqn:E.
  - now rewrite (nth_error_nth _ _ d E).
  - apply nth_error_None in E. lia.
Qed.

(** The loop of lines 57-58, once the anchor is fixed. *)
Lemma rotate_loop {A : Type} (items : list A) (a limit : Z) (d : A) :
  items <> [] ->
  for_each (range (Z.min limit (len items)))
    (fun i out =>
       k <- py_mod (a + i) (len items) ;;
       x <- getitem items k ;;
       Ok (out ++ [x]))
    []
  = Ok (map (fun i => nth (Z.to_nat ((a + i) mod len items)) items d)
            (range (Z.min limit (len items)))).
Proof.
  intros Hne. pose proof (len_pos items Hne) as Hn.
  rewrite (for_each_append _ _
             (fun i => nth (Z.to_nat ((a + i) mod len items)) items d)).
  - reflexivity.
  - intros i out _. unfold py_mod.
    destruct (Z.eqb_spec (len items) 0); [lia|]. simpl.
    rewrite (getitem_in_range _ _ d) by (apply Z.mod_pos_bound; lia).
    reflexivity.
Qed.

(** The anchor the loop starts from. *)
Lemma rotate_unfold {A : Type} (items : list A) (anchor_idx limit : Z) (d : A) :
  items <> [] ->
  _rotate_items_from_anchor items anchor_idx limit
  = Ok (map (fun i =>
               nth (Z.to_nat (((if (0 <=? anchor_idx) && (anchor_idx <? len items)
                                then anchor_idx else 0) + i) mod len items)) items d)
            (range (Z.min limit (len items)))).
Proof.
  intros Hne. unfold _rotate_items_from_anchor.
  destruct items as [|x xs]; [congruence|].
  remember (x :: xs) as items eqn:E.
  replace (if (anchor_idx <? 0) || (anchor_idx >=? len items) then 0 else anchor_idx)
    with (if (0 <=? anchor_idx) && (anchor_idx <? len items) then anchor_idx else 0).
  - apply rotate_loop; assumption.
  - destruct (Z.ltb_spec anchor_idx 0), (Z.leb_spec 0 anchor_idx),
      (Z.ltb_spec anchor_idx (len items)), (Z.geb_spec anchor_idx (len items));
      simpl; try reflexivity; lia.
Qed.

Lemma rotate_never_raises {A : Type} (items : list A) (anchor_idx limit : Z) :
  exists out, _rotate_items_from_anchor items anchor_idx limit = Ok out.
Proof.
  destruct items as [|x xs].
  - exists []. reflexivity.
  - eexists. apply (rotate_unfold _ _ _ x). discriminate.
Qed.

(** C1, as stated, fails: an anchor beyond the end is not reduced
    modulo the length, the rotation starts at 0. *)
Lemma rotate_anchor_not_reduced_mod_length :
  ~ (exists out,
       _rotate_items_from_anchor [1; 2; 3; 4; 5] 7 4 = Ok out /\
       forall i, (i < 4)%nat ->
         nth_error out i
         = nth_error [1; 2; 3; 4; 5] (Z.to_nat ((7 + Z.of_nat i) mod 5))).
Proof.
  intros [out [Hout Hnth]].
  vm_compute in Hout. inversion Hout; subst out.
  specialize (Hnth 0%nat ltac:(lia)). vm_compute in Hnth. discriminate.
Qed.

(** C1 (amended): on a non-empty sequence of length [L] the rotation
    returns [max(0, min(max_lines, L))] entries, the [i]-th being the
    element at position [(a + i) mod L], where [a] is [anchor_index]
    when [0 <= anchor_index < L] and 0 otherwise. *)
Theorem rotate_law {A : Type} (items : list A) (anchor_idx limit : Z) :
  items <> [] ->
  let L := len items in
  let a := if (0 <=? anchor_idx) && (anchor_idx <? L) then anchor_idx else 0 in
  exists out,
    _rotate_items_from_anchor items anchor_idx limit = Ok out /\
    len out = Z.max 0 (Z.min limit L) /\
    forall i, (i < List.length out)%nat ->
      nth_error out i = nth_error items (Z.to_nat ((a + Z.of_nat i) mod L)).
Proof.
  intros Hne L a.
  assert (d : A) by (destruct items as [|d ?]; [congruence | exact d]).
  pose proof (len_pos items Hne) as HL. fold L in HL.
  eexists. split; [apply (rotate_unfold _ _ _ d Hne)|].
  split.
  - unfold len at 1. rewrite length_map, range_length. subst L. lia.
  - intros i Hi. rewrite length_map, range_length in Hi.
    rewrite nth_error_map, range_nth_error by assumption. simpl.
    fold L a. symmetry. apply nth_error_nth'.
    pose proof (Z.mod_pos_bound (a + Z.of_nat i) L HL) as Hm.
    assert (HLen : L = Z.of_nat (List.length items)) by reflexivity.
    clearbody L. lia.
Qed.

Lemma rotate_law_witness :
  [10; 20; 30] <> [] /\
  exists out,
    _rotate_items_from_anchor [10; 20; 30] 2 5 = Ok out /\
    len out = Z.max 0 (Z.min 5 (len [10; 20; 30])) /\
    forall i, (i < List.length out)%nat ->
      nth_error out i
      = nth_error [10; 20; 30]
          (Z.to_nat (((if (0 <=? 2) && (2 <? len [10; 20; 30]) then 2 else 0)
                      + Z.of_nat i) mod len [10; 20; 30])).
Proof.
  split; [discriminate|].
  apply (rotate_law [10; 20; 30] 2 5). discriminate.
Defined.

(** C8: an anchor that is negative, or not below the length, is
    treated as 0, and the rotation raises no exception. *)
Theorem rotate_out_of_bounds_anchor {A : Type} (items : list A) (anchor_idx limit : Z) :
  anchor_idx < 0 \/ len items <= anchor_idx ->
  _rotate_items_from_anchor items anchor_idx limit
  = _rotate_items_from_anchor items 0 limit
  /\ exists out, _rotate_items_from_anchor items anchor_idx limit = Ok out.
Proof.
  intros Hout. split; [|apply rotate_never_raises].
  destruct (is_empty items) eqn:E.
  { destruct items; [reflexivity | discriminate]. }
  assert (Hne : items <> []) by (intros ->; discriminate).
  assert (d : A) by (destruct items as [|d ?]; [congruence | exact d]).
  rewrite !(rotate_unfold _ _ _ d Hne).
  pose proof (len_pos items Hne) as HL.
  destruct (Z.leb_spec 0 anchor_idx), (Z.ltb_spec anchor_idx (len items)),
    (Z.ltb_spec 0 (len items)); simpl; try reflexivity; lia.
Qed.

Lemma rotate_out_of_bounds_anchor_witness :
  (-2 < 0 \/ len ["a"; "b"; "c"]%string <= -2) /\
  _rotate_items_from_anchor ["a"; "b"; "c"]%string (-2) 2
  = _rotate_items_from_anchor ["a"; "b"; "c"]%string 0 2
  /\ exists out, _rotate_items_from_anchor ["a"; "b"; "c"]%string (-2) 2 = Ok out.
Proof.
  split; [left; lia|].
  apply (rotate_out_of_bounds_anchor ["a"; "b"; "c"]%string (-2) 2). left; lia.
Defined.

(** *** Tokenizer *)

Example findall_ex :
  findall "mov  eax, ebx " = ["mov"; "  "; "eax,"; " "; "ebx"; " "]%string.
Proof. reflexivity. Qed.

Example strip_ex : strip "  a b  " = "a b"%string.
Proof. reflexivity. Qed.

Lemma take_while_spec (cls : ascii -> bool) (s : string) :
  (fst (take_while cls s) ++ snd (take_while cls s))%string = s
  /\ all_chars cls (fst (take_while cls s)) = true
  /\ match snd (take_while cls s) with
     | EmptyString => True
     | String c _ => cls c = false
     end.
Proof.
  induction s as [|c s [IH1 [IH2 IH3]]]; simpl; [auto|].
  destruct (cls c) eqn:Hc.
  - destruct (take_while cls s) as [m r]; simpl in *.
    rewrite IH1, Hc, IH2. auto.
  - simpl. auto.
Qed.

Lemma take_while_rest_length (cls : ascii -> bool) (s : string) :
  (String.length (snd (take_while cls s)) <= String.length s)%nat.
Proof.
  induction s as [|c s IH]; simpl; [lia|].
  destruct (cls c); simpl; [|lia].
  destruct (take_while cls s); simpl in *; lia.
Qed.

(** The class of the run that starts with [c]. *)
Lemma findall_String (c : ascii) (s' : string) :
  let cls := if is_space c then is_space else is_nonspace in
  cls c = true /\
  findall (String c s')
  = String c (fst (take_while cls s')) :: findall (snd (take_while cls s')).
Proof.
  simp findall.
  destruct (inspect (LINE_SPLIT_RE_match (String c s'))) as [[[m r]|] E];
    simpl; unfold LINE_SPLIT_RE_match, match_plus, is_nonspace in E;
    destruct (is_space c) eqn:Hc; simpl in E; rewrite ?Hc in E; simpl in E;
    try discriminate.
  - split; [assumption|].
    destruct (take_while is_space s') as [m1 r1]; simpl in *. congruence.
  - split; [unfold is_nonspace; now rewrite Hc|].
    fold is_nonspace in E.
    destruct (take_while is_nonspace s') as [m1 r1]; simpl in *. congruence.
Qed.

Lemma concat_empty_cons (t : string) (ts : list string) :
  String.concat "" (t :: ts) = (t ++ String.concat "" ts)%string.
Proof.
  destruct ts as [|t' ts]; simpl; [|reflexivity].
  induction t as [|c t IH]; simpl; congruence.
Qed.

(** C6: [findall] cuts a line into runs of non-whitespace and runs of
    whitespace, neighbouring runs being of different classes (so each
    run is maximal), and the runs joined in order give the line back. *)
Theorem findall_splits_into_maximal_runs (s : string) :
  String.concat "" (findall s) = s
  /\ Forall is_run (findall s)
  /\ classes_alternate (findall s).
Proof.
  remember (String.length s) as n eqn:Hn.
  revert s Hn. induction n as [n IH] using lt_wf_ind. intros s Hn.
  destruct s as [|c s'].
  { simp findall. simpl. auto. }
  destruct (findall_String c s') as [Hc Hf]. rewrite Hf. clear Hf.
  set (cls := if is_space c then is_space else is_nonspace) in *.
  destruct (take_while_spec cls s') as [Happ [Hall Hnext]].
  pose proof (take_while_rest_length cls s') as Hlen.
  destruct (take_while cls s') as [m r]; cbn [fst snd] in *.
  assert (Hlt : (String.length r < n)%nat) by (subst n; simpl; lia).
  destruct (IH (String.length r) Hlt r eq_refl) as [IHc [IHr IHa]].
  split; [|split].
  - rewrite concat_empty_cons, IHc. simpl. now rewrite Happ.
  - constructor; [|assumption]. split; [discriminate|].
    simpl. unfold cls in *. destruct (is_space c) eqn:Hs.
    + right. now rewrite Hall.
    + left. now rewrite Hc, Hall.
  - destruct r as [|c2 r'].
    { simp findall. simpl. exact I. }
    destruct (findall_String c2 r') as [Hc2 Hf2]. rewrite Hf2 in *.
    split; [|assumption].
    simpl. unfold cls in *.
    destruct (is_space c) eqn:Hs; simpl.
    + rewrite Hall, Hnext. reflexivity.
    + unfold is_nonspace in Hnext. apply negb_false_iff in Hnext.
      rewrite Hnext. simpl.
      destruct (take_while_spec is_space r') as [_ [Hrun _]].
      now rewrite Hrun.
Qed.

(** *** Brick layout *)

Example line_bricks_ex :
  map (fun b => (label b, draw_x b)) (line_bricks (mono_font 7) 800 0 (demo_line "mov eax, ebx"))
  = [("mov", 70); ("eax,", 98); ("ebx", 133)]%string.
Proof. reflexivity. Qed.

(** What the inner loop emits: a brick stands for a part that is not
    blank and still fits, at the cursor the parts before it left. *)
Lemma place_parts_In (f : FontMetrics) (cright y : Z) (li : LineInfo) (b : Brick) :
  forall (parts : list string) (x : Z),
  In b (place_parts f cright y li x parts) ->
  exists pre part post,
    parts = pre ++ part :: post
    /\ b = make_brick f (cursor_after f x pre) y part li
    /\ cursor_after f x pre + part_w f part <= cright
    /\ truthy (strip part) = true.
Proof.
  induction parts as [|p parts IH]; intros x Hin; simpl in Hin; [contradiction|].
  destruct (Z.gtb_spec (x + part_w f p) cright) as [Hgt|Hle]; [contradiction|].
  assert (Hrest : In b (place_parts f cright y li (x + part_w f p) parts) ->
    exists pre part post,
      p :: parts = pre ++ part :: post
      /\ b = make_brick f (cursor_after f x pre) y part li
      /\ cursor_after f x pre + part_w f part <= cright
      /\ truthy (strip part) = true).
  { intros H. destruct (IH _ H) as (pre & part & post & -> & Hb & Hfit & Hvis).
    exists (p :: pre), part, post. simpl. auto. }
  destruct (truthy (strip p)) eqn:Hvis; [|auto].
  destruct Hin as [<-|Hin]; [|auto].
  exists [], p, parts. simpl. auto.
Qed.

Lemma place_parts_mono (f : FontMetrics) (c1 c2 y : Z) (li : LineInfo) :
  c1 <= c2 ->
  forall (parts : list string) (x : Z),
  (List.length (place_parts f c1 y li x parts)
   <= List.length (place_parts f c2 y li x parts))%nat.
Proof.
  intros Hc. induction parts as [|p parts IH]; intros x; simpl; [lia|].
  destruct (Z.gtb_spec (x + part_w f p) c1), (Z.gtb_spec (x + part_w f p) c2);
    simpl; try lia.
  specialize (IH (x + part_w f p)).
  destruct (truthy (strip p)); simpl; lia.
Qed.

(** C9: a narrower widget never gives a line more bricks. *)
Theorem narrowing_never_adds_bricks (f : FontMetrics) (i : Z) (line_info : LineInfo)
    (w1 w2 : Z) :
  w1 <= w2 ->
  (List.length (line_bricks f w1 i line_info)
   <= List.length (line_bricks f w2 i line_info))%nat.
Proof.
  intros Hw. unfold line_bricks. apply place_parts_mono. unfold code_right. lia.
Qed.

Lemma narrowing_never_adds_bricks_witness :
  700 <= 900 /\
  (List.length (line_bricks (mono_font 60) 700 0 (demo_line "call sub_handler now"))
   <= List.length (line_bricks (mono_font 60) 900 0 (demo_line "call sub_handler now")))%nat.
Proof.
  split; [lia|].
  apply (narrowing_never_adds_bricks (mono_font 60) 0
           (demo_line "call sub_handler now") 700 900). lia.
Defined.

Lemma combine_seq_In {A : Type} (xs : list A) (i : Z) (x : A) :
  forall a : nat,
  In (i, x) (combine (map Z.of_nat (seq a (List.length xs))) xs) ->
  exists k : nat, i = Z.of_nat (a + k) /\ nth_error xs k = Some x.
Proof.
  induction xs as [|y xs IH]; intros a Hin; simpl in Hin; [contradiction|].
  destruct Hin as [Heq|Hin].
  - inversion Heq; subst. exists 0%nat. split; [f_equal; lia | reflexivity].
  - destruct (IH _ Hin) as [k [-> Hk]].
    exists (S k). split; [f_equal; lia | assumption].
Qed.

Lemma enumerate_In {A : Type} (xs : list A) (i : Z) (x : A) :
  In (i, x) (enumerate xs) -> 0 <= i /\ nth_error xs (Z.to_nat i) = Some x.
Proof.
  unfold enumerate, range, len. rewrite Nat2Z.id. intros Hin.
  destruct (combine_seq_In _ _ _ _ Hin) as [k [-> Hk]].
  simpl. rewrite Nat2Z.id. split; [lia | assumption].
Qed.

Lemma slice_to_nth_error {A : Type} (xs : list A) (k : Z) (n : nat) (x : A) :
  0 <= k ->
  nth_error (slice_to xs k) n = Some x ->
  nth_error xs n = Some x /\ Z.of_nat n < k.
Proof.
  intros Hk. unfold slice_to. destruct (Z.ltb_spec k 0); [lia|].
  rewrite nth_error_firstn.
  destruct (Nat.ltb_spec n (Z.to_nat k)); [|discriminate].
  intros Hx. split; [assumption | lia].
Qed.

Lemma max_visible_lines_pos (f : FontMetrics) (height : Z) :
  1 <= max_visible_lines f height.
Proof. unfold max_visible_lines. lia. Qed.

(** C5, as stated, fails twice: the rectangle of a token 3 pixels wide
    is 6 pixels wide, and a token wider than the room left of the
    right margin is not emitted at all. *)
Lemma brick_width_floor_is_six_and_wide_token_dropped :
  ~ (forall b, In b (line_bricks (mono_font 3) 800 0 (demo_line "a")) ->
       (rw (rect b) == inject_Z (Z.max 1 (horizontalAdvance (mono_font 3) (label b))))%Q)
  /\ line_bricks (mono_font 700) 640 0 (demo_line "x") = [].
Proof.
  split; [|reflexivity].
  intros H.
  specialize (H (make_brick (mono_font 3) 70 (row_y_base (mono_font 3) 0) "a" (demo_line "a"))
                (or_introl eq_refl)).
  vm_compute in H. discriminate.
Qed.

(** Where a brick of the layout comes from. *)
Lemma brick_rectangle_parts (env : Env) (s : Widget) (b : Brick) :
  In b (bricks (_build_bricks env s)) ->
  alive b = true
  /\ exists (i : nat) (line_info : LineInfo) (pre : list string) (part : string)
            (post : list string),
       nth_error (brick_labels s) i = Some line_info
       /\ Z.of_nat i < max_visible_lines (fm env) (height env)
       /\ findall (li_full_text line_info) = pre ++ part :: post
       /\ b = make_brick (fm env) (cursor_after (fm env) code_left pre)
                (row_y_base (fm env) (Z.of_nat i)) part line_info
       /\ cursor_after (fm env) code_left pre + part_w (fm env) part
          <= code_right (width env).
Proof.
  unfold _build_bricks. simpl. intros Hin.
  apply in_flat_map in Hin. destruct Hin as [[i li] [Hrow Hin]].
  apply enumerate_In in Hrow. destruct Hrow as [Hi Hrow].
  apply slice_to_nth_error in Hrow;
    [|pose proof (max_visible_lines_pos (fm env) (height env)); lia].
  destruct Hrow as [Hnth Hvis].
  unfold line_bricks in Hin. apply place_parts_In in Hin.
  destruct Hin as (pre & part & post & Hparts & -> & Hfit & _).
  split; [reflexivity|].
  exists (Z.to_nat i), li, pre, part, post.
  rewrite Z2Nat.id in * by assumption.
  repeat split; assumption.
Qed.

(** C5 (amended): a brick of the layout stands for a part of a line
    among the first [max_visible_lines]; its rectangle has left = the
    cursor before the part, top = the top of the row, width =
    [max(6, max(1, advance))] and height = the row height; the part was
    emitted because it still fits left of the right margin. *)
Theorem brick_rectangle (env : Env) (s : Widget) (b : Brick) :
  In b (bricks (_build_bricks env s)) ->
  exists (i : nat) (line_info : LineInfo) (pre : list string) (part : string)
         (post : list string),
    nth_error (brick_labels s) i = Some line_info
    /\ Z.of_nat i < max_visible_lines (fm env) (height env)
    /\ findall (li_full_text line_info) = pre ++ part :: post
    /\ rect b
       = {| rx := inject_Z (cursor_after (fm env) code_left pre);
            ry := inject_Z (code_top + Z.of_nat i * line_h (fm env));
            rw := inject_Z (Z.max 6 (Z.max 1 (horizontalAdvance (fm env) part)));
            rh := inject_Z (line_h (fm env)) |}
    /\ label b = part
    /\ full_text b = li_full_text line_info
    /\ line_no b = li_line_no line_info
    /\ alive b = true
    /\ cursor_after (fm env) code_left pre + Z.max 1 (horizontalAdvance (fm env) part)
       <= code_right (width env).
Proof.
  intros Hin.
  destruct (brick_rectangle_parts env s b Hin)
    as (_ & i & li & pre & part & post & Hnth & Hvis & Hparts & -> & Hfit).
  exists i, li, pre, part, post.
  repeat split; try assumption.
  unfold make_brick, row_y_base. simpl. do 2 f_equal. lia.
Qed.

Lemma brick_rectangle_witness :
  let s := set_brick_labels demo_widget [demo_line "jne loc_next"] in
  let b := make_brick (mono_font 7) 98 (row_y_base (mono_font 7) 0) "loc_next"
             (demo_line "jne loc_next") in
  In b (bricks (_build_bricks demo_env s))
  /\ exists i line_info pre part post,
       nth_error (brick_labels s) i = Some line_info
       /\ Z.of_nat i < max_visible_lines (fm demo_env) (height demo_env)
       /\ findall (li_full_text line_info) = pre ++ part :: post
       /\ rect b
          = {| rx := inject_Z (cursor_after (fm demo_env) code_left pre);
               ry := inject_Z (code_top + Z.of_nat i * line_h (fm demo_env));
               rw := inject_Z (Z.max 6 (Z.max 1 (horizontalAdvance (fm demo_env) part)));
               rh := inject_Z (line_h (fm demo_env)) |}
       /\ label b = part
       /\ full_text b = li_full_text line_info
       /\ line_no b = li_line_no line_info
       /\ alive b = true
       /\ cursor_after (fm demo_env) code_left pre
          + Z.max 1 (horizontalAdvance (fm demo_env) part)
          <= code_right (width demo_env).
Proof.
  intros s b.
  assert (Hin : In b (bricks (_build_bricks demo_env s))).
  { right. left. reflexivity. }
  split; [exact Hin|].
  exact (brick_rectangle demo_env s b Hin).
Defined.

(** *** Hover query *)

Lemma find_first {A : Type} (p : A -> bool) (xs : list A) :
  match find p xs with
  | Some x =>
    exists pre post,
      xs = pre ++ x :: post /\ p x = true /\ forall y, In y pre -> p y = false
  | None => forall y, In y xs -> p y = false
  end.
Proof.
  induction xs as [|x xs IH]; simpl; [intros y []|].
  destruct (p x) eqn:Hx.
  - exists [], xs. simpl. repeat split; [assumption | intros y []].
  - destruct (find p xs) as [z|].
    + destruct IH as (pre & post & -> & Hz & Hpre).
      exists (x :: pre), post. repeat split; [assumption|].
      intros y [<-|Hy]; auto.
    + intros y [<-|Hy]; auto.
Qed.

(** C10: the hover query returns the first brick, in the order of the
    brick list, that is alive and whose rectangle contains the point,
    and nothing when there is none; a dead brick is never returned. *)
Theorem hover_finds_first_alive_brick (s : Widget) (pos : QPoint) :
  match _find_hover_brick s pos with
  | Some b =>
    alive b = true
    /\ QRectF_contains (rect b) (QPointF_of pos) = true
    /\ exists pre post,
         bricks s = pre ++ b :: post
         /\ forall b', In b' pre ->
              alive b' = false \/ QRectF_contains (rect b') (QPointF_of pos) = false
  | None =>
    forall b, In b (bricks s) ->
      alive b = false \/ QRectF_contains (rect b) (QPointF_of pos) = false
  end.
Proof.
  unfold _find_hover_brick.
  pose proof (find_first
    (fun b => alive b && QRectF_contains (rect b) (QPointF_of pos)) (bricks s)) as H.
  destruct (find _ (bricks s)) as [b|].
  - destruct H as (pre & post & Hsplit & Hb & Hpre).
    apply andb_true_iff in Hb. destruct Hb as [Ha Hc].
    repeat split; try assumption.
    exists pre, post. split; [assumption|].
    intros b' Hin. apply andb_false_iff. auto.
  - intros b Hin. apply andb_false_iff. auto.
Qed.

Example hover_skips_dead_brick :
  _find_hover_brick
    (set_bricks demo_widget
       [demo_brick 70 64 40 16 false; demo_brick 70 64 40 16 true])
    {| qx := 80; qy := 70 |}
  = Some (demo_brick 70 64 40 16 true).
Proof. reflexivity. Qed.

(** *** Numbers *)

Lemma Qltb_true (a b : Q) : Qltb a b = true <-> (a < b)%Q.
Proof.
  unfold Qltb. rewrite negb_true_iff. split.
  - intros H. apply Qnot_le_lt. intros Hle.
    apply Qle_bool_iff in Hle. congruence.
  - intros H. destruct (Qle_bool b a) eqn:E; [|reflexivity].
    apply Qle_bool_iff in E. apply Qlt_not_le in H. contradiction.
Qed.

Lemma Qltb_false (a b : Q) : Qltb a b = false <-> (b <= a)%Q.
Proof.
  unfold Qltb. rewrite negb_false_iff. apply Qle_bool_iff.
Qed.

(** [max(10, min(x, hi))] lies in [10, B] as soon as [hi <= B]. *)
Lemma clamp_bounds (x hi B : Q) :
  (10 <= B)%Q -> (hi <= B)%Q ->
  (10 <= py_max 10 (py_min x hi) /\ py_max 10 (py_min x hi) <= B)%Q.
Proof.
  intros HB Hhi. unfold py_max, py_min.
  destruct (Qltb hi x) eqn:E1.
  - destruct (Qltb 10 hi) eqn:E2.
    + apply Qltb_true in E2. split; [apply Qlt_le_weak|]; assumption.
    + split; [apply Qle_refl | assumption].
  - apply Qltb_false in E1.
    destruct (Qltb 10 x) eqn:E2.
    + apply Qltb_true in E2. split; [apply Qlt_le_weak; assumption|].
      eapply Qle_trans; eassumption.
    + split; [apply Qle_refl | assumption].
Qed.

(** Inside the bounds the clamp changes nothing. *)
Lemma clamp_inside (x hi : Q) :
  (10 <= x)%Q -> (x <= hi)%Q -> (py_max 10 (py_min x hi) == x)%Q.
Proof.
  intros Hlo Hhi. unfold py_max, py_min.
  destruct (Qltb hi x) eqn:E1.
  - apply Qltb_true in E1. apply Qlt_not_le in E1. contradiction.
  - destruct (Qltb 10 x) eqn:E2; [reflexivity|].
    apply Qltb_false in E2. apply Qle_antisym; assumption.
Qed.

Lemma field_width_bounds (w : Z) :
  (10 <= inject_Z (Z.max 640 w) - paddle_w - 10
   /\ inject_Z w - paddle_w - 10 <= inject_Z (Z.max 640 w) - paddle_w - 10)%Q.
Proof.
  assert (H1 : (inject_Z 640 <= inject_Z (Z.max 640 w))%Q)
    by (rewrite <- Zle_Qle; lia).
  assert (H2 : (inject_Z w <= inject_Z (Z.max 640 w))%Q)
    by (rewrite <- Zle_Qle; lia).
  unfold paddle_w. change (inject_Z 640) with 640%Q in H1. split; lra.
Qed.

(** *** Loading never raises *)

Lemma extract_never_raises (env : Env) (max_tokens : Z) :
  exists labels, _extract_line_blocks_from_current_context env max_tokens = Ok labels.
Proof.
  unfold _extract_line_blocks_from_current_context.
  destruct (decompiler_lines env) as [l1 a1].
  destruct (if is_empty l1 then disasm_lines env else (l1, a1)) as [l2 a2].
  destruct (rotate_never_raises
              (if is_empty l2 then placeholder_lines else l2) a2 max_tokens)
    as [out Hout].
  rewrite Hout. simpl. eexists. reflexivity.
Qed.

Lemma reload_bricks_ok (env : Env) (s : Widget) :
  exists labels,
    reload_bricks env s
    = Ok (_reset_ball_on_paddle env (_build_bricks env (set_brick_labels s labels))).
Proof.
  unfold reload_bricks.
  destruct (extract_never_raises env MAX_BRICK_LINES) as [labels H].
  rewrite H. simpl. exists labels. reflexivity.
Qed.

(** *** The paddle *)

Lemma reset_clamped (env : Env) (s : Widget) :
  paddle_clamped env (_reset_ball_on_paddle env s).
Proof.
  unfold paddle_clamped, _reset_ball_on_paddle. simpl.
  destruct (field_width_bounds (width env)) as [H1 H2].
  apply clamp_bounds; assumption.
Qed.

Lemma move_paddle_clamped (env : Env) (s : Widget) :
  paddle_clamped env (move_paddle env s).
Proof.
  unfold paddle_clamped, move_paddle. simpl.
  destruct (field_width_bounds (width env)) as [H1 H2].
  apply clamp_bounds; [assumption | apply Qle_refl].
Qed.

Lemma paddle_clamped_ext (env : Env) (s s' : Widget) :
  paddle_x s' = paddle_x s -> paddle_clamped env s -> paddle_clamped env s'.
Proof. unfold paddle_clamped. intros ->. auto. Qed.

Lemma reload_clamped (env : Env) (s : Widget) :
  exists s', reload_bricks env s = Ok s' /\ paddle_clamped env s'.
Proof.
  destruct (reload_bricks_ok env s) as [labels H].
  eexists. split; [exact H | apply reset_clamped].
Qed.

Lemma ball_only_refl (s : Widget) : ball_only s s.
Proof. unfold ball_only. repeat split. Qed.

Lemma ball_only_trans (s1 s2 s3 : Widget) :
  ball_only s1 s2 -> ball_only s2 s3 -> ball_only s1 s3.
Proof. unfold ball_only. intuition congruence. Qed.

Lemma move_ball_frame (s : Widget) : ball_only s (move_ball s).
Proof. unfold ball_only, move_ball. simpl. repeat split. Qed.

Lemma bounce_walls_frame (env : Env) (s : Widget) : ball_only s (bounce_walls env s).
Proof.
  unfold bounce_walls, ball_only. cbv zeta.
  destruct (Qleb (ball_x s - ball_r) 0); cbn [ball_x set_ball_x set_ball_vx];
    destruct (Qleb _ (_ + ball_r)); cbn [ball_y set_ball_x set_ball_vx];
    destruct (Qleb (_ - ball_r) 0); simpl; repeat split.
Qed.

Lemma bounce_paddle_frame (env : Env) (s : Widget) : ball_only s (bounce_paddle env s).
Proof.
  unfold bounce_paddle.
  destruct (_ && _); [|apply ball_only_refl].
  unfold ball_only. simpl. repeat split.
Qed.

(** Lines 362-380 move the ball and nothing else. *)
Lemma flight_frame (env : Env) (s : Widget) :
  ball_only s (before_bricks env s).
Proof.
  unfold before_bricks. cbv zeta.
  eapply ball_only_trans; [apply move_ball_frame|].
  eapply ball_only_trans; [apply bounce_walls_frame|].
  apply bounce_paddle_frame.
Qed.

(** The brick scan leaves the paddle, the lives and the flags alone. *)
Lemma hit_bricks_frame (s : Widget) :
  paddle_x (hit_bricks s) = paddle_x s /\ lives (hit_bricks s) = lives s
  /\ game_over (hit_bricks s) = game_over s /\ launched (hit_bricks s) = launched s
  /\ ball_x (hit_bricks s) = ball_x s /\ ball_y (hit_bricks s) = ball_y s.
Proof.
  unfold hit_bricks. destruct (hit_first _ _); simpl; repeat split.
Qed.

Lemma clear_level_clamped (env : Env) (s : Widget) :
  paddle_clamped env s ->
  exists s', clear_level env s = Ok s' /\ paddle_clamped env s'.
Proof.
  intros H. unfold clear_level.
  destruct (negb (is_empty (bricks s)) && negb (existsb alive (bricks s))).
  - apply reload_clamped.
  - exists s. auto.
Qed.

Lemma fall_bottom_clamped (env : Env) (s : Widget) :
  paddle_clamped env s -> paddle_clamped env (fall_bottom env s).
Proof.
  intros H. unfold fall_bottom.
  destruct (Qltb _ _); [|assumption]. simpl.
  destruct (lives s - 1 <=? 0).
  - exact H.
  - apply reset_clamped.
Qed.

Lemma tick_clamped (env : Env) (s : Widget) :
  exists s', _tick env s = Ok s' /\ paddle_clamped env s'.
Proof.
  unfold _tick.
  pose proof (move_paddle_clamped env s) as Hp.
  set (s1 := move_paddle env s) in *.
  destruct (negb (launched s1) && negb (game_over s1)).
  { eexists. split; [reflexivity|]. exact Hp. }
  destruct (game_over s1).
  { eexists. split; [reflexivity|]. exact Hp. }
  destruct (flight_frame env s1) as [Hx _].
  destruct (hit_bricks_frame (before_bricks env s1)) as [Hx' _].
  destruct (clear_level_clamped env (hit_bricks (before_bricks env s1)))
    as [s2 [H2 Hc2]].
  { eapply paddle_clamped_ext; [|exact Hp]. congruence. }
  rewrite H2. simpl. eexists. split; [reflexivity|].
  apply fall_bottom_clamped. assumption.
Qed.

Lemma handle_clamped (env : Env) (s : Widget) (e : Event) :
  paddle_clamped env s ->
  exists s', handle env s e = Ok s' /\ paddle_clamped env s'.
Proof.
  intros H. destruct e as [|k|k]; simpl.
  - apply tick_clamped.
  - destruct k; simpl; try (eexists; split; [reflexivity | exact H]).
    + destruct (game_over s); simpl; eexists; (split; [reflexivity | exact H]).
    + apply reload_clamped.
    + apply reload_clamped.
  - destruct k; simpl; eexists; (split; [reflexivity | exact H]).
Qed.

Lemma run_clamped (env : Env) (es : list Event) :
  forall s, paddle_clamped env s ->
  exists s', run env s es = Ok s' /\ paddle_clamped env s'.
Proof.
  induction es as [|e es IH]; intros s H; simpl.
  - exists s. auto.
  - destruct (handle_clamped env s e H) as [s1 [H1 Hc1]].
    rewrite H1. simpl. apply IH. assumption.
Qed.

(** C4: the paddle's x lies in [10, w - paddle_w - 10], where
    [w = max(640, self.width())] is the width of the play field: the
    paddle move of a tick and the reset of the ball both clamp it, so
    does a whole tick, and it holds after every sequence of ticks, key
    presses and key releases from the initial state. *)
Theorem paddle_stays_clamped (env : Env) :
  (forall s, paddle_clamped env (move_paddle env s))
  /\ (forall s, paddle_clamped env (_reset_ball_on_paddle env s))
  /\ (forall s, exists s', _tick env s = Ok s' /\ paddle_clamped env s')
  /\ (forall es, exists s0 s',
        _init_state env = Ok s0 /\ run env s0 es = Ok s' /\ paddle_clamped env s').
Proof.
  split; [apply move_paddle_clamped|].
  split; [apply reset_clamped|].
  split; [apply tick_clamped|].
  intros es. unfold _init_state.
  destruct (reload_clamped env
    {| paddle_x := 300; ball_x := 350; ball_y := 350;
       ball_vx := 3.8; ball_vy := -4.6;
       left_pressed := false; right_pressed := false;
       launched := false; game_over := false;
       score := 0; lives := 3;
       render_lines := []; brick_labels := []; bricks := [] |}) as [s0 [H0 Hc0]].
  destruct (run_clamped env es s0 Hc0) as [s' [H' Hc']].
  exists s0, s'. auto.
Qed.

(** From 640 pixels up the play field is as wide as the widget. *)
Remark paddle_clamped_wide (env : Env) (s : Widget) :
  640 <= width env -> paddle_clamped env s ->
  (10 <= paddle_x s /\ paddle_x s <= inject_Z (width env) - paddle_w - 10)%Q.
Proof.
  intros Hw H. unfold paddle_clamped in H.
  rewrite Z.max_r in H by assumption. exact H.
Qed.

Example paddle_stops_at_left_margin :
  exists s0 s',
    _init_state demo_env = Ok s0
    /\ run demo_env s0 (KeyPress Key_Left :: repeat Tick 40) = Ok s'
    /\ (paddle_x s' == 10)%Q.
Proof.
  do 2 eexists.
  split; [vm_compute; reflexivity|].
  split; [vm_compute; reflexivity | reflexivity].
Qed.

(** *** Game over *)

(** Lines 346-350 move the paddle and nothing else. *)
Lemma move_paddle_frame (env : Env) (s : Widget) :
  ball_x (move_paddle env s) = ball_x s /\ ball_y (move_paddle env s) = ball_y s
  /\ ball_vx (move_paddle env s) = ball_vx s /\ ball_vy (move_paddle env s) = ball_vy s
  /\ bricks (move_paddle env s) = bricks s /\ score (move_paddle env s) = score s
  /\ lives (move_paddle env s) = lives s
  /\ game_over (move_paddle env s) = game_over s
  /\ launched (move_paddle env s) = launched s.
Proof.
  unfold move_paddle. cbv zeta.
  destruct (left_pressed s); simpl; destruct (right_pressed s); simpl; repeat split.
Qed.

(** C7, as stated, fails: a held key still moves the paddle of a game
    that is over. *)
Lemma game_over_paddle_still_moves :
  let s := set_left_pressed (set_launched (set_game_over demo_widget true) false) true in
  exists s', _tick demo_env s = Ok s' /\ ~ (paddle_x s' == paddle_x s)%Q.
Proof.
  eexists. split; [vm_compute; reflexivity|].
  vm_compute. discriminate.
Qed.

(** C7 (amended): while the game is over a tick integrates nothing:
    the ball's position and velocity, the bricks, the score, the lives
    and the flags are unchanged.  The paddle alone still follows the
    held keys and is clamped; with no key held and the paddle between
    the margins it stays where it is. *)
Theorem game_over_tick (env : Env) (s : Widget) :
  game_over s = true ->
  exists s',
    _tick env s = Ok s'
    /\ s' = move_paddle env s
    /\ ball_x s' = ball_x s /\ ball_y s' = ball_y s
    /\ ball_vx s' = ball_vx s /\ ball_vy s' = ball_vy s
    /\ bricks s' = bricks s /\ score s' = score s /\ lives s' = lives s
    /\ game_over s' = true /\ launched s' = launched s
    /\ (left_pressed s = false -> right_pressed s = false ->
        paddle_clamped env s -> (paddle_x s' == paddle_x s)%Q).
Proof.
  intros Hover. exists (move_paddle env s).
  destruct (move_paddle_frame env s)
    as (Hbx & Hby & Hvx & Hvy & Hb & Hsc & Hli & Hg & Hl).
  rewrite Hover in Hg.
  split.
  { unfold _tick. rewrite Hg. rewrite andb_false_r. reflexivity. }
  repeat (split; [solve [reflexivity | assumption]|]).
  intros Hleft Hright [Hlo Hhi].
  unfold move_paddle. rewrite Hleft. simpl. rewrite Hright. simpl.
  apply clamp_inside; assumption.
Qed.

Lemma game_over_tick_witness :
  let s := set_launched (set_game_over demo_widget true) false in
  game_over s = true
  /\ exists s',
       _tick demo_env s = Ok s'
       /\ s' = move_paddle demo_env s
       /\ ball_x s' = ball_x s /\ ball_y s' = ball_y s
       /\ ball_vx s' = ball_vx s /\ ball_vy s' = ball_vy s
       /\ bricks s' = bricks s /\ score s' = score s /\ lives s' = lives s
       /\ game_over s' = true /\ launched s' = launched s
       /\ (left_pressed s = false -> right_pressed s = false ->
           paddle_clamped demo_env s -> (paddle_x s' == paddle_x s)%Q).
Proof.
  intros s. split; [reflexivity|].
  apply (game_over_tick demo_env s). reflexivity.
Defined.

(** *** A tick in play *)

Lemma tick_in_play (env : Env) (s : Widget) :
  launched s = true -> game_over s = false ->
  _tick env s
  = (m <- clear_level env (hit_bricks (before_bricks env (move_paddle env s))) ;;
     Ok (fall_bottom env m)).
Proof.
  intros Hl Hg.
  destruct (move_paddle_frame env s) as (_ & _ & _ & _ & _ & _ & _ & Hg' & Hl').
  unfold _tick. cbv zeta.
  rewrite Hg', Hl', Hl, Hg. reflexivity.
Qed.

Lemma reset_frame (env : Env) (s : Widget) :
  lives (_reset_ball_on_paddle env s) = lives s
  /\ game_over (_reset_ball_on_paddle env s) = game_over s
  /\ score (_reset_ball_on_paddle env s) = score s
  /\ bricks (_reset_ball_on_paddle env s) = bricks s.
Proof. unfold _reset_ball_on_paddle. simpl. repeat split. Qed.

(** The level check either does nothing or rebuilds the bricks. *)
Lemma clear_level_cases (env : Env) (s : Widget) :
  clear_level env s = Ok s
  \/ exists labels,
       clear_level env s
       = Ok (_reset_ball_on_paddle env (_build_bricks env (set_brick_labels s labels))).
Proof.
  unfold clear_level.
  destruct (negb (is_empty (bricks s)) && negb (existsb alive (bricks s))).
  - right. apply reload_bricks_ok.
  - left. reflexivity.
Qed.

Lemma rebuilt_frame (env : Env) (s : Widget) (labels : list LineInfo) :
  let s' := _reset_ball_on_paddle env (_build_bricks env (set_brick_labels s labels)) in
  lives s' = lives s /\ game_over s' = game_over s /\ score s' = score s.
Proof. repeat split. Qed.

Lemma clear_level_frame (env : Env) (s m : Widget) :
  clear_level env s = Ok m ->
  lives m = lives s /\ game_over m = game_over s.
Proof.
  intros H.
  destruct (clear_level_cases env s) as [Hc | [labels Hc]];
    rewrite Hc in H; injection H as <-.
  - split; reflexivity.
  - destruct (rebuilt_frame env s labels) as (H1 & H2 & _). split; assumption.
Qed.

Lemma before_fall_frame (env : Env) (s m : Widget) :
  clear_level env (hit_bricks (before_bricks env (move_paddle env s))) = Ok m ->
  lives m = lives s /\ game_over m = game_over s.
Proof.
  intros H.
  apply clear_level_frame in H. destruct H as [H1 H2].
  destruct (move_paddle_frame env s) as (_ & _ & _ & _ & _ & _ & Hli & Hg & _).
  destruct (flight_frame env (move_paddle env s))
    as (_ & _ & _ & _ & Hg1 & _ & Hli1 & _).
  destruct (hit_bricks_frame (before_bricks env (move_paddle env s)))
    as (_ & Hli2 & Hg2 & _).
  split; congruence.
Qed.

Lemma clear_level_total (env : Env) (s : Widget) :
  exists m, clear_level env s = Ok m.
Proof.
  destruct (clear_level_cases env s) as [H | [labels H]]; rewrite H;
    eexists; reflexivity.
Qed.

(** C2: in a tick in play whose bottom check (line 393) finds the ball
    below the field, a game with one life left is over with no life
    left; a game with two lives or more loses one, waits for the launch
    with the ball centred on the paddle, [42] above the bottom, and the
    velocity back at (3.8, -4.6). *)
Theorem life_lost_at_bottom (env : Env) (s m : Widget) :
  launched s = true -> game_over s = false ->
  clear_level env (hit_bricks (before_bricks env (move_paddle env s))) = Ok m ->
  (inject_Z (Z.max 360 (height env)) < ball_y m - ball_r)%Q ->
  exists s',
    _tick env s = Ok s'
    /\ (lives s = 1 -> lives s' = 0 /\ game_over s' = true /\ launched s' = false)
    /\ (2 <= lives s ->
        lives s' = lives s - 1
        /\ launched s' = false /\ game_over s' = false
        /\ ball_x s' = (paddle_x s' + paddle_w / 2)%Q
        /\ ball_y s' = (inject_Z (Z.max 300 (height env)) - 42)%Q
        /\ ball_vx s' = 3.8%Q /\ ball_vy s' = (-4.6)%Q).
Proof.
  intros Hl Hg Hm Hfall.
  destruct (before_fall_frame env s m Hm) as [Hli Hgm].
  exists (fall_bottom env m). split.
  { rewrite (tick_in_play env s Hl Hg), Hm. reflexivity. }
  apply Qltb_true in Hfall.
  unfold fall_bottom. rewrite Hfall. simpl. rewrite Hli.
  split.
  - intros H1. rewrite H1. simpl. repeat split.
  - intros H2. destruct (Z.leb_spec (lives s - 1) 0); [lia|].
    unfold _reset_ball_on_paddle. simpl. rewrite Hgm, Hg. repeat split.
Qed.

Lemma life_lost_at_bottom_witness :
  let fallen lives := set_lives (set_ball_vy (set_ball_y demo_widget 530) 4.6) lives in
  (launched (fallen 1) = true /\ game_over (fallen 1) = false
   /\ (inject_Z (Z.max 360 (height demo_env)) < ball_y (fallen 1%Z) + 4.6 - ball_r)%Q
   /\ exists s', _tick demo_env (fallen 1) = Ok s'
                 /\ lives s' = 0 /\ game_over s' = true /\ launched s' = false)
  /\ (launched (fallen 2) = true /\ game_over (fallen 2) = false
      /\ exists s', _tick demo_env (fallen 2) = Ok s'
                    /\ lives s' = 1 /\ launched s' = false /\ game_over s' = false
                    /\ ball_x s' = (paddle_x s' + paddle_w / 2)%Q
                    /\ ball_y s' = (inject_Z (Z.max 300 (height demo_env)) - 42)%Q
                    /\ ball_vx s' = 3.8%Q /\ ball_vy s' = (-4.6)%Q).
Proof.
  intros fallen.
  assert (Hm : forall n, exists m,
             clear_level demo_env
               (hit_bricks (before_bricks demo_env (move_paddle demo_env (fallen n))))
             = Ok m
             /\ (inject_Z (Z.max 360 (height demo_env)) < ball_y m - ball_r)%Q).
  { intros n. eexists. split; [vm_compute; reflexivity|]. vm_compute. reflexivity. }
  split.
  - split; [reflexivity|]. split; [reflexivity|].
    split; [vm_compute; reflexivity|].
    destruct (Hm 1) as [m [Hm1 Hm2]].
    destruct (life_lost_at_bottom demo_env (fallen 1) m eq_refl eq_refl Hm1 Hm2)
      as [s' [Ht [H1 _]]].
    exists s'. split; [exact Ht|]. apply H1. reflexivity.
  - split; [reflexivity|]. split; [reflexivity|].
    destruct (Hm 2) as [m [Hm1 Hm2]].
    destruct (life_lost_at_bottom demo_env (fallen 2) m eq_refl eq_refl Hm1 Hm2)
      as [s' [Ht [_ H2]]].
    exists s'. split; [exact Ht|]. apply H2. simpl. lia.
Defined.

(** *** Brick collisions *)

Lemma hit_first_spec (brect : QRectF) (bs : list Brick) :
  match hit_first brect bs with
  | Some bs' =>
    exists pre b post,
      bs = pre ++ b :: post
      /\ (forall b', In b' pre -> alive b' && QRectF_intersects brect (rect b') = false)
      /\ alive b = true /\ QRectF_intersects brect (rect b) = true
      /\ bs' = pre ++ kill b :: post
  | None =>
    forall b, In b bs -> alive b && QRectF_intersects brect (rect b) = false
  end.
Proof.
  induction bs as [|b bs IH]; simpl; [intros b []|].
  destruct (alive b && QRectF_intersects brect (rect b)) eqn:Hb.
  - apply andb_true_iff in Hb. destruct Hb as [Ha Hi].
    exists [], b, bs. simpl. repeat split; try assumption. intros b' [].
  - destruct (hit_first brect bs) as [bs'|]; simpl.
    + destruct IH as (pre & b0 & post & -> & Hpre & Ha & Hi & ->).
      exists (b :: pre), b0, post. simpl. repeat split; try assumption.
      intros b' [<-|Hin]; auto.
    + intros b' [<-|Hin]; auto.
Qed.

Lemma deaths_refl (bs : list Brick) : deaths bs bs = 0%nat.
Proof.
  induction bs as [|b bs IH]; simpl; [reflexivity|].
  rewrite IH. destruct (alive b); reflexivity.
Qed.

Lemma deaths_kill (pre post : list Brick) (b : Brick) :
  alive b = true -> deaths (pre ++ b :: post) (pre ++ kill b :: post) = 1%nat.
Proof.
  intros Ha. induction pre as [|p pre IH]; simpl.
  - rewrite Ha, deaths_refl. reflexivity.
  - rewrite IH. destruct (alive p); reflexivity.
Qed.

Lemma deaths_all_alive (new : list Brick) :
  Forall (fun b => alive b = true) new ->
  forall old, deaths old new = 0%nat.
Proof.
  induction 1 as [|b new Hb _ IH]; intros [|o old]; simpl; try reflexivity.
  rewrite Hb, IH, andb_false_r. reflexivity.
Qed.

Lemma built_bricks_alive (env : Env) (s : Widget) :
  Forall (fun b => alive b = true) (bricks (_build_bricks env s)).
Proof.
  apply Forall_forall. intros b Hin.
  destruct (brick_rectangle_parts env s b Hin) as [Ha _]. exact Ha.
Qed.

Lemma fall_bottom_bricks (env : Env) (s : Widget) :
  bricks (fall_bottom env s) = bricks s.
Proof.
  unfold fall_bottom. destruct (Qltb _ _); [|reflexivity].
  cbv zeta. destruct (lives (set_lives s (lives s - 1)) <=? 0); reflexivity.
Qed.

Lemma before_bricks_frame (env : Env) (s : Widget) :
  bricks (before_bricks env (move_paddle env s)) = bricks s
  /\ score (before_bricks env (move_paddle env s)) = score s.
Proof.
  destruct (move_paddle_frame env s) as (_ & _ & _ & _ & Hb & Hsc & _).
  destruct (flight_frame env (move_paddle env s))
    as (_ & _ & _ & _ & _ & Hsc1 & _ & _ & _ & Hb1).
  split; congruence.
Qed.

(** What lines 382-388 do to the widget [m]. *)
Lemma hit_bricks_spec (m : Widget) :
  ((forall b, In b (bricks m) ->
      alive b && QRectF_intersects (_ball_rect m) (rect b) = false)
   /\ hit_bricks m = m)
  \/ exists pre b post,
       bricks m = pre ++ b :: post
       /\ (forall b', In b' pre ->
             alive b' && QRectF_intersects (_ball_rect m) (rect b') = false)
       /\ alive b = true /\ QRectF_intersects (_ball_rect m) (rect b) = true
       /\ bricks (hit_bricks m) = pre ++ kill b :: post
       /\ score (hit_bricks m) = score m + 10
       /\ ball_vy (hit_bricks m) = (ball_vy m * -1)%Q.
Proof.
  unfold hit_bricks.
  pose proof (hit_first_spec (_ball_rect m) (bricks m)) as H.
  destruct (hit_first (_ball_rect m) (bricks m)) as [bs'|].
  - right. destruct H as (pre & b & post & Hs & Hpre & Ha & Hi & ->).
    exists pre, b, post. repeat split; assumption.
  - left. split; [assumption | reflexivity].
Qed.

Lemma tick_out_of_play (env : Env) (s : Widget) :
  launched s = false \/ game_over s = true ->
  exists s', _tick env s = Ok s' /\ bricks s' = bricks s.
Proof.
  intros H.
  destruct (move_paddle_frame env s) as (_ & _ & _ & _ & Hb & _ & _ & Hg & Hl).
  unfold _tick. cbv zeta. rewrite Hg, Hl.
  destruct (game_over s) eqn:Eg.
  - rewrite andb_false_r. eexists. split; [reflexivity | exact Hb].
  - destruct H as [H|H]; [|discriminate]. rewrite H. simpl.
    eexists. split; [reflexivity|]. unfold ride_paddle. simpl. exact Hb.
Qed.

Lemma clear_level_deaths (env : Env) (old : list Brick) (s n : Widget) :
  clear_level env s = Ok n ->
  (deaths old (bricks n) <= deaths old (bricks s))%nat.
Proof.
  intros H.
  destruct (clear_level_cases env s) as [Hc | [labels Hc]];
    rewrite Hc in H; injection H as <-.
  - lia.
  - destruct (reset_frame env (_build_bricks env (set_brick_labels s labels)))
      as (_ & _ & _ & Hb).
    rewrite Hb, deaths_all_alive; [lia | apply built_bricks_alive].
Qed.

(** C3: a tick kills at most one brick.  In play, the scan of lines
    382-388 runs over the brick list in its order with the ball as the
    earlier phases left it: either no alive brick meets the ball and
    nothing changes, or the first alive brick that meets it is killed,
    the bricks before and after it are left as they are, the score
    grows by 10 and [ball_vy] changes sign. *)
Theorem one_brick_per_tick (env : Env) (s : Widget) :
  exists s',
    _tick env s = Ok s'
    /\ (deaths (bricks s) (bricks s') <= 1)%nat
    /\ (launched s = true -> game_over s = false ->
        forall m, m = before_bricks env (move_paddle env s) ->
        _tick env s = (n <- clear_level env (hit_bricks m) ;; Ok (fall_bottom env n))
        /\ (((forall b, In b (bricks s) ->
                alive b && QRectF_intersects (_ball_rect m) (rect b) = false)
             /\ hit_bricks m = m)
            \/ exists pre b post,
                 bricks s = pre ++ b :: post
                 /\ (forall b', In b' pre ->
                       alive b' && QRectF_intersects (_ball_rect m) (rect b') = false)
                 /\ alive b = true
                 /\ QRectF_intersects (_ball_rect m) (rect b) = true
                 /\ bricks (hit_bricks m) = pre ++ kill b :: post
                 /\ score (hit_bricks m) = score s + 10
                 /\ ball_vy (hit_bricks m) = (ball_vy m * -1)%Q)).
Proof.
  destruct (launched s) eqn:Hl; [destruct (game_over s) eqn:Hg|].
  - destruct (tick_out_of_play env s (or_intror Hg)) as [s' [Ht Hb]].
    exists s'. rewrite Hb, deaths_refl.
    split; [assumption|]. split; [lia | discriminate].
  - pose proof (tick_in_play env s Hl Hg) as Ht.
    destruct (before_bricks_frame env s) as [Hb Hsc].
    pose proof (hit_bricks_spec (before_bricks env (move_paddle env s))) as Hscan.
    remember (before_bricks env (move_paddle env s)) as m eqn:Hm.
    rewrite Hb, Hsc in Hscan.
    destruct (clear_level_total env (hit_bricks m)) as [n Hn].
    exists (fall_bottom env n).
    split; [rewrite Ht, Hn; reflexivity|].
    split; [|intros _ _ m' ->; split; assumption].
    rewrite fall_bottom_bricks.
    pose proof (clear_level_deaths env (bricks s) _ _ Hn) as Hle.
    destruct Hscan as [[_ Hsame] | (pre & b & post & Hs & _ & Ha & _ & Hk & _)].
    + rewrite Hsame, Hb, deaths_refl in Hle. lia.
    + rewrite Hk, Hs, (deaths_kill pre post b Ha) in Hle. rewrite Hs. exact Hle.
  - destruct (tick_out_of_play env s (or_introl Hl)) as [s' [Ht Hb]].
    exists s'. rewrite Hb, deaths_refl.
    split; [assumption|]. split; [lia | discriminate].
Qed.

(** The ball over two overlapping alive bricks: the first one goes. *)
Lemma one_brick_per_tick_witness :
  let s := set_bricks demo_widget
             [demo_brick 340 330 40 16 true; demo_brick 345 335 40 16 true;
              demo_brick 70 64 40 16 true] in
  let m := before_bricks demo_env (move_paddle demo_env s) in
  launched s = true /\ game_over s = false
  /\ exists s',
       _tick demo_env s = Ok s'
       /\ (deaths (bricks s) (bricks s') <= 1)%nat
       /\ map alive (bricks s') = [false; true; true]
       /\ score s' = 10
       /\ _tick demo_env s
          = (n <- clear_level demo_env (hit_bricks m) ;; Ok (fall_bottom demo_env n))
       /\ exists pre b post,
            bricks s = pre ++ b :: post
            /\ bricks (hit_bricks m) = pre ++ kill b :: post
            /\ score (hit_bricks m) = score s + 10
            /\ ball_vy (hit_bricks m) = (ball_vy m * -1)%Q.
Proof.
  intros s m. split; [reflexivity|]. split; [reflexivity|].
  destruct (one_brick_per_tick demo_env s) as (s' & Ht & Hd & Hplay).
  destruct (Hplay eq_refl eq_refl m eq_refl) as [Hseq Hscan].
  assert (Hex : exists pre b post,
            bricks s = pre ++ b :: post
            /\ bricks (hit_bricks m) = pre ++ kill b :: post
            /\ score (hit_bricks m) = score s + 10
            /\ ball_vy (hit_bricks m) = (ball_vy m * -1)%Q).
  { destruct Hscan as [[Hnone _] | (pre & b & post & Hsplit & _ & _ & _ & Hk & Hsc & Hvy)].
    - specialize (Hnone (demo_brick 340 330 40 16 true) (or_introl eq_refl)).
      vm_compute in Hnone. discriminate.
    - exists pre, b, post. exact (conj Hsplit (conj Hk (conj Hsc Hvy))). }
  exists s'. split; [exact Ht|]. split; [exact Hd|].
  assert (Hs : exists t, _tick demo_env s = Ok t
                         /\ map alive (bricks t) = [false; true; true]
                         /\ score t = 10).
  { eexists. split; [vm_compute; reflexivity|]. split; vm_compute; reflexivity. }
  destruct Hs as (t & Hs & Hres1 & Hres2).
  assert (E : s' = t) by congruence.
  split; [rewrite E; exact Hres1|]. split; [rewrite E; exact Hres2|].
  split; [exact Hseq | exact Hex].
Defined.

(** *** Rotation as a cut of the list *)

Lemma nth_cut {A : Type} (l : list A) (a i : nat) (d : A) :
  (a < List.length l)%nat -> (i < List.length l)%nat ->
  nth i (skipn a l ++ firstn a l) d
  = nth (Z.to_nat ((Z.of_nat a + Z.of_nat i) mod len l)) l d.
Proof.
  intros Ha Hi. unfold len.
  destruct (Nat.lt_ge_cases i (List.length l - a)) as [Hlt|Hge].
  - rewrite app_nth1 by (rewrite length_skipn; lia).
    rewrite nth_skipn. rewrite Z.mod_small by lia.
    f_equal. lia.
  - rewrite app_nth2 by (rewrite length_skipn; lia).
    rewrite length_skipn.
    rewrite nth_firstn.
    destruct (Nat.ltb_spec (i - (List.length l - a)) a); [|lia].
    f_equal.
    replace (Z.of_nat a + Z.of_nat i)
      with (Z.of_nat (i - (List.length l - a)) + 1 * Z.of_nat (List.length l)) by lia.
    rewrite Z.mod_add by lia. rewrite Z.mod_small by lia. lia.
Qed.

Lemma rotate_cut_nonempty {A : Type} (items : list A) (a : nat) (limit : Z) (d : A) :
  (a < List.length items)%nat ->
  map (fun i => nth (Z.to_nat ((Z.of_nat a + i) mod len items)) items d)
      (range (Z.min limit (len items)))
  = firstn (Z.to_nat limit) (skipn a items ++ firstn a items).
Proof.
  intros Ha.
  assert (Hlen : List.length (skipn a items ++ firstn a items) = List.length items).
  { rewrite length_app, length_skipn, length_firstn. lia. }
  apply (nth_ext _ _ d d).
  - rewrite length_map, range_length, length_firstn, Hlen. unfold len. lia.
  - intros n Hn. rewrite length_map, range_length in Hn. unfold len in Hn.
    rewrite (nth_indep _ d (nth (Z.to_nat ((Z.of_nat a + 0) mod len items)) items d))
      by (rewrite length_map, range_length; unfold len; lia).
    rewrite (map_nth (fun i => nth (Z.to_nat ((Z.of_nat a + i) mod len items)) items d)
               (range (Z.min limit (len items))) 0 n).
    assert (Hr : nth n (range (Z.min limit (len items))) 0 = Z.of_nat n).
    { apply nth_error_nth. apply range_nth_error. unfold len. lia. }
    rewrite Hr. rewrite nth_firstn.
    destruct (Nat.ltb_spec n (Z.to_nat limit)); [|lia].
    symmetry. apply nth_cut; lia.
Qed.

Lemma rotate_cut {A : Type} (items : list A) (anchor_idx limit : Z) :
  _rotate_items_from_anchor items anchor_idx limit
  = Ok (firstn (Z.to_nat limit)
          (skipn (Z.to_nat (if (0 <=? anchor_idx) && (anchor_idx <? len items)
                            then anchor_idx else 0)) items
           ++ firstn (Z.to_nat (if (0 <=? anchor_idx) && (anchor_idx <? len items)
                                then anchor_idx else 0)) items)).
Proof.
  destruct items as [|d xs].
  { simpl. rewrite skipn_nil, firstn_nil. simpl. now rewrite firstn_nil. }
  remember (d :: xs) as items eqn:E.
  assert (Hne : items <> []) by (subst; discriminate).
  pose proof (len_pos items Hne) as HL.
  rewrite (rotate_unfold items anchor_idx limit d Hne).
  set (a := if (0 <=? anchor_idx) && (anchor_idx <? len items) then anchor_idx else 0).
  assert (Ha : 0 <= a < len items).
  { subst a. destruct (Z.leb_spec 0 anchor_idx), (Z.ltb_spec anchor_idx (len items));
      simpl; lia. }
  f_equal.
  rewrite <- (rotate_cut_nonempty items (Z.to_nat a) limit d) by (unfold len in Ha; lia).
  rewrite Z2Nat.id by lia. reflexivity.
Qed.

(** X1: the rotation is the list cut at the anchor, the two parts
    swapped, and truncated to [limit] entries; when [limit] is at least
    the length, no entry is lost or repeated. *)
Theorem rotate_is_cut_and_swap {A : Type} (items : list A) (anchor_idx limit : Z) :
  _rotate_items_from_anchor items anchor_idx limit
  = Ok (firstn (Z.to_nat limit)
          (skipn (Z.to_nat (if (0 <=? anchor_idx) && (anchor_idx <? len items)
                            then anchor_idx else 0)) items
           ++ firstn (Z.to_nat (if (0 <=? anchor_idx) && (anchor_idx <? len items)
                                then anchor_idx else 0)) items))
  /\ (len items <= limit ->
      exists out,
        _rotate_items_from_anchor items anchor_idx limit = Ok out
        /\ Permutation out items).
Proof.
  split; [apply rotate_cut|].
  intros Hl. eexists. split; [apply rotate_cut|].
  rewrite firstn_all2.
  - rewrite Permutation_app_comm. rewrite firstn_skipn. apply Permutation_refl.
  - rewrite length_app, length_skipn, length_firstn. unfold len in Hl. lia.
Qed.

Lemma rotate_full_length {A : Type} (items : list A) (a limit : Z) (d : A) :
  items <> [] -> len items <= limit ->
  List.length
    (map (fun i => nth (Z.to_nat ((a + i) mod len items)) items d)
         (range (Z.min limit (len items))))
  = List.length items.
Proof.
  intros Hne Hl. rewrite length_map, range_length. unfold len in *. lia.
Qed.

(** X2: two rotations in a row are one rotation: rotating a whole
    sequence from [a] and the result from [b] is rotating the sequence
    from [(a + b) mod L]. *)
Theorem rotate_twice {A : Type} (items : list A) (a b limit1 limit2 : Z) :
  items <> [] ->
  0 <= a < len items -> 0 <= b < len items -> len items <= limit1 ->
  exists once,
    _rotate_items_from_anchor items a limit1 = Ok once
    /\ _rotate_items_from_anchor once b limit2
       = _rotate_items_from_anchor items ((a + b) mod len items) limit2.
Proof.
  intros Hne Ha Hb Hl.
  assert (d : A) by (destruct items as [|d ?]; [congruence | exact d]).
  pose proof (len_pos items Hne) as HL.
  eexists. split; [apply (rotate_unfold items a limit1 d Hne)|].
  destruct (Z.leb_spec 0 a), (Z.ltb_spec a (len items)); try lia. simpl.
  set (once := map (fun i => nth (Z.to_nat ((a + i) mod len items)) items d)
                   (range (Z.min limit1 (len items)))).
  assert (Hlen : len once = len items).
  { unfold len at 1. unfold once. rewrite rotate_full_length by assumption.
    reflexivity. }
  assert (Hne1 : once <> []).
  { intros E. rewrite E in Hlen. unfold len in Hlen, HL. simpl in Hlen. lia. }
  rewrite (rotate_unfold once b limit2 d Hne1).
  rewrite (rotate_unfold items ((a + b) mod len items) limit2 d Hne).
  rewrite Hlen.
  pose proof (Z.mod_pos_bound (a + b) (len items) HL) as Hab.
  destruct (Z.leb_spec 0 b), (Z.ltb_spec b (len items)); try lia.
  destruct (Z.leb_spec 0 ((a + b) mod len items)),
    (Z.ltb_spec ((a + b) mod len items) (len items)); try lia. simpl.
  f_equal. apply map_ext. intros i.
  pose proof (Z.mod_pos_bound (b + i) (len items) HL) as Hbi.
  assert (Hnth : nth (Z.to_nat ((b + i) mod len items)) once d
                 = nth (Z.to_nat ((a + (b + i) mod len items) mod len items)) items d).
  { unfold once.
    rewrite (nth_indep _ d (nth (Z.to_nat ((a + 0) mod len items)) items d))
      by (rewrite rotate_full_length by assumption; unfold len in Hbi |- *; lia).
    rewrite (map_nth (fun i => nth (Z.to_nat ((a + i) mod len items)) items d)
               (range (Z.min limit1 (len items))) 0 _).
    assert (Hr : nth (Z.to_nat ((b + i) mod len items))
                     (range (Z.min limit1 (len items))) 0
                 = (b + i) mod len items).
    { rewrite <- (Z2Nat.id ((b + i) mod len items)) at 2 by lia.
      apply nth_error_nth. apply range_nth_error. lia. }
    rewrite Hr. reflexivity. }
  rewrite Hnth. do 2 f_equal.
  rewrite Zplus_mod_idemp_r, Zplus_mod_idemp_l. f_equal. lia.
Qed.

Lemma rotate_twice_witness :
  [1; 2; 3; 4; 5] <> [] /\ 0 <= 3 < len [1; 2; 3; 4; 5]
  /\ 0 <= 4 < len [1; 2; 3; 4; 5] /\ len [1; 2; 3; 4; 5] <= 56
  /\ exists once,
       _rotate_items_from_anchor [1; 2; 3; 4; 5] 3 56 = Ok once
       /\ _rotate_items_from_anchor once 4 2
          = _rotate_items_from_anchor [1; 2; 3; 4; 5] ((3 + 4) mod len [1; 2; 3; 4; 5]) 2.
Proof.
  assert (H1 : [1; 2; 3; 4; 5] <> []) by discriminate.
  assert (H2 : 0 <= 3 < len [1; 2; 3; 4; 5]) by (unfold len; simpl; lia).
  assert (H3 : 0 <= 4 < len [1; 2; 3; 4; 5]) by (unfold len; simpl; lia).
  assert (H4 : len [1; 2; 3; 4; 5] <= 56) by (unfold len; simpl; lia).
  repeat (split; [assumption|]).
  exact (rotate_twice [1; 2; 3; 4; 5] 3 4 56 2 H1 H2 H3 H4).
Defined.

(** *** [strip] *)

Lemma truthy_false_early (t : string) : truthy t = false -> t = EmptyString.
Proof. destruct t; simpl; congruence. Qed.

Lemma lstrip_spec (s : string) :
  exists l, s = (l ++ lstrip s)%string /\ all_chars is_space l = true.
Proof.
  induction s as [|c s [l [Hs Hl]]]; simpl.
  - exists EmptyString. auto.
  - destruct (is_space c) eqn:Hc.
    + exists (String c l). simpl. rewrite Hc, Hl, <- Hs. auto.
    + exists EmptyString. auto.
Qed.

Lemma lstrip_head (s : string) :
  match lstrip s with
  | EmptyString => True
  | String c _ => is_space c = false
  end.
Proof.
  induction s as [|c s IH]; simpl; [exact I|].
  destruct (is_space c) eqn:Hc; [exact IH | simpl; exact Hc].
Qed.

Lemma rstrip_spec (s : string) :
  exists r, s = (rstrip s ++ r)%string /\ all_chars is_space r = true.
Proof.
  induction s as [|c s [r [Hs Hr]]]; simpl.
  - exists EmptyString. auto.
  - destruct (rstrip s) as [|c' s'] eqn:E; simpl in Hs.
    + subst r. destruct (is_space c) eqn:Hc.
      * exists (String c s). simpl. rewrite Hc, Hr. auto.
      * exists s. simpl. auto.
    + exists r. simpl. rewrite <- Hs. auto.
Qed.

Lemma rstrip_last (s t : string) (c : ascii) :
  rstrip s = (t ++ String c EmptyString)%string -> is_space c = false.
Proof.
  revert t. induction s as [|a s IH]; intros t; simpl.
  - destruct t; discriminate.
  - destruct (rstrip s) as [|c' s'] eqn:E.
    + destruct (is_space a) eqn:Ha.
      * destruct t; discriminate.
      * destruct t as [|b t]; simpl; intros H; inversion H; subst.
        -- assumption.
        -- destruct t; discriminate.
    + destruct t as [|b t]; simpl; intros H; inversion H; subst.
      apply (IH t). assumption.
Qed.

Lemma rstrip_head (c : ascii) (s : string) :
  is_space c = false -> exists s', rstrip (String c s) = String c s'.
Proof.
  intros Hc. simpl. destruct (rstrip s); rewrite ?Hc; eexists; reflexivity.
Qed.

Lemma all_chars_app (cls : ascii -> bool) (s t : string) :
  all_chars cls (s ++ t) = all_chars cls s && all_chars cls t.
Proof.
  induction s as [|c s IH]; simpl; [reflexivity|].
  rewrite IH. apply andb_assoc.
Qed.

(** [strip] leaves nothing exactly when the string is all whitespace. *)
Lemma strip_truthy (s : string) :
  truthy (strip s) = negb (all_chars is_space s).
Proof.
  unfold strip.
  destruct (lstrip_spec s) as [l [Hs Hl]].
  pose proof (lstrip_head s) as Hh.
  rewrite Hs at 2. rewrite all_chars_app, Hl. simpl.
  destruct (lstrip s) as [|c t]; [reflexivity|].
  destruct (rstrip_head c t Hh) as [s' ->]. simpl. now rewrite Hh.
Qed.

Lemma strip_spec (s : string) :
  (exists l r,
     s = (l ++ strip s ++ r)%string
     /\ all_chars is_space l = true /\ all_chars is_space r = true)
  /\ match strip s with
     | EmptyString => True
     | String c _ => is_space c = false
     end
  /\ (forall t c, strip s = (t ++ String c EmptyString)%string -> is_space c = false)
  /\ truthy (strip s) = negb (all_chars is_space s).
Proof.
  split; [|split; [|split]].
  - unfold strip.
    destruct (lstrip_spec s) as [l [Hs Hl]].
    destruct (rstrip_spec (lstrip s)) as [r [Hr Hrs]].
    exists l, r. rewrite <- Hr. auto.
  - unfold strip. pose proof (lstrip_head s) as Hh.
    destruct (lstrip s) as [|c t]; [exact I|].
    destruct (rstrip_head c t Hh) as [s' ->]. exact Hh.
  - unfold strip. intros t c. apply rstrip_last.
  - apply strip_truthy.
Qed.

(** X3: a cleaned line is the untagged line without the whitespace at
    its two ends, and nothing else is removed: the untagged text is a
    whitespace prefix, the cleaned line and a whitespace suffix; the
    cleaned line neither starts nor ends with whitespace; it is empty
    (and the line dropped by the collectors) exactly when the untagged
    text is all whitespace.  A line that is [None] cleans like the
    empty line. *)
Theorem cleaned_line_has_no_outer_whitespace (tag_remove : string -> string)
    (line : string) :
  (exists l r,
     tag_remove line = (l ++ _clean_ida_line tag_remove (Some line) ++ r)%string
     /\ all_chars is_space l = true /\ all_chars is_space r = true)
  /\ match _clean_ida_line tag_remove (Some line) with
     | EmptyString => True
     | String c _ => is_space c = false
     end
  /\ (forall t c,
        _clean_ida_line tag_remove (Some line) = (t ++ String c EmptyString)%string ->
        is_space c = false)
  /\ (_clean_ida_line tag_remove (Some line) = EmptyString
      <-> all_chars is_space (tag_remove line) = true)
  /\ _clean_ida_line tag_remove None = _clean_ida_line tag_remove (Some EmptyString).
Proof.
  unfold _clean_ida_line.
  destruct (strip_spec (tag_remove line)) as (H1 & H2 & H3 & H4).
  repeat split; try assumption.
  - intros E. rewrite E in H4. simpl in H4. symmetry in H4.
    now apply negb_false_iff in H4.
  - intros E. rewrite E in H4. simpl in H4. now apply truthy_false_early.
Qed.

(** *** Tokens *)

Lemma take_while_all (cls : ascii -> bool) (s : string) :
  all_chars cls s = true -> take_while cls s = (s, EmptyString).
Proof.
  induction s as [|c s IH]; simpl; [reflexivity|].
  intros H. apply andb_true_iff in H. destruct H as [Hc Hs].
  rewrite Hc, (IH Hs). reflexivity.
Qed.

Lemma findall_run (t : string) : is_run t -> findall t = [t].
Proof.
  intros [Hne Hcls]. destruct t as [|c t']; [congruence|].
  destruct (findall_String c t') as [_ Hf]. rewrite Hf. clear Hf.
  assert (Hall : all_chars (if is_space c then is_space else is_nonspace) t' = true).
  { simpl in Hcls. unfold is_nonspace in Hcls at 1.
    destruct (is_space c); simpl in Hcls; destruct Hcls as [H|H];
      try discriminate; exact H. }
  rewrite (take_while_all _ _ Hall). simpl. simp findall. reflexivity.
Qed.

Lemma findall_tokens_are_runs (s : string) : Forall is_run (findall s).
Proof.
  remember (String.length s) as n eqn:Hn.
  revert s Hn. induction n as [n IH] using lt_wf_ind. intros s Hn.
  destruct s as [|c s']; [simp findall; constructor|].
  destruct (findall_String c s') as [Hc Hf]. rewrite Hf. clear Hf.
  destruct (take_while_spec (if is_space c then is_space else is_nonspace) s')
    as [_ [Hall _]].
  pose proof (take_while_rest_length
                (if is_space c then is_space else is_nonspace) s') as Hlen.
  constructor.
  - split; [discriminate|]. simpl.
    destruct (is_space c) eqn:Hs.
    + right. now rewrite Hall.
    + left. now rewrite Hc, Hall.
  - apply (IH (String.length
                 (snd (take_while (if is_space c then is_space else is_nonspace) s')))).
    + subst n. simpl. lia.
    + reflexivity.
Qed.

(** A run is shown as a brick exactly when it is not whitespace. *)
Lemma run_visible (t : string) :
  is_run t -> truthy (strip t) = all_chars is_nonspace t.
Proof.
  intros [Hne Hcls]. rewrite strip_truthy.
  destruct t as [|c t']; [congruence|].
  destruct Hcls as [H|H]; rewrite H.
  - simpl in *. unfold is_nonspace in H at 1.
    destruct (is_space c); simpl in *; [discriminate | reflexivity].
  - simpl in *. unfold is_nonspace at 1.
    destruct (is_space c); simpl in *; [reflexivity | discriminate].
Qed.

(** X4: every token is a fixed point of the tokenizer: cutting a token
    again gives that token alone, so tokenizing the tokens of a line
    gives the tokens of the line. *)
Theorem retokenizing_changes_nothing (s : string) :
  Forall (fun t => findall t = [t]) (findall s)
  /\ flat_map findall (findall s) = findall s.
Proof.
  pose proof (findall_tokens_are_runs s) as Hruns.
  assert (H : Forall (fun t => findall t = [t]) (findall s)).
  { eapply Forall_impl; [|exact Hruns]. intros t. apply findall_run. }
  split; [exact H|]. clear Hruns.
  induction H as [|t ts Ht _ IH]; simpl; [reflexivity|].
  rewrite Ht, IH. reflexivity.
Qed.

(** *** Collecting the lines *)

Lemma enumerate_from_nth_error {A : Type} (xs : list A) :
  forall (a k : nat),
  nth_error (combine (map Z.of_nat (seq a (List.length xs))) xs) k
  = option_map (pair (Z.of_nat (a + k))) (nth_error xs k).
Proof.
  induction xs as [|x xs IH]; intros a k; simpl.
  - destruct k; reflexivity.
  - destruct k as [|k]; simpl.
    + rewrite Nat.add_0_r. reflexivity.
    + rewrite IH. do 2 f_equal. lia.
Qed.

Lemma enumerate_nth_error {A : Type} (xs : list A) (k : nat) :
  nth_error (enumerate xs) k = option_map (pair (Z.of_nat k)) (nth_error xs k).
Proof.
  unfold enumerate, range, len. rewrite Nat2Z.id.
  apply (enumerate_from_nth_error xs 0 k).
Qed.

(** The index the search loop leaves: that of the first element that
    satisfies [p], and 0 when there is none. *)
Lemma first_index_spec {A : Type} (p : A -> bool) (xs : list A) :
  0 <= first_index_or_0 p xs
  /\ (xs <> [] -> first_index_or_0 p xs < len xs)
  /\ ((exists x,
         nth_error xs (Z.to_nat (first_index_or_0 p xs)) = Some x /\ p x = true
         /\ forall j y, (j < Z.to_nat (first_index_or_0 p xs))%nat ->
              nth_error xs j = Some y -> p y = false)
      \/ (first_index_or_0 p xs = 0 /\ forall y, In y xs -> p y = false)).
Proof.
  unfold first_index_or_0.
  pose proof (find_first (fun '(_, x) => p x) (enumerate xs)) as H.
  destruct (find _ (enumerate xs)) as [[i x]|].
  - destruct H as (pre & post & Hsplit & Hx & Hpre).
    assert (Hn : nth_error (enumerate xs) (List.length pre) = Some (i, x)).
    { rewrite Hsplit, nth_error_app2 by lia. now rewrite Nat.sub_diag. }
    rewrite enumerate_nth_error in Hn.
    destruct (nth_error xs (List.length pre)) as [x'|] eqn:Ex; [|discriminate].
    simpl in Hn. inversion Hn; subst i x'. clear Hn.
    assert (Hlt : (List.length pre < List.length xs)%nat).
    { apply nth_error_Some. congruence. }
    split; [lia|]. split; [unfold len; lia|].
    left. exists x. rewrite Nat2Z.id. repeat split; try assumption.
    intros j y Hj Hy.
    assert (Hin : In (Z.of_nat j, y) pre).
    { apply (nth_error_In pre j).
      rewrite <- (nth_error_app1 pre ((Z.of_nat (List.length pre), x) :: post)) by assumption.
      rewrite <- Hsplit, enumerate_nth_error, Hy. reflexivity. }
    apply (Hpre _ Hin).
  - split; [lia|]. split.
    + intros Hne. apply len_pos. assumption.
    + right. split; [reflexivity|]. intros y Hy.
      apply In_nth_error in Hy. destruct Hy as [k Hk].
      apply (H (Z.of_nat k, y)).
      apply (nth_error_In _ k). rewrite enumerate_nth_error, Hk. reflexivity.
Qed.

(** The numbered lines, listed from raw index [a] on. *)
Lemma numbered_from_In (tag_remove : string -> string) (raw : list (option string))
    (ln ri : Z) (line : string) :
  forall a : nat,
  In (ln, line, ri)
     (flat_map (fun '(raw_idx, l) =>
                  let line := _clean_ida_line tag_remove l in
                  if truthy line then [(raw_idx + 1, line, raw_idx)] else [])
               (combine (map Z.of_nat (seq a (List.length raw))) raw))
  <-> (ln = ri + 1 /\ Z.of_nat a <= ri /\ truthy line = true
       /\ exists l, nth_error raw (Z.to_nat ri - a) = Some l
                    /\ line = _clean_ida_line tag_remove l).
Proof.
  induction raw as [|l0 raw IH]; intros a; simpl.
  - split; [intros [] | intros (_ & _ & _ & l & Hl & _)].
    destruct (Z.to_nat ri - a)%nat; discriminate.
  - rewrite in_app_iff, IH. split.
    + intros [H|H].
      * destruct (truthy (_clean_ida_line tag_remove l0)) eqn:Ht; [|destruct H].
        destruct H as [H|[]]. inversion H; subst.
        repeat split; try lia; try assumption.
        exists l0. rewrite Nat2Z.id, Nat.sub_diag. auto.
      * destruct H as (-> & Ha & Ht & l & Hl & ->).
        repeat split; try lia; try assumption.
        exists l. split; [|reflexivity].
        replace (Z.to_nat ri - a)%nat with (S (Z.to_nat ri - S a)) by lia.
        exact Hl.
    + intros (-> & Ha & Ht & l & Hl & ->).
      destruct (Z.eq_dec ri (Z.of_nat a)) as [E|E].
      * left. subst ri. rewrite Nat2Z.id, Nat.sub_diag in Hl. simpl in Hl.
        inversion Hl; subst l0. rewrite Ht. left. reflexivity.
      * right. repeat split; try lia; try assumption.
        exists l. split; [|reflexivity].
        replace (Z.to_nat ri - a)%nat with (S (Z.to_nat ri - S a)) in Hl by lia.
        exact Hl.
Qed.

Lemma numbered_from_sorted (tag_remove : string -> string) (raw : list (option string)) :
  forall a : nat,
  StronglySorted (fun x y : Z * string * Z => snd x < snd y)
    (flat_map (fun '(raw_idx, l) =>
                 let line := _clean_ida_line tag_remove l in
                 if truthy line then [(raw_idx + 1, line, raw_idx)] else [])
              (combine (map Z.of_nat (seq a (List.length raw))) raw)).
Proof.
  induction raw as [|l0 raw IH]; intros a; simpl; [constructor|].
  destruct (truthy (_clean_ida_line tag_remove l0)); simpl; [|apply IH].
  constructor; [apply IH|].
  apply Forall_forall. intros [[ln line] ri] Hin.
  apply numbered_from_In in Hin. simpl. lia.
Qed.

Lemma numbered_lines_In (tag_remove : string -> string) (raw : list (option string))
    (ln ri : Z) (line : string) :
  In (ln, line, ri) (numbered_lines tag_remove raw)
  <-> (ln = ri + 1 /\ 0 <= ri /\ truthy line = true
       /\ exists l, nth_error raw (Z.to_nat ri) = Some l
                    /\ line = _clean_ida_line tag_remove l).
Proof.
  unfold numbered_lines, enumerate, range, len. rewrite Nat2Z.id.
  rewrite (numbered_from_In tag_remove raw ln ri line 0).
  rewrite Nat.sub_0_r. reflexivity.
Qed.

Lemma numbered_lines_sorted (tag_remove : string -> string) (raw : list (option string)) :
  StronglySorted (fun x y : Z * string * Z => snd x < snd y)
    (numbered_lines tag_remove raw).
Proof.
  unfold numbered_lines, enumerate, range, len. rewrite Nat2Z.id.
  apply numbered_from_sorted.
Qed.

Lemma anchored_in_range (lines : list (Z * string * Z)) (anchor_raw : Z) :
  anchor_in_range (anchored lines anchor_raw).
Proof.
  unfold anchor_in_range, anchored.
  destruct lines as [|x lines]; [left; auto|]. right.
  cbn [is_empty fst snd].
  destruct (first_index_spec (fun '(_, _, raw_idx) => raw_idx >=? anchor_raw)
              (x :: lines)) as (H0 & H1 & _).
  specialize (H1 ltac:(discriminate)).
  unfold len in *. rewrite length_map. lia.
Qed.

Lemma collectors_anchor_in_range (tag_remove : string -> string)
    (hexrays : Hexrays) (lnnum : option Z)
    (func : option (list (Z * option string))) (ea : Z) :
  anchor_in_range (_collect_decompiler_lines tag_remove hexrays lnnum)
  /\ anchor_in_range (_collect_disasm_lines tag_remove func ea).
Proof.
  split.
  - destruct hexrays; simpl; try (left; split; reflexivity).
    apply anchored_in_range.
  - destruct func as [items|]; simpl; [|left; split; reflexivity].
    destruct (is_empty items); [left; split; reflexivity|].
    apply anchored_in_range.
Qed.

(** X5: the anchor a collector returns is always usable: either there
    are no lines and the anchor is 0, or the anchor is an index into
    the lines, so the rotation never has to replace it; every failure
    of the decompiler gives no lines. *)
Theorem collectors_return_an_index (tag_remove : string -> string)
    (hexrays : Hexrays) (lnnum : option Z)
    (func : option (list (Z * option string))) (ea : Z) :
  anchor_in_range (_collect_decompiler_lines tag_remove hexrays lnnum)
  /\ anchor_in_range (_collect_disasm_lines tag_remove func ea)
  /\ _collect_decompiler_lines tag_remove HexraysMissing lnnum = ([], 0)
  /\ _collect_decompiler_lines tag_remove HexraysInitFails lnnum = ([], 0)
  /\ _collect_decompiler_lines tag_remove HexraysRaises lnnum = ([], 0)
  /\ _collect_decompiler_lines tag_remove HexraysNoCfunc lnnum = ([], 0)
  /\ _collect_disasm_lines tag_remove None ea = ([], 0).
Proof.
  destruct (collectors_anchor_in_range tag_remove hexrays lnnum func ea) as [H1 H2].
  repeat split; assumption.
Qed.

Lemma truthy_nonempty (t : string) : truthy t = true <-> t <> EmptyString.
Proof. destruct t; simpl; split; congruence. Qed.

Lemma StronglySorted_map {A B : Type} (R : A -> A -> Prop) (R' : B -> B -> Prop)
    (g : A -> B) (l : list A) :
  (forall x y, R x y -> R' (g x) (g y)) ->
  StronglySorted R l -> StronglySorted R' (map g l).
Proof.
  intros Hg. induction 1 as [|x l Hs IH Hx]; simpl; constructor; [assumption|].
  apply Forall_map. eapply Forall_impl; [|exact Hx]. intros y. apply Hg.
Qed.

Lemma anchored_lines (tag_remove : string -> string) (raw : list (option string))
    (anchor_raw : Z) :
  lines_of_raw tag_remove raw
    (fst (anchored (numbered_lines tag_remove raw) anchor_raw)).
Proof.
  assert (Hfst : fst (anchored (numbered_lines tag_remove raw) anchor_raw)
                 = map (fun '(line_no, text, _) => (line_no, text))
                       (numbered_lines tag_remove raw)).
  { unfold anchored. destruct (numbered_lines tag_remove raw); reflexivity. }
  rewrite Hfst. split.
  - intros ln text. rewrite in_map_iff. split.
    + intros [[[ln' text'] ri] [Heq Hin]]. inversion Heq; subst ln' text'.
      apply numbered_lines_In in Hin.
      destruct Hin as (-> & Hri & Ht & l & Hl & Hc).
      split; [lia|]. split; [now apply truthy_nonempty|].
      exists l. split; [|assumption].
      replace (ri + 1 - 1) with ri by lia. assumption.
    + intros (Hln & Ht & l & Hl & Hc).
      exists (ln, text, ln - 1). split; [reflexivity|].
      apply numbered_lines_In.
      split; [lia|]. split; [lia|]. split; [now apply truthy_nonempty|].
      exists l. auto.
  - rewrite map_map.
    pose proof (numbered_lines_sorted tag_remove raw) as Hs.
    assert (Hall : Forall (fun x : Z * string * Z => fst (fst x) = snd x + 1)
                          (numbered_lines tag_remove raw)).
    { apply Forall_forall. intros [[ln t] ri] Hin.
      apply numbered_lines_In in Hin. simpl. tauto. }
    clear Hfst. revert Hall.
    induction Hs as [|x l Hs IH Hx]; intros Hall; simpl; constructor.
    + apply IH. now inversion Hall.
    + inversion Hall as [|? ? Hx1 Hl1]; subst.
      apply Forall_map. rewrite Forall_forall in *.
      intros y Hy. specialize (Hx y Hy). specialize (Hl1 y Hy).
      destruct x as [[? ?] ?], y as [[? ?] ?]. simpl in *. lia.
Qed.

(** X6: what the collectors keep.  A line is in the answer exactly
    when its cleaned text is not empty; it carries that text and its
    position in the listing counted from 1; the answer is in the order
    of the listing (line numbers strictly increase). *)
Theorem collectors_keep_the_nonblank_lines (tag_remove : string -> string)
    (slines : list (option string)) (lnnum : option Z)
    (items : list (Z * option string)) (ea : Z) :
  lines_of_raw tag_remove slines
    (fst (_collect_decompiler_lines tag_remove (Pseudocode slines) lnnum))
  /\ lines_of_raw tag_remove (map snd items)
       (fst (_collect_disasm_lines tag_remove (Some items) ea)).
Proof.
  split; [apply anchored_lines|].
  simpl. destruct items as [|it items]; [|apply anchored_lines].
  simpl. split; [|constructor].
  intros ln text. split; [intros []|].
  intros (_ & _ & l & Hl & _). destruct (Z.to_nat (ln - 1)); discriminate.
Qed.

Lemma anchored_first (lines : list (Z * string * Z)) (anchor_raw : Z) :
  Forall (fun x : Z * string * Z => fst (fst x) = snd x + 1) lines ->
  anchor_is_first_from (anchored lines anchor_raw) anchor_raw.
Proof.
  intros Hall. unfold anchor_is_first_from, anchored.
  destruct (is_empty lines) eqn:E.
  { right. simpl. split; [reflexivity | intros ? ? []]. }
  cbn [fst snd].
  destruct (first_index_spec (fun '(_, _, raw_idx) => raw_idx >=? anchor_raw) lines)
    as (H0 & _ & [(x & Hx & Hp & Hbefore) | (Hz & Hnone)]).
  - left. destruct x as [[ln text] ri]. exists ln, text.
    rewrite nth_error_map, Hx. split; [reflexivity|].
    rewrite Forall_forall in Hall.
    pose proof (Hall _ (nth_error_In _ _ Hx)) as Hln. simpl in Hln.
    split; [apply Z.geb_le in Hp; lia|].
    intros j ln' text' Hj Hnth. rewrite nth_error_map in Hnth.
    destruct (nth_error lines j) as [[[ln1 t1] ri1]|] eqn:Ej; [|discriminate].
    simpl in Hnth. inversion Hnth; subst ln1 t1.
    pose proof (Hbefore j _ Hj Ej) as Hf. simpl in Hf.
    pose proof (Hall _ (nth_error_In _ _ Ej)) as Hl1. simpl in Hl1.
    destruct (Z.geb_spec ri1 anchor_raw); [discriminate | lia].
  - right. split; [assumption|].
    intros ln text Hin. apply in_map_iff in Hin.
    destruct Hin as [[[ln1 t1] ri1] [Heq Hin]]. inversion Heq; subst ln1 t1.
    pose proof (Hnone _ Hin) as Hf. simpl in Hf.
    rewrite Forall_forall in Hall. pose proof (Hall _ Hin) as Hl1. simpl in Hl1.
    destruct (Z.geb_spec ri1 anchor_raw); [discriminate | lia].
Qed.

Lemma numbered_lines_line_no (tag_remove : string -> string) (raw : list (option string)) :
  Forall (fun x : Z * string * Z => fst (fst x) = snd x + 1)
         (numbered_lines tag_remove raw).
Proof.
  apply Forall_forall. intros [[ln t] ri] Hin.
  apply numbered_lines_In in Hin. simpl. tauto.
Qed.

(** X7: where the game starts reading.  The anchor of the decompiler's
    answer is the first kept line at or after the cursor's line of the
    pseudocode (0 when the cursor is unknown or negative); the anchor
    of the disassembly's answer is the first kept line at or after the
    first instruction whose address is at least [ea]; when no kept line
    is that far down the anchor is 0. *)
Theorem anchor_is_the_first_line_from_the_cursor (tag_remove : string -> string)
    (slines : list (option string)) (lnnum : option Z)
    (items : list (Z * option string)) (ea : Z) :
  anchor_is_first_from
    (_collect_decompiler_lines tag_remove (Pseudocode slines) lnnum)
    (match lnnum with Some n => Z.max 0 n | None => 0 end)
  /\ anchor_is_first_from
       (_collect_disasm_lines tag_remove (Some items) ea)
       (first_index_or_0 (fun iea => iea >=? ea) (map fst items)).
Proof.
  split.
  - simpl.
    replace (match lnnum with Some n => Z.max 0 n | None => 0 end)
      with (_get_hexrays_anchor_raw_idx lnnum).
    + apply anchored_first, numbered_lines_line_no.
    + unfold _get_hexrays_anchor_raw_idx. destruct lnnum as [n|]; [|reflexivity].
      destruct (Z.geb_spec n 0); lia.
  - simpl. destruct items as [|it items].
    + right. simpl. split; [reflexivity | intros ? ? []].
    + apply anchored_first, numbered_lines_line_no.
Qed.

(** *** From the collectors to the labels *)

Lemma is_empty_true {A : Type} (xs : list A) : is_empty xs = true <-> xs = [].
Proof. destruct xs; simpl; split; congruence. Qed.

Lemma is_empty_false {A : Type} (xs : list A) : is_empty xs = false <-> xs <> [].
Proof. destruct xs; simpl; split; congruence. Qed.

(** The lines and the anchor line 167 rotates: the decompiler's, else
    the disassembly's, else the placeholder with the anchor of the
    disassembly. *)
Lemma extract_sources (env : Env) (max_tokens : Z) :
  exists lines anchor,
    _extract_line_blocks_from_current_context env max_tokens
    = (ordered <- _rotate_items_from_anchor lines anchor max_tokens ;;
       Ok (map (fun '(line_no, line) =>
                  {| li_line_no := line_no; li_full_text := line; li_label := line |})
               ordered))
    /\ lines <> []
    /\ ((fst (decompiler_lines env) <> []
         /\ lines = fst (decompiler_lines env) /\ anchor = snd (decompiler_lines env))
        \/ (fst (decompiler_lines env) = [] /\ fst (disasm_lines env) <> []
            /\ lines = fst (disasm_lines env) /\ anchor = snd (disasm_lines env))
        \/ (fst (decompiler_lines env) = [] /\ fst (disasm_lines env) = []
            /\ lines = placeholder_lines /\ anchor = snd (disasm_lines env))).
Proof.
  unfold _extract_line_blocks_from_current_context.
  destruct (decompiler_lines env) as [l1 a1]. cbn [fst snd].
  destruct (is_empty l1) eqn:E1.
  - apply is_empty_true in E1. subst l1.
    destruct (disasm_lines env) as [l2 a2]. cbn [fst snd].
    destruct (is_empty l2) eqn:E2.
    + apply is_empty_true in E2. subst l2.
      exists placeholder_lines, a2. split; [reflexivity|].
      split; [discriminate|]. right. right. auto.
    + apply is_empty_false in E2.
      exists l2, a2. split; [reflexivity|]. split; [assumption|]. right. left. auto.
  - rewrite E1. apply is_empty_false in E1.
    exists l1, a1. split; [reflexivity|]. split; [assumption|]. left. auto.
Qed.

(** X8: the source of the labels.  Lines of the decompiler win over
    the disassembly; without them the disassembly is used; when the
    collectors of a host give nothing at all (every failure of the
    decompiler, no function, only blank lines) the labels are the five
    placeholder lines, in their order. *)
Theorem labels_fall_back_in_order (h : Host) (max_tokens : Z) :
  (fst (decompiler_lines (env_of h)) <> [] ->
   _extract_line_blocks_from_current_context (env_of h) max_tokens
   = (ordered <- _rotate_items_from_anchor (fst (decompiler_lines (env_of h)))
                   (snd (decompiler_lines (env_of h))) max_tokens ;;
      Ok (map (fun '(line_no, line) =>
                 {| li_line_no := line_no; li_full_text := line; li_label := line |})
              ordered)))
  /\ (fst (decompiler_lines (env_of h)) = [] ->
      fst (disasm_lines (env_of h)) <> [] ->
      _extract_line_blocks_from_current_context (env_of h) max_tokens
      = (ordered <- _rotate_items_from_anchor (fst (disasm_lines (env_of h)))
                      (snd (disasm_lines (env_of h))) max_tokens ;;
         Ok (map (fun '(line_no, line) =>
                    {| li_line_no := line_no; li_full_text := line; li_label := line |})
                 ordered)))
  /\ (fst (decompiler_lines (env_of h)) = [] ->
      fst (disasm_lines (env_of h)) = [] ->
      5 <= max_tokens ->
      _extract_line_blocks_from_current_context (env_of h) max_tokens
      = Ok (map (fun '(line_no, line) =>
                   {| li_line_no := line_no; li_full_text := line; li_label := line |})
                placeholder_lines)).
Proof.
  destruct (extract_sources (env_of h) max_tokens)
    as (lines & anchor & Hex & Hne & Hsrc).
  repeat split.
  - intros H1. destruct Hsrc as [(_ & -> & ->) | [(H & _) | (H & _)]];
      [exact Hex | contradiction | contradiction].
  - intros H1 H2.
    destruct Hsrc as [(H & _) | [(_ & _ & -> & ->) | (_ & H & _)]];
      [contradiction | exact Hex | contradiction].
  - intros H1 H2 Hmax.
    destruct Hsrc as [(H & _) | [(_ & H & _) | (_ & _ & -> & ->)]];
      [contradiction | contradiction |].
    rewrite Hex.
    assert (Ha : snd (disasm_lines (env_of h)) = 0).
    { destruct (collectors_anchor_in_range (host_tag_remove h) (host_hexrays h)
                  (host_lnnum h) (host_func h) (host_ea h)) as [_ Hr].
      destruct Hr as [[_ Hz] | Hr]; [exact Hz|].
      change (disasm_lines (env_of h))
        with (_collect_disasm_lines (host_tag_remove h) (host_func h) (host_ea h)) in H2.
      rewrite H2 in Hr. unfold len in Hr. simpl in Hr. lia. }
    rewrite Ha, rotate_cut. simpl.
    rewrite firstn_all2 by (simpl; lia). reflexivity.
Qed.

Example collect_decompiler_ex :
  _collect_decompiler_lines (fun line => line) demo_pseudocode (Some 3)
  = ([(1, "int f()"); (2, "{"); (5, "return 0;"); (6, "}")]%string, 2).
Proof. reflexivity. Qed.

Example collect_disasm_ex :
  _collect_disasm_lines (fun line => line) demo_func 4098
  = ([(1, "push ebp"); (3, "mov ebp, esp"); (4, "ret")]%string, 1).
Proof. reflexivity. Qed.

Lemma labels_fall_back_in_order_witness :
  (fst (decompiler_lines (env_of (demo_host demo_pseudocode (Some 3) demo_func 4098))) <> []
   /\ _extract_line_blocks_from_current_context
        (env_of (demo_host demo_pseudocode (Some 3) demo_func 4098)) 56
      = Ok (map demo_line_numbered
              [(5, "return 0;"); (6, "}"); (1, "int f()"); (2, "{")]%string))
  /\ (fst (decompiler_lines (env_of (demo_host HexraysMissing None demo_func 4098))) = []
      /\ fst (disasm_lines (env_of (demo_host HexraysMissing None demo_func 4098))) <> []
      /\ _extract_line_blocks_from_current_context
           (env_of (demo_host HexraysMissing None demo_func 4098)) 56
         = Ok (map demo_line_numbered
                 [(3, "mov ebp, esp"); (4, "ret"); (1, "push ebp")]%string))
  /\ (fst (decompiler_lines (env_of (demo_host HexraysRaises None None 0))) = []
      /\ fst (disasm_lines (env_of (demo_host HexraysRaises None None 0))) = []
      /\ 5 <= 56
      /\ _extract_line_blocks_from_current_context
           (env_of (demo_host HexraysRaises None None 0)) 56
         = Ok (map demo_line_numbered placeholder_lines)).
Proof.
  split; [|split].
  - assert (H : fst (decompiler_lines
                       (env_of (demo_host demo_pseudocode (Some 3) demo_func 4098))) <> [])
      by discriminate.
    split; [exact H|].
    destruct (labels_fall_back_in_order
                (demo_host demo_pseudocode (Some 3) demo_func 4098) 56) as (H1 & _ & _).
    rewrite (H1 H). reflexivity.
  - assert (H : fst (disasm_lines
                       (env_of (demo_host HexraysMissing None demo_func 4098))) <> [])
      by discriminate.
    split; [reflexivity|]. split; [exact H|].
    destruct (labels_fall_back_in_order
                (demo_host HexraysMissing None demo_func 4098) 56) as (_ & H2 & _).
    rewrite (H2 eq_refl H). reflexivity.
  - split; [reflexivity|]. split; [reflexivity|]. split; [lia|].
    destruct (labels_fall_back_in_order
                (demo_host HexraysRaises None None 0) 56) as (_ & _ & H3).
    exact (H3 eq_refl eq_refl ltac:(lia)).
Defined.

(** X9: from the cursor to the labels.  When the decompiler gives
    lines, the labels are those lines from the anchor line on, wrapping
    around to the lines before it, cut to [max_tokens] entries: the
    anchor is used as it is, the rotation has nothing to replace.  With
    room for all of them every kept line is a label exactly once. *)
Theorem labels_read_from_the_cursor (h : Host) (max_tokens : Z) :
  fst (decompiler_lines (env_of h)) <> [] ->
  _extract_line_blocks_from_current_context (env_of h) max_tokens
  = Ok (map (fun '(line_no, line) =>
               {| li_line_no := line_no; li_full_text := line; li_label := line |})
          (firstn (Z.to_nat max_tokens)
             (skipn (Z.to_nat (snd (decompiler_lines (env_of h))))
                    (fst (decompiler_lines (env_of h)))
              ++ firstn (Z.to_nat (snd (decompiler_lines (env_of h))))
                        (fst (decompiler_lines (env_of h))))))
  /\ (len (fst (decompiler_lines (env_of h))) <= max_tokens ->
      exists labels,
        _extract_line_blocks_from_current_context (env_of h) max_tokens = Ok labels
        /\ Permutation (map (fun li => (li_line_no li, li_full_text li)) labels)
                       (fst (decompiler_lines (env_of h)))).
Proof.
  intros Hne.
  destruct (extract_sources (env_of h) max_tokens)
    as (lines & anchor & Hex & _ & Hsrc).
  destruct Hsrc as [(_ & -> & ->) | [(H & _) | (H & _)]]; try contradiction.
  rewrite Hex, rotate_cut. clear Hex.
  destruct (collectors_anchor_in_range (host_tag_remove h) (host_hexrays h)
              (host_lnnum h) (host_func h) (host_ea h)) as [Hr _].
  change (_collect_decompiler_lines (host_tag_remove h) (host_hexrays h) (host_lnnum h))
    with (decompiler_lines (env_of h)) in Hr.
  destruct Hr as [[H _] | Hr]; [contradiction|].
  destruct (Z.leb_spec 0 (snd (decompiler_lines (env_of h)))),
    (Z.ltb_spec (snd (decompiler_lines (env_of h)))
       (len (fst (decompiler_lines (env_of h))))); try lia.
  simpl. split; [reflexivity|].
  intros Hl. eexists. split; [reflexivity|].
  rewrite map_map.
  rewrite (map_ext _ (fun x => x)) by (intros [? ?]; reflexivity).
  rewrite map_id, firstn_all2.
  - rewrite Permutation_app_comm, firstn_skipn. apply Permutation_refl.
  - rewrite length_app, length_skipn, length_firstn. unfold len in Hl. lia.
Qed.

Lemma labels_read_from_the_cursor_witness :
  fst (decompiler_lines (env_of (demo_host demo_pseudocode (Some 3) demo_func 4098))) <> []
  /\ _extract_line_blocks_from_current_context
       (env_of (demo_host demo_pseudocode (Some 3) demo_func 4098)) 3
     = Ok (map demo_line_numbered [(5, "return 0;"); (6, "}"); (1, "int f()")]%string).
Proof.
  assert (H : fst (decompiler_lines
                     (env_of (demo_host demo_pseudocode (Some 3) demo_func 4098))) <> [])
    by discriminate.
  split; [exact H|].
  destruct (labels_read_from_the_cursor
              (demo_host demo_pseudocode (Some 3) demo_func 4098) 3 H) as [-> _].
  reflexivity.
Defined.

(** *** What a reload leaves *)

Lemma enumerate_length {A : Type} (xs : list A) :
  List.length (enumerate xs) = List.length xs.
Proof.
  unfold enumerate. rewrite length_combine, range_length. unfold len. lia.
Qed.

Lemma slice_to_length {A : Type} (xs : list A) (k : Z) :
  0 <= k -> len (slice_to xs k) = Z.min (len xs) k.
Proof.
  intros Hk. unfold slice_to, len. destruct (Z.ltb_spec k 0); [lia|].
  rewrite length_firstn. lia.
Qed.

Lemma extract_labels (env : Env) (max_tokens : Z) :
  1 <= max_tokens ->
  exists labels,
    _extract_line_blocks_from_current_context env max_tokens = Ok labels
    /\ 1 <= len labels <= max_tokens
    /\ Forall (fun li => li_label li = li_full_text li) labels.
Proof.
  intros Hmax.
  destruct (extract_sources env max_tokens) as (lines & anchor & Hex & Hne & _).
  rewrite Hex, rotate_cut. simpl. eexists. split; [reflexivity|].
  pose proof (len_pos lines Hne) as HL.
  split.
  - unfold len in *. rewrite length_map, length_firstn, length_app, length_skipn,
      length_firstn. lia.
  - apply Forall_map. apply Forall_forall. intros [ln t] _. reflexivity.
Qed.

(** X10: what [reload_bricks] leaves, whatever the host answers: from
    1 to 56 labels, each with its whole line as label; as many rows as
    labels, up to [max_visible_lines], and at least one; every brick
    alive; the ball waiting on the paddle; score, lives and the
    game-over flag untouched. *)
Theorem reload_gives_a_fresh_field (env : Env) (s : Widget) :
  exists s',
    reload_bricks env s = Ok s'
    /\ 1 <= len (brick_labels s') <= 56
    /\ Forall (fun li => li_label li = li_full_text li) (brick_labels s')
    /\ len (render_lines s')
       = Z.min (len (brick_labels s')) (max_visible_lines (fm env) (height env))
    /\ 1 <= len (render_lines s')
    /\ Forall (fun b => alive b = true) (bricks s')
    /\ launched s' = false
    /\ ball_x s' = (paddle_x s' + paddle_w / 2)%Q
    /\ score s' = score s /\ lives s' = lives s /\ game_over s' = game_over s.
Proof.
  unfold reload_bricks.
  destruct (extract_labels env MAX_BRICK_LINES ltac:(unfold MAX_BRICK_LINES; lia))
    as (labels & Hex & Hlen & Hlab).
  rewrite Hex. simpl. eexists. split; [reflexivity|].
  assert (Hrows : len (render_lines
                         (_reset_ball_on_paddle env
                            (_build_bricks env (set_brick_labels s labels))))
                  = Z.min (len labels) (max_visible_lines (fm env) (height env))).
  { unfold _reset_ball_on_paddle, _build_bricks. simpl.
    unfold len at 1. rewrite length_map, enumerate_length.
    fold (len (slice_to labels (max_visible_lines (fm env) (height env)))).
    apply slice_to_length.
    pose proof (max_visible_lines_pos (fm env) (height env)). lia. }
  split; [exact Hlen|]. split; [exact Hlab|]. split; [exact Hrows|].
  split.
  { rewrite Hrows. pose proof (max_visible_lines_pos (fm env) (height env)).
    unfold MAX_BRICK_LINES in Hlen. lia. }
  split; [apply (built_bricks_alive env (set_brick_labels s labels))|].
  repeat split.
Qed.

(** *** More on the layout *)

Lemma part_w_pos (f : FontMetrics) (part : string) : 1 <= part_w f part.
Proof. unfold part_w. lia. Qed.

Lemma cursor_after_ge (f : FontMetrics) (parts : list string) :
  forall x, x <= cursor_after f x parts.
Proof.
  unfold cursor_after. induction parts as [|p parts IH]; intros x; simpl; [lia|].
  pose proof (IH (x + part_w f p)). pose proof (part_w_pos f p). lia.
Qed.

(** Where a brick comes from, with the test of line 254. *)
Lemma brick_origin (env : Env) (s : Widget) (b : Brick) :
  In b (bricks (_build_bricks env s)) ->
  exists (i : nat) (line_info : LineInfo) (pre : list string) (part : string)
         (post : list string),
    nth_error (brick_labels s) i = Some line_info
    /\ Z.of_nat i < max_visible_lines (fm env) (height env)
    /\ findall (li_full_text line_info) = pre ++ part :: post
    /\ truthy (strip part) = true
    /\ b = make_brick (fm env) (cursor_after (fm env) code_left pre)
             (row_y_base (fm env) (Z.of_nat i)) part line_info
    /\ cursor_after (fm env) code_left pre + part_w (fm env) part
       <= code_right (width env).
Proof.
  unfold _build_bricks. simpl. intros Hin.
  apply in_flat_map in Hin. destruct Hin as [[i li] [Hrow Hin]].
  apply enumerate_In in Hrow. destruct Hrow as [Hi Hrow].
  apply slice_to_nth_error in Hrow;
    [|pose proof (max_visible_lines_pos (fm env) (height env)); lia].
  destruct Hrow as [Hnth Hvis].
  unfold line_bricks in Hin. apply place_parts_In in Hin.
  destruct Hin as (pre & part & post & Hparts & -> & Hfit & Hshown).
  exists (Z.to_nat i), li, pre, part, post.
  rewrite Z2Nat.id in * by assumption.
  repeat split; assumption.
Qed.

(** X11: a brick is a visible token of one of the labelled lines: its
    label is a token of the line it quotes, it is not empty and holds
    no whitespace; whitespace never becomes a brick. *)
Theorem bricks_are_visible_tokens (env : Env) (s : Widget) (b : Brick) :
  In b (bricks (_build_bricks env s)) ->
  label b <> EmptyString
  /\ all_chars is_nonspace (label b) = true
  /\ In (label b) (findall (full_text b))
  /\ exists line_info,
       In line_info (brick_labels s)
       /\ full_text b = li_full_text line_info
       /\ line_no b = li_line_no line_info.
Proof.
  intros Hin.
  destruct (brick_origin env s b Hin)
    as (i & li & pre & part & post & Hnth & _ & Hparts & Hshown & -> & _).
  simpl.
  assert (Hrun : is_run part).
  { pose proof (findall_tokens_are_runs (li_full_text li)) as Hr.
    rewrite Hparts in Hr. apply Forall_app in Hr. destruct Hr as [_ Hr].
    now inversion Hr. }
  rewrite (run_visible part Hrun) in Hshown.
  split; [apply Hrun|]. split; [exact Hshown|].
  split; [rewrite Hparts; apply in_or_app; right; left; reflexivity|].
  exists li. split; [eapply nth_error_In; eassumption|]. auto.
Qed.

Lemma bricks_are_visible_tokens_witness :
  In (make_brick (mono_font 7) 98 (row_y_base (mono_font 7) 0) "loc_next"
        (demo_line "jne loc_next"))
     (bricks (_build_bricks demo_env
                (set_brick_labels demo_widget [demo_line "jne loc_next"])))
  /\ all_chars is_nonspace "loc_next" = true.
Proof.
  assert (Hin : In (make_brick (mono_font 7) 98 (row_y_base (mono_font 7) 0) "loc_next"
                      (demo_line "jne loc_next"))
                   (bricks (_build_bricks demo_env
                              (set_brick_labels demo_widget [demo_line "jne loc_next"])))).
  { right. left. reflexivity. }
  split; [exact Hin|].
  exact (proj1 (proj2 (bricks_are_visible_tokens demo_env _ _ Hin))).
Defined.

(** X12: the geometry of a brick is never degenerate: its rectangle
    has whole-pixel coordinates, is at least 6 wide and 16 high, starts
    at or right of the left margin 70 and at or below the top 64, and
    reaches at most 5 pixels beyond the right margin
    [max(640, width) - 18]; the text is drawn at its left edge. *)
Theorem brick_geometry_is_sound (env : Env) (s : Widget) (b : Brick) :
  In b (bricks (_build_bricks env s)) ->
  exists x y w hh : Z,
    rect b = {| rx := inject_Z x; ry := inject_Z y;
                rw := inject_Z w; rh := inject_Z hh |}
    /\ code_left <= x /\ code_top <= y /\ 6 <= w /\ 16 <= hh
    /\ x + w <= code_right (width env) + 5
    /\ draw_x b = x /\ draw_y b = y + fm_ascent (fm env).
Proof.
  intros Hin.
  destruct (brick_origin env s b Hin)
    as (i & li & pre & part & post & _ & _ & _ & _ & -> & Hfit).
  pose proof (cursor_after_ge (fm env) pre code_left) as Hx.
  pose proof (part_w_pos (fm env) part) as Hw.
  unfold make_brick. cbn [rect draw_x draw_y].
  eexists _, _, _, _. split; [reflexivity|].
  assert (Hh : 16 <= line_h (fm env)) by (unfold line_h; lia).
  assert (Hrow : 0 <= Z.of_nat i * line_h (fm env)) by nia.
  unfold row_y_base, code_top in *.
  repeat split; lia.
Qed.

Lemma brick_geometry_is_sound_witness :
  In (make_brick (mono_font 7) 98 (row_y_base (mono_font 7) 0) "loc_next"
        (demo_line "jne loc_next"))
     (bricks (_build_bricks demo_env
                (set_brick_labels demo_widget [demo_line "jne loc_next"])))
  /\ exists x y w hh : Z,
       rect (make_brick (mono_font 7) 98 (row_y_base (mono_font 7) 0) "loc_next"
               (demo_line "jne loc_next"))
       = {| rx := inject_Z x; ry := inject_Z y; rw := inject_Z w; rh := inject_Z hh |}
       /\ code_left <= x /\ code_top <= y /\ 6 <= w /\ 16 <= hh
       /\ x + w <= code_right (width demo_env) + 5
       /\ draw_x (make_brick (mono_font 7) 98 (row_y_base (mono_font 7) 0) "loc_next"
                    (demo_line "jne loc_next")) = x
       /\ draw_y (make_brick (mono_font 7) 98 (row_y_base (mono_font 7) 0) "loc_next"
                    (demo_line "jne loc_next")) = y + fm_ascent (fm demo_env).
Proof.
  assert (Hin : In (make_brick (mono_font 7) 98 (row_y_base (mono_font 7) 0) "loc_next"
                      (demo_line "jne loc_next"))
                   (bricks (_build_bricks demo_env
                              (set_brick_labels demo_widget [demo_line "jne loc_next"])))).
  { right. left. reflexivity. }
  split; [exact Hin|].
  exact (brick_geometry_is_sound demo_env _ _ Hin).
Defined.

(** X13: when a row is not higher than the room for the code
    ([line_h <= max(360, height) - 134]), every brick ends at or above
    [h - 70], so above the paddle, whose top is at [h - 30]. *)
Theorem bricks_stay_above_the_paddle (env : Env) (s : Widget) (b : Brick) :
  line_h (fm env) <= Z.max 360 (height env) - 134 ->
  In b (bricks (_build_bricks env s)) ->
  (ry (rect b) + rh (rect b) <= inject_Z (Z.max 360 (height env) - 70))%Q.
Proof.
  intros Hfit Hin.
  destruct (brick_origin env s b Hin)
    as (i & li & pre & part & post & _ & Hrow & _ & _ & -> & _).
  unfold make_brick. cbn [rect ry rh]. rewrite <- inject_Z_plus, <- Zle_Qle.
  unfold max_visible_lines, int_div, row_y_base, code_top in *.
  set (h := Z.max 360 (height env)) in *.
  assert (Hl : 16 <= line_h (fm env)) by (unfold line_h; lia).
  destruct (Z.mul_quot_le (h - 64 - 70) (line_h (fm env))) as [_ Hq]; try lia.
  assert (Hq1 : 1 <= (h - 64 - 70) ÷ line_h (fm env)).
  { apply Z.quot_le_lower_bound; lia. }
  assert (Hi : (Z.of_nat i + 1) * line_h (fm env)
               <= ((h - 64 - 70) ÷ line_h (fm env)) * line_h (fm env)) by nia.
  lia.
Qed.

Lemma bricks_stay_above_the_paddle_witness :
  line_h (fm demo_env) <= Z.max 360 (height demo_env) - 134
  /\ In (make_brick (mono_font 7) 98 (row_y_base (mono_font 7) 0) "loc_next"
           (demo_line "jne loc_next"))
        (bricks (_build_bricks demo_env
                   (set_brick_labels demo_widget [demo_line "jne loc_next"])))
  /\ (ry (rect (make_brick (mono_font 7) 98 (row_y_base (mono_font 7) 0) "loc_next"
                  (demo_line "jne loc_next")))
      + rh (rect (make_brick (mono_font 7) 98 (row_y_base (mono_font 7) 0) "loc_next"
                    (demo_line "jne loc_next")))
      <= inject_Z (Z.max 360 (height demo_env) - 70))%Q.
Proof.
  assert (Hfit : line_h (fm demo_env) <= Z.max 360 (height demo_env) - 134)
    by (vm_compute; discriminate).
  assert (Hin : In (make_brick (mono_font 7) 98 (row_y_base (mono_font 7) 0) "loc_next"
                      (demo_line "jne loc_next"))
                   (bricks (_build_bricks demo_env
                              (set_brick_labels demo_widget [demo_line "jne loc_next"])))).
  { right. left. reflexivity. }
  split; [exact Hfit|]. split; [exact Hin|].
  exact (bricks_stay_above_the_paddle demo_env _ _ Hfit Hin).
Defined.

Lemma place_parts_prefix (f : FontMetrics) (c1 c2 y : Z) (li : LineInfo) :
  c1 <= c2 ->
  forall (parts : list string) (x : Z),
  exists more,
    place_parts f c2 y li x parts = place_parts f c1 y li x parts ++ more.
Proof.
  intros Hc. induction parts as [|p parts IH]; intros x; simpl.
  - exists []. reflexivity.
  - destruct (Z.gtb_spec (x + part_w f p) c1), (Z.gtb_spec (x + part_w f p) c2);
      try lia.
    + exists []. reflexivity.
    + eexists. simpl. reflexivity.
    + destruct (IH (x + part_w f p)) as [more Hmore]. rewrite Hmore.
      destruct (truthy (strip p)); exists more; reflexivity.
Qed.

(** X14: narrowing the widget only cuts a line short: the bricks of a
    line in the narrower widget are the first bricks of the same line
    in the wider one, with the same rectangles and labels. *)
Theorem narrowing_cuts_lines_short (f : FontMetrics) (i : Z) (line_info : LineInfo)
    (w1 w2 : Z) :
  w1 <= w2 ->
  exists more,
    line_bricks f w2 i line_info = line_bricks f w1 i line_info ++ more.
Proof.
  intros Hw. unfold line_bricks. apply place_parts_prefix. unfold code_right. lia.
Qed.

Lemma narrowing_cuts_lines_short_witness :
  700 <= 900
  /\ exists more,
       line_bricks (mono_font 60) 900 0 (demo_line "call sub_handler now")
       = line_bricks (mono_font 60) 700 0 (demo_line "call sub_handler now") ++ more.
Proof.
  split; [lia|].
  apply (narrowing_cuts_lines_short (mono_font 60) 0
           (demo_line "call sub_handler now") 700 900). lia.
Defined.

(** *** The order of the bricks *)

Lemma place_parts_sorted (f : FontMetrics) (cright y : Z) (li : LineInfo) :
  forall (parts : list string) (x : Z),
  StronglySorted reads_before (place_parts f cright y li x parts)
  /\ Forall (fun b => draw_y b = y /\ x <= draw_x b)
            (place_parts f cright y li x parts).
Proof.
  induction parts as [|p parts IH]; intros x; simpl.
  - split; constructor.
  - destruct (x + part_w f p >? cright); [split; constructor|].
    destruct (IH (x + part_w f p)) as [Hs Hall].
    pose proof (part_w_pos f p) as Hw.
    assert (Hall' : Forall (fun b => draw_y b = y /\ x <= draw_x b)
                           (place_parts f cright y li (x + part_w f p) parts)).
    { eapply Forall_impl; [|exact Hall]. intros b [? ?]. split; lia. }
    destruct (truthy (strip p)); [|split; assumption].
    split.
    + constructor; [assumption|].
      eapply Forall_impl; [|exact Hall]. intros b [Hy Hx].
      right. simpl. split; [congruence | lia].
    + constructor; [simpl; split; [reflexivity | lia] | assumption].
Qed.

Lemma StronglySorted_app {A : Type} (R : A -> A -> Prop) (l1 l2 : list A) :
  StronglySorted R l1 -> StronglySorted R l2 ->
  (forall x y, In x l1 -> In y l2 -> R x y) ->
  StronglySorted R (l1 ++ l2).
Proof.
  intros H1 H2 H12. induction H1 as [|x l1 Hs IH Hx]; simpl; [assumption|].
  constructor.
  - apply IH. intros a b Ha Hb. apply H12; [now right | assumption].
  - apply Forall_app. split; [assumption|].
    apply Forall_forall. intros b Hb. apply H12; [now left | assumption].
Qed.

Lemma rows_sorted (f : FontMetrics) (width : Z) (labels : list LineInfo) :
  forall a : nat,
  StronglySorted reads_before
    (flat_map (fun '(i, line_info) => line_bricks f width i line_info)
              (combine (map Z.of_nat (seq a (List.length labels))) labels))
  /\ Forall (fun b => row_y_base f (Z.of_nat a) <= draw_y b)
       (flat_map (fun '(i, line_info) => line_bricks f width i line_info)
                 (combine (map Z.of_nat (seq a (List.length labels))) labels)).
Proof.
  assert (Hl : 16 <= line_h f) by (unfold line_h; lia).
  induction labels as [|li labels IH]; intros a; simpl.
  - split; constructor.
  - destruct (IH (S a)) as [Hs Hall].
    destruct (place_parts_sorted f (code_right width) (row_y_base f (Z.of_nat a)) li
                (findall (li_full_text li)) code_left) as [Hrow Hrow_all].
    fold (line_bricks f width (Z.of_nat a) li) in Hrow, Hrow_all.
    assert (Hnext : row_y_base f (Z.of_nat a) < row_y_base f (Z.of_nat (S a))).
    { unfold row_y_base. nia. }
    split.
    + apply StronglySorted_app; [assumption | assumption |].
      intros x y Hx Hy. rewrite Forall_forall in Hrow_all, Hall.
      destruct (Hrow_all x Hx) as [Hxy _]. pose proof (Hall y Hy) as Hyy.
      left. lia.
    + apply Forall_app. split.
      * eapply Forall_impl; [|exact Hrow_all]. intros b [Hy _]. lia.
      * eapply Forall_impl; [|exact Hall]. intros b Hb. cbv beta in Hb. lia.
Qed.

(** X15: the brick list is in reading order: the bricks of an upper
    row come before those of a lower row, and in a row a brick comes
    before the bricks to its right.  The first brick in list order,
    the one a collision or the hover query picks, is thus the topmost
    and then leftmost. *)
Theorem bricks_are_in_reading_order (env : Env) (s : Widget) :
  StronglySorted reads_before (bricks (_build_bricks env s)).
Proof.
  unfold _build_bricks. simpl. unfold enumerate, range, len. rewrite Nat2Z.id.
  apply (rows_sorted (fm env) (width env)
           (slice_to (brick_labels s) (max_visible_lines (fm env) (height env))) 0).
Qed.

(** *** Resizing *)

(** X16: a resize lays the bricks out anew from the labels alone: every
    brick is alive again, whatever was destroyed before, while the
    score, the lives, the flags, the ball, the paddle and the labels
    stay; laying out twice is laying out once. *)
Theorem resize_restores_every_brick (env : Env) (s : Widget) (bs : list Brick) :
  bricks (resizeEvent env (set_bricks s bs)) = bricks (resizeEvent env s)
  /\ Forall (fun b => alive b = true) (bricks (resizeEvent env s))
  /\ resizeEvent env (resizeEvent env s) = resizeEvent env s
  /\ score (resizeEvent env s) = score s /\ lives (resizeEvent env s) = lives s
  /\ game_over (resizeEvent env s) = game_over s
  /\ launched (resizeEvent env s) = launched s
  /\ paddle_x (resizeEvent env s) = paddle_x s
  /\ ball_x (resizeEvent env s) = ball_x s /\ ball_y (resizeEvent env s) = ball_y s
  /\ ball_vx (resizeEvent env s) = ball_vx s /\ ball_vy (resizeEvent env s) = ball_vy s
  /\ brick_labels (resizeEvent env s) = brick_labels s.
Proof.
  split; [reflexivity|].
  split; [apply built_bricks_alive|].
  repeat split.
Qed.

Example resize_brings_bricks_back :
  map alive
    (bricks (resizeEvent demo_env
               (set_bricks (set_brick_labels demo_widget [demo_line "cmp eax, 0"])
                  [demo_brick 70 64 21 16 false])))
  = [true; true; true].
Proof. reflexivity. Qed.

(** *** Tooltips *)

Lemma truthy_false (t : string) : truthy t = false <-> t = EmptyString.
Proof. destruct t; simpl; split; congruence. Qed.

(** X17: the tooltip follows the mouse.  After a mouse move the
    remembered text is the tooltip of the position: the whole line of
    the alive brick under the mouse when the line is more than that
    brick's label, nothing otherwise (no brick, a dead brick, a
    one-token line).  If the text on screen was the remembered one, it
    still is afterwards; a call is made only when the text changes.
    Leaving the widget clears both. *)
Theorem tooltip_follows_the_mouse (s : Widget) (hover : string) (pos : QPoint) :
  fst (mouseMoveEvent s hover pos) = tooltip_at s pos
  /\ shown_after hover (snd (mouseMoveEvent s hover pos)) = tooltip_at s pos
  /\ (snd (mouseMoveEvent s hover pos) = None <-> hover = tooltip_at s pos)
  /\ fst (leaveEvent hover) = EmptyString
  /\ shown_after hover (snd (leaveEvent hover)) = EmptyString
  /\ (tooltip_at s pos <> EmptyString ->
      exists b, In b (bricks s) /\ alive b = true
                /\ QRectF_contains (rect b) (QPointF_of pos) = true
                /\ full_text b <> label b /\ tooltip_at s pos = full_text b).
Proof.
  assert (Hmove : fst (mouseMoveEvent s hover pos) = tooltip_at s pos
                  /\ shown_after hover (snd (mouseMoveEvent s hover pos))
                     = tooltip_at s pos
                  /\ (snd (mouseMoveEvent s hover pos) = None
                      <-> hover = tooltip_at s pos)).
  { unfold mouseMoveEvent.
    destruct (truthy (tooltip_at s pos)) eqn:Ht.
    - destruct (String.eqb (tooltip_at s pos) hover) eqn:E; simpl.
      + apply String.eqb_eq in E. repeat split; auto; congruence.
      + apply String.eqb_neq in E. repeat split; auto; try discriminate.
        intros H. congruence.
    - apply truthy_false in Ht. rewrite Ht.
      destruct (truthy hover) eqn:Hh; simpl.
      + apply truthy_nonempty in Hh. repeat split; auto; try discriminate.
        intros H. congruence.
      + apply truthy_false in Hh. repeat split; auto. }
  destruct Hmove as (H1 & H2 & H3).
  repeat (split; [assumption|]).
  split; [|split].
  - unfold leaveEvent. destruct (truthy hover) eqn:Hh; simpl; [reflexivity|].
    now apply truthy_false.
  - unfold leaveEvent. destruct (truthy hover) eqn:Hh; simpl; [reflexivity|].
    now apply truthy_false.
  - unfold tooltip_at, _find_hover_brick.
    destruct (find _ (bricks s)) as [b|] eqn:Ef; [|congruence].
    apply find_some in Ef. destruct Ef as [Hin Hb].
    apply andb_true_iff in Hb. destruct Hb as [Ha Hc].
    destruct (String.eqb (full_text b) (label b)) eqn:E; simpl; [congruence|].
    apply String.eqb_neq in E. intros _. exists b. auto.
Qed.

Example tooltip_of_dead_brick :
  mouseMoveEvent (set_bricks demo_widget [demo_brick 70 64 40 16 false])
    "tok tok" {| qx := 80; qy := 70 |}
  = (EmptyString, Some hideText).
Proof. reflexivity. Qed.

Lemma append_length (s t : string) :
  String.length (s ++ t) = (String.length s + String.length t)%nat.
Proof. induction s as [|c s IH]; simpl; [reflexivity | now rewrite IH]. Qed.

Lemma concat_length (ts : list string) :
  String.length (String.concat "" ts)
  = fold_right (fun t n => (String.length t + n)%nat) 0%nat ts.
Proof.
  induction ts as [|t ts IH]; [reflexivity|].
  rewrite concat_empty_cons, append_length, IH. reflexivity.
Qed.

Lemma findall_concat (s : string) : String.concat "" (findall s) = s.
Proof.
  remember (String.length s) as n eqn:Hn.
  revert s Hn. induction n as [n IH] using lt_wf_ind. intros s Hn.
  destruct s as [|c s']; [simp findall; reflexivity|].
  destruct (findall_String c s') as [_ Hf]. rewrite Hf. clear Hf.
  destruct (take_while_spec (if is_space c then is_space else is_nonspace) s')
    as [Happ _].
  pose proof (take_while_rest_length
                (if is_space c then is_space else is_nonspace) s') as Hlen.
  rewrite concat_empty_cons.
  rewrite (IH (String.length
                 (snd (take_while (if is_space c then is_space else is_nonspace) s'))))
    by (subst n; simpl; lia || reflexivity).
  simpl. now rewrite Happ.
Qed.

Lemma run_length_pos (t : string) : is_run t -> (1 <= String.length t)%nat.
Proof. intros [Hne _]. destruct t; [congruence | simpl; lia]. Qed.

Lemma runs_length (ts : list string) :
  Forall is_run ts ->
  (List.length ts
   <= fold_right (fun t n => (String.length t + n)%nat) 0%nat ts)%nat.
Proof.
  induction 1 as [|t ts Ht _ IH]; simpl; [lia|].
  pose proof (run_length_pos t Ht). lia.
Qed.

(** A token is the whole line only when it is the only token. *)
Lemma token_is_line (line part : string) (pre post : list string) :
  findall line = pre ++ part :: post ->
  (line = part <-> pre = [] /\ post = []).
Proof.
  intros Hf. pose proof (findall_concat line) as Hc.
  pose proof (findall_tokens_are_runs line) as Hr.
  rewrite Hf in Hc, Hr. split.
  - intros ->.
    assert (Hlen : String.length (String.concat "" (pre ++ part :: post))
                   = String.length part) by now rewrite Hc.
    rewrite concat_length, fold_right_app in Hlen. simpl in Hlen.
    apply Forall_app in Hr. destruct Hr as [Hpre Hr].
    inversion Hr as [|? ? _ Hpost]; subst.
    pose proof (runs_length post Hpost) as Hp.
    assert (Hacc : forall (l : list string) (k : nat), Forall is_run l ->
              (List.length l + k
               <= fold_right (fun t n => (String.length t + n)%nat) k l)%nat).
    { intros l k Hl. induction Hl as [|t l Ht _ IHl]; simpl; [lia|].
      pose proof (run_length_pos t Ht). lia. }
    pose proof (Hacc pre
                  (String.length part
                   + fold_right (fun t n => (String.length t + n)%nat) 0%nat post)%nat
                  Hpre) as Hq.
    rewrite Hlen in Hq.
    destruct pre; [|simpl in Hq; lia]. destruct post; [auto | simpl in *; lia].
  - intros [-> ->]. simpl in Hc. congruence.
Qed.

(** X18: which bricks have a tooltip.  For a brick of the layout the
    whole line differs from the label exactly when the line has more
    than one token (whitespace counted): only such bricks show a
    tooltip. *)
Theorem tooltip_only_on_lines_of_several_tokens (env : Env) (s : Widget) (b : Brick) :
  In b (bricks (_build_bricks env s)) ->
  (full_text b = label b <-> findall (full_text b) = [label b]).
Proof.
  intros Hin.
  destruct (brick_origin env s b Hin)
    as (i & li & pre & part & post & _ & _ & Hparts & _ & -> & _).
  simpl. rewrite (token_is_line _ _ _ _ Hparts). rewrite Hparts. split.
  - intros [-> ->]. reflexivity.
  - intros H. destruct pre as [|p pre]; simpl in H.
    + inversion H. auto.
    + inversion H as [[Hp Hrest]]. destruct pre; discriminate.
Qed.

Lemma tooltip_only_on_lines_of_several_tokens_witness :
  In (make_brick (mono_font 7) 98 (row_y_base (mono_font 7) 0) "loc_next"
        (demo_line "jne loc_next"))
     (bricks (_build_bricks demo_env
                (set_brick_labels demo_widget [demo_line "jne loc_next"])))
  /\ ("jne loc_next" = "loc_next" <-> findall "jne loc_next" = ["loc_next"])%string.
Proof.
  assert (Hin : In (make_brick (mono_font 7) 98 (row_y_base (mono_font 7) 0) "loc_next"
                      (demo_line "jne loc_next"))
                   (bricks (_build_bricks demo_env
                              (set_brick_labels demo_widget [demo_line "jne loc_next"])))).
  { right. left. reflexivity. }
  split; [exact Hin|].
  exact (tooltip_only_on_lines_of_several_tokens demo_env _ _ Hin).
Defined.

(** *** The three kinds of tick *)

Lemma tick_waiting (env : Env) (s : Widget) :
  launched s = false -> game_over s = false ->
  _tick env s = Ok (ride_paddle env (move_paddle env s)).
Proof.
  intros Hl Hg.
  destruct (move_paddle_frame env s) as (_ & _ & _ & _ & _ & _ & _ & Hg' & Hl').
  unfold _tick. cbv zeta. rewrite Hg', Hl', Hl, Hg. reflexivity.
Qed.

Lemma tick_over (env : Env) (s : Widget) :
  game_over s = true -> _tick env s = Ok (move_paddle env s).
Proof.
  intros Hg.
  destruct (move_paddle_frame env s) as (_ & _ & _ & _ & _ & _ & _ & Hg' & _).
  unfold _tick. cbv zeta. rewrite Hg', Hg, andb_false_r. reflexivity.
Qed.

(** What a tick returns, by the state it starts in. *)
Lemma tick_cases (env : Env) (s : Widget) :
  exists s',
    _tick env s = Ok s'
    /\ ((launched s = false /\ game_over s = false
         /\ s' = ride_paddle env (move_paddle env s))
        \/ (game_over s = true /\ s' = move_paddle env s)
        \/ (launched s = true /\ game_over s = false
            /\ exists n,
                 clear_level env (hit_bricks (before_bricks env (move_paddle env s)))
                 = Ok n
                 /\ s' = fall_bottom env n)).
Proof.
  destruct (game_over s) eqn:Hg.
  - eexists. split; [apply tick_over; assumption|]. right. left. auto.
  - destruct (launched s) eqn:Hl.
    + destruct (clear_level_total env
                  (hit_bricks (before_bricks env (move_paddle env s)))) as [n Hn].
      exists (fall_bottom env n). split.
      * rewrite (tick_in_play env s Hl Hg), Hn. reflexivity.
      * right. right. split; [reflexivity|]. split; [reflexivity|]. exists n. auto.
    + eexists. split; [apply tick_waiting; assumption|]. left. auto.
Qed.

(** How a property of the widget spreads over every run. *)
Section Invariant.

Variable env : Env.
Variable P : Widget -> Prop.

Hypothesis P_tick : forall s s', P s -> _tick env s = Ok s' -> P s'.
Hypothesis P_loaded : forall s labels,
  (P s \/ (score s = 0 /\ lives s = 3 /\ game_over s = false)) ->
  P (_reset_ball_on_paddle env (_build_bricks env (set_brick_labels s labels))).
Hypothesis P_keys : forall s b,
  P s -> P (set_left_pressed s b) /\ P (set_right_pressed s b).
Hypothesis P_launch : forall s, P s -> game_over s = false -> P (set_launched s true).

Lemma handle_invariant (s : Widget) (e : Event) :
  P s -> exists s', handle env s e = Ok s' /\ P s'.
Proof.
  intros H. destruct e as [|k|k]; simpl.
  - destruct (tick_cases env s) as [s' [Ht _]].
    exists s'. split; [assumption|]. eapply P_tick; eassumption.
  - destruct k; simpl;
      try (eexists; split; [reflexivity|]; solve [apply P_keys; assumption | assumption]).
    + destruct (game_over s) eqn:Hg; simpl; eexists; (split; [reflexivity|]).
      * assumption.
      * apply P_launch; assumption.
    + destruct (reload_bricks_ok env
                  (set_game_over (set_lives (set_score s 0) 3) false))
        as [labels Hr].
      eexists. split; [exact Hr|]. apply P_loaded. right. repeat split.
    + destruct (reload_bricks_ok env s) as [labels Hr].
      eexists. split; [exact Hr|]. apply P_loaded. left. assumption.
  - destruct k; simpl; eexists; (split; [reflexivity|]);
      solve [apply P_keys; assumption | assumption].
Qed.

Lemma run_invariant (es : list Event) :
  exists s0 s', _init_state env = Ok s0 /\ run env s0 es = Ok s' /\ P s'.
Proof.
  unfold _init_state.
  destruct (reload_bricks_ok env
    {| paddle_x := 300; ball_x := 350; ball_y := 350;
       ball_vx := 3.8; ball_vy := -4.6;
       left_pressed := false; right_pressed := false;
       launched := false; game_over := false;
       score := 0; lives := 3;
       render_lines := []; brick_labels := []; bricks := [] |}) as [labels H0].
  rewrite H0.
  match goal with
  | |- exists s0 s', Ok ?t = Ok s0 /\ _ => assert (HP : P t)
  end.
  { apply P_loaded. right. repeat split. }
  match goal with
  | HP : P ?t |- _ => generalize dependent t
  end.
  intros s0 _ HP.
  assert (Hrun : forall s, P s -> exists s', run env s es = Ok s' /\ P s').
  { induction es as [|e es' IH]; intros s Hs; simpl.
    - exists s. auto.
    - destruct (handle_invariant s e Hs) as [s1 [H1 HP1]].
      rewrite H1. simpl. apply IH. assumption. }
  destruct (Hrun s0 HP) as [s' [Hr HP']].
  exists s0, s'. auto.
Qed.

End Invariant.

(** *** Score and lives *)

Lemma tick_result (env : Env) (s s' : Widget) :
  _tick env s = Ok s' ->
  (launched s = false /\ game_over s = false
   /\ s' = ride_paddle env (move_paddle env s))
  \/ (game_over s = true /\ s' = move_paddle env s)
  \/ (launched s = true /\ game_over s = false
      /\ exists n,
           clear_level env (hit_bricks (before_bricks env (move_paddle env s))) = Ok n
           /\ s' = fall_bottom env n).
Proof.
  intros H. destruct (tick_cases env s) as [s'' [Ht Hc]].
  rewrite Ht in H. injection H as <-. exact Hc.
Qed.

(** The three outcomes of the bottom check. *)
Lemma fall_bottom_cases (env : Env) (n : Widget) :
  fall_bottom env n = n
  \/ (lives n <= 1
      /\ fall_bottom env n
         = set_launched (set_game_over (set_lives n (lives n - 1)) true) false)
  \/ (2 <= lives n
      /\ fall_bottom env n = _reset_ball_on_paddle env (set_lives n (lives n - 1))).
Proof.
  unfold fall_bottom. destruct (Qltb _ _); [|left; reflexivity]. cbv zeta.
  change (lives (set_lives n (lives n - 1))) with (lives n - 1).
  destruct (Z.leb_spec (lives n - 1) 0).
  - right. left. split; [lia | reflexivity].
  - right. right. split; [lia | reflexivity].
Qed.

Lemma hit_bricks_score (s : Widget) :
  score (hit_bricks s) = score s \/ score (hit_bricks s) = score s + 10.
Proof.
  unfold hit_bricks. destruct (hit_first _ _); [right | left]; reflexivity.
Qed.

Lemma clear_level_score (env : Env) (s n : Widget) :
  clear_level env s = Ok n -> score n = score s.
Proof.
  intros H. destruct (clear_level_cases env s) as [Hc | [labels Hc]];
    rewrite Hc in H; injection H as <-; reflexivity.
Qed.

Lemma fall_bottom_score (env : Env) (n : Widget) :
  score (fall_bottom env n) = score n.
Proof.
  destruct (fall_bottom_cases env n) as [-> | [[_ ->] | [_ ->]]]; reflexivity.
Qed.

Lemma fall_bottom_lives (env : Env) (n : Widget) :
  lives (fall_bottom env n) = lives n \/ lives (fall_bottom env n) = lives n - 1.
Proof.
  destruct (fall_bottom_cases env n) as [-> | [[_ ->] | [_ ->]]];
    [left | right | right]; reflexivity.
Qed.

Lemma in_play_frame (env : Env) (s n : Widget) :
  clear_level env (hit_bricks (before_bricks env (move_paddle env s))) = Ok n ->
  lives n = lives s /\ game_over n = game_over s
  /\ (score n = score s \/ score n = score s + 10).
Proof.
  intros H. destruct (before_fall_frame env s n H) as [Hl Hg].
  split; [assumption|]. split; [assumption|].
  rewrite (clear_level_score _ _ _ H).
  destruct (before_bricks_frame env s) as [_ Hsc].
  destruct (hit_bricks_score (before_bricks env (move_paddle env s))) as [E|E];
    rewrite E, Hsc; auto.
Qed.

Lemma tick_score_lives (env : Env) (s s' : Widget) :
  _tick env s = Ok s' ->
  (score s' = score s \/ score s' = score s + 10)
  /\ (lives s' = lives s \/ lives s' = lives s - 1)
  /\ (launched s = false \/ game_over s = true ->
      score s' = score s /\ lives s' = lives s).
Proof.
  intros H.
  destruct (move_paddle_frame env s) as (_ & _ & _ & _ & _ & Hsc & Hli & _ & _).
  destruct (tick_result env s s' H)
    as [(Hl & Hg & ->) | [(Hg & ->) | (Hl & Hg & n & Hn & ->)]].
  - change (score (ride_paddle env (move_paddle env s))) with (score (move_paddle env s)).
    change (lives (ride_paddle env (move_paddle env s))) with (lives (move_paddle env s)).
    rewrite Hsc, Hli. auto.
  - rewrite Hsc, Hli. auto.
  - destruct (in_play_frame env s n Hn) as (Hln & _ & Hsn).
    rewrite fall_bottom_score.
    split; [assumption|]. split.
    + destruct (fall_bottom_lives env n) as [E|E]; rewrite E, Hln; auto.
    + intros [E|E]; congruence.
Qed.

(** X19: one tick changes the score by 0 or by 10 and the lives by 0 or
    by -1; outside play (before the launch, after the end) it changes
    neither. *)
Theorem tick_moves_score_and_lives_one_step (env : Env) (s : Widget) :
  exists s',
    _tick env s = Ok s'
    /\ (score s' = score s \/ score s' = score s + 10)
    /\ (lives s' = lives s \/ lives s' = lives s - 1)
    /\ (launched s = false \/ game_over s = true ->
        score s' = score s /\ lives s' = lives s).
Proof.
  destruct (tick_cases env s) as [s' [Ht _]].
  exists s'. split; [assumption|]. apply (tick_score_lives env s s' Ht).
Qed.

Lemma lives_consistent_tick (env : Env) (s s' : Widget) :
  lives_consistent s -> _tick env s = Ok s' -> lives_consistent s'.
Proof.
  intros [Hover Hplay] H.
  destruct (move_paddle_frame env s) as (_ & _ & _ & _ & _ & _ & Hli & Hg' & Hl').
  destruct (tick_result env s s' H)
    as [(Hl & Hg & ->) | [(Hg & ->) | (Hl & Hg & n & Hn & ->)]].
  - unfold lives_consistent.
    change (game_over (ride_paddle env (move_paddle env s)))
      with (game_over (move_paddle env s)).
    change (lives (ride_paddle env (move_paddle env s)))
      with (lives (move_paddle env s)).
    change (launched (ride_paddle env (move_paddle env s)))
      with (launched (move_paddle env s)).
    rewrite Hg', Hli, Hl'. auto.
  - unfold lives_consistent. rewrite Hg', Hli, Hl'. auto.
  - destruct (in_play_frame env s n Hn) as (Hln & Hgn & _).
    specialize (Hplay Hg). rewrite Hg in Hgn.
    unfold lives_consistent.
    destruct (fall_bottom_cases env n) as [-> | [[Hle ->] | [Hge ->]]].
    + split; [congruence | intros _; lia].
    + cbn [game_over lives launched set_launched set_game_over set_lives].
      split; [intros _; split; [lia | reflexivity] | discriminate].
    + destruct (reset_frame env (set_lives n (lives n - 1))) as (E1 & E2 & _).
      rewrite E1, E2. cbn [game_over lives set_lives].
      split; [congruence | intros _; lia].
Qed.

Lemma lives_consistent_loaded (env : Env) (s : Widget) (labels : list LineInfo) :
  lives_consistent s \/ (score s = 0 /\ lives s = 3 /\ game_over s = false) ->
  lives_consistent
    (_reset_ball_on_paddle env (_build_bricks env (set_brick_labels s labels))).
Proof.
  intros H. unfold lives_consistent.
  change (game_over (_reset_ball_on_paddle env
                       (_build_bricks env (set_brick_labels s labels))))
    with (game_over s).
  change (lives (_reset_ball_on_paddle env
                   (_build_bricks env (set_brick_labels s labels))))
    with (lives s).
  change (launched (_reset_ball_on_paddle env
                      (_build_bricks env (set_brick_labels s labels))))
    with false.
  destruct H as [[Hover Hplay] | (_ & Hl & Hg)].
  - split; [intros Hg; split; [apply Hover; assumption | reflexivity] | assumption].
  - split; [congruence | intros _; lia].
Qed.

(** X20: in every run of the widget (ticks, key presses and releases,
    from the initial state) the lives stay between 0 and 3, the game is
    over exactly when no life is left, and a game that is over is not
    launched. *)
Theorem lives_and_game_over_agree (env : Env) (es : list Event) :
  exists s0 s',
    _init_state env = Ok s0 /\ run env s0 es = Ok s'
    /\ 0 <= lives s' <= 3
    /\ (game_over s' = true <-> lives s' = 0)
    /\ (game_over s' = true -> launched s' = false).
Proof.
  destruct (run_invariant env lives_consistent) with (es := es)
    as (s0 & s' & H0 & Hr & [Hover Hplay]).
  - apply lives_consistent_tick.
  - apply lives_consistent_loaded.
  - intros s b H. split; exact H.
  - intros s [Hover Hplay] Hg. split; [simpl; congruence | exact Hplay].
  - exists s0, s'. split; [assumption|]. split; [assumption|].
    destruct (game_over s') eqn:Hg.
    + destruct (Hover eq_refl) as [Hl Hla]. rewrite Hl.
      split; [lia|]. split; [tauto | auto].
    + specialize (Hplay eq_refl).
      split; [lia|]. split; [split; [discriminate | lia] | discriminate].
Qed.

Lemma score_tick (env : Env) (s s' : Widget) :
  0 <= score s /\ (score s mod 10 = 0) -> _tick env s = Ok s' ->
  0 <= score s' /\ (score s' mod 10 = 0).
Proof.
  intros [H0 Hm] H.
  destruct (tick_score_lives env s s' H) as ([E|E] & _); rewrite E.
  - auto.
  - split; [lia|].
    replace (score s + 10) with (score s + 1 * 10) by lia.
    now rewrite Z.mod_add by lia.
Qed.

(** X21: in every run the score is a non-negative multiple of 10. *)
Theorem score_counts_bricks_by_ten (env : Env) (es : list Event) :
  exists s0 s',
    _init_state env = Ok s0 /\ run env s0 es = Ok s'
    /\ 0 <= score s' /\ score s' mod 10 = 0.
Proof.
  destruct (run_invariant env (fun s => 0 <= score s /\ score s mod 10 = 0))
    with (es := es) as (s0 & s' & H0 & Hr & HP).
  - apply score_tick.
  - intros s labels [H | (Hs & _)].
    + exact H.
    + change (score (_reset_ball_on_paddle env
                       (_build_bricks env (set_brick_labels s labels))))
        with (score s).
      rewrite Hs. split; [lia | reflexivity].
  - intros s b H. split; exact H.
  - intros s H _. exact H.
  - exists s0, s'. auto.
Qed.

(** *** The ball stays in the field *)

Lemma Qleb_true (a b : Q) : Qleb a b = true <-> (a <= b)%Q.
Proof. apply Qle_bool_iff. Qed.

Lemma Qleb_false (a b : Q) : Qleb a b = false <-> (b < a)%Q.
Proof.
  unfold Qleb. split.
  - intros H. apply Qnot_le_lt. intros Hle. apply Qle_bool_iff in Hle. congruence.
  - intros H. destruct (Qle_bool a b) eqn:E; [|reflexivity].
    apply Qle_bool_iff in E. apply Qlt_not_le in H. contradiction.
Qed.

Lemma field_is_wide (w : Z) : (640 <= inject_Z (Z.max 640 w))%Q.
Proof. change 640%Q with (inject_Z 640). rewrite <- Zle_Qle. lia. Qed.

Lemma field_is_high (lo h : Z) : (inject_Z lo <= inject_Z (Z.max lo h))%Q.
Proof. rewrite <- Zle_Qle. lia. Qed.

(** Linear arithmetic over the constants of the game: [lra] after the
    divisions by 2 and by 130 are turned into products. *)
Ltac game_lra :=
  unfold paddle_w, paddle_h, paddle_speed, ball_r, Qdiv in *;
  change (/ 2)%Q with (1 # 2)%Q in *;
  change (/ 130)%Q with (1 # 130)%Q in *;
  lra.

Lemma reset_in_field (env : Env) (s : Widget) :
  ball_in_field env (_reset_ball_on_paddle env s).
Proof.
  unfold ball_in_field, _reset_ball_on_paddle.
  cbn [ball_x ball_y paddle_x set_paddle_x set_ball_x set_ball_y set_ball_vx
       set_ball_vy set_launched].
  destruct (field_width_bounds (width env)) as [H1 H2].
  destruct (clamp_bounds (paddle_x s) (inject_Z (width env) - paddle_w - 10)
              (inject_Z (Z.max 640 (width env)) - paddle_w - 10) H1 H2) as [Hlo Hhi].
  pose proof (field_is_high 300 (height env)) as Hh.
  change (inject_Z 300) with 300%Q in Hh.
  set (x := py_max 10 (py_min (paddle_x s) (inject_Z (width env) - paddle_w - 10))) in *.
  clearbody x. repeat split; game_lra.
Qed.

Lemma bounce_walls_in_field (env : Env) (s : Widget) :
  ball_in_field env (bounce_walls env s).
Proof.
  pose proof (field_is_wide (width env)) as Hw.
  unfold bounce_walls, ball_in_field. cbv zeta.
  set (W := inject_Z (Z.max 640 (width env))) in *.
  destruct (Qleb (ball_x s - ball_r) 0) eqn:E1;
    cbn [ball_x ball_y set_ball_x set_ball_vx];
    [apply Qleb_true in E1 | apply Qleb_false in E1];
    (match goal with
     | |- context [Qleb W ?t] => destruct (Qleb W t) eqn:E2
     end;
     cbn [ball_x ball_y set_ball_x set_ball_vx];
     [apply Qleb_true in E2 | apply Qleb_false in E2];
     (destruct (Qleb (ball_y s - ball_r) 0) eqn:E3;
      cbn [ball_x ball_y set_ball_x set_ball_vx set_ball_y set_ball_vy];
      [apply Qleb_true in E3 | apply Qleb_false in E3];
      repeat split; game_lra)).
Qed.

Lemma bounce_paddle_in_field (env : Env) (s : Widget) :
  ball_in_field env s -> ball_in_field env (bounce_paddle env s).
Proof.
  intros (Hx1 & Hx2 & Hy). unfold bounce_paddle. cbv zeta.
  destruct (_ && _); [|repeat split; assumption].
  unfold ball_in_field. cbn [ball_x ball_y set_ball_x set_ball_vx set_ball_y set_ball_vy].
  repeat split; try assumption.
  assert (H : (inject_Z 330 <= inject_Z (Z.max 360 (height env) - 30))%Q)
    by (rewrite <- Zle_Qle; lia).
  change (inject_Z 330) with 330%Q in H.
  game_lra.
Qed.

Lemma in_field_ext (env : Env) (s s' : Widget) :
  ball_x s' = ball_x s -> ball_y s' = ball_y s ->
  ball_in_field env s -> ball_in_field env s'.
Proof. unfold ball_in_field. intros -> ->. auto. Qed.

Lemma in_play_in_field (env : Env) (s n : Widget) :
  clear_level env (hit_bricks (before_bricks env s)) = Ok n ->
  ball_in_field env (fall_bottom env n).
Proof.
  intros Hn.
  assert (Hm : ball_in_field env (hit_bricks (before_bricks env s))).
  { destruct (hit_bricks_frame (before_bricks env s)) as (_ & _ & _ & _ & Hx & Hy).
    apply (in_field_ext env (before_bricks env s)); [assumption | assumption |].
    unfold before_bricks. cbv zeta.
    apply bounce_paddle_in_field, bounce_walls_in_field. }
  assert (Hnf : ball_in_field env n).
  { destruct (clear_level_cases env (hit_bricks (before_bricks env s)))
      as [Hc | [labels Hc]]; rewrite Hc in Hn; injection Hn as <-.
    - exact Hm.
    - apply reset_in_field. }
  destruct (fall_bottom_cases env n) as [-> | [[_ ->] | [_ ->]]].
  - exact Hnf.
  - exact Hnf.
  - apply reset_in_field.
Qed.

Lemma ride_in_field (env : Env) (s : Widget) :
  paddle_clamped env s -> ball_in_field env (ride_paddle env s).
Proof.
  intros [Hlo Hhi]. unfold ball_in_field, ride_paddle.
  cbn [ball_x ball_y set_ball_x set_ball_y paddle_x].
  pose proof (field_is_high 360 (height env)) as Hh.
  change (inject_Z 360) with 360%Q in Hh.
  repeat split; game_lra.
Qed.

Lemma in_field_tick (env : Env) (s s' : Widget) :
  ball_in_field env s -> _tick env s = Ok s' -> ball_in_field env s'.
Proof.
  intros HP H.
  destruct (tick_result env s s' H)
    as [(Hl & Hg & ->) | [(Hg & ->) | (Hl & Hg & n & Hn & ->)]].
  - apply ride_in_field, move_paddle_clamped.
  - destruct (move_paddle_frame env s) as (Hx & Hy & _).
    apply (in_field_ext env s); assumption.
  - apply (in_play_in_field env (move_paddle env s) n Hn).
Qed.

(** X22: the ball never leaves through a wall: in every run its centre
    stays at least a radius away from the left edge, the right edge
    [max(640, width)] and the top edge of the play field (the widget
    keeping its size during the run). *)
Theorem ball_stays_between_the_walls (env : Env) (es : list Event) :
  exists s0 s',
    _init_state env = Ok s0 /\ run env s0 es = Ok s'
    /\ (ball_r <= ball_x s'
        /\ ball_x s' <= inject_Z (Z.max 640 (width env)) - ball_r
        /\ ball_r <= ball_y s')%Q.
Proof.
  destruct (run_invariant env (ball_in_field env)) with (es := es)
    as (s0 & s' & H0 & Hr & HP).
  - apply in_field_tick.
  - intros s labels _. apply reset_in_field.
  - intros s b H. split; exact H.
  - intros s H _. exact H.
  - exists s0, s'. auto.
Qed.

(** *** The speed of the ball *)

(** Where the ball is when its box meets the paddle's. *)
Lemma paddle_hit_bounds (env : Env) (s : Widget) :
  QRectF_intersects (_ball_rect s)
    {| rx := paddle_x s; ry := inject_Z (Z.max 360 (height env) - 30);
       rw := paddle_w; rh := paddle_h |} = true ->
  (paddle_x s - 7 < ball_x s /\ ball_x s < paddle_x s + 137)%Q.
Proof.
  unfold QRectF_intersects, _ball_rect, side. cbn [rx ry rw rh].
  change (Qltb (ball_r * 2) 0) with false.
  change (Qltb paddle_w 0) with false.
  change (Qltb paddle_h 0) with false.
  cbv iota beta. intros H.
  repeat (apply andb_true_iff in H; destruct H as [H ?]).
  match goal with
  | Hx : negb (Qleb (paddle_x s + paddle_w) _ || _) = true |- _ =>
    apply negb_true_iff, orb_false_iff in Hx; destruct Hx as [Hx1 Hx2];
    apply Qleb_false in Hx1, Hx2
  end.
  split; game_lra.
Qed.

Lemma bounce_walls_speed (env : Env) (s : Widget) :
  ball_speed_bounded s -> ball_speed_bounded (bounce_walls env s).
Proof.
  intros (Hvy & Hx1 & Hx2).
  unfold bounce_walls, ball_speed_bounded. cbv zeta.
  destruct (Qleb (ball_x s - ball_r) 0);
    cbn [ball_x ball_y ball_vx ball_vy set_ball_x set_ball_vx];
    (match goal with
     | |- context [Qleb ?a (?b + ball_r)] => destruct (Qleb a (b + ball_r))
     end;
     cbn [ball_x ball_y ball_vx ball_vy set_ball_x set_ball_vx];
     (destruct (Qleb (ball_y s - ball_r) 0);
      cbn [ball_x ball_y ball_vx ball_vy set_ball_x set_ball_vx set_ball_y set_ball_vy];
      (split; [destruct Hvy as [E|E]; rewrite E; [try (left; reflexivity); right
                                                  | try (right; reflexivity); left];
               reflexivity
              | split; lra]))).
Qed.

Lemma py_abs_speed (v : Q) :
  (v == 4.6 \/ v == -4.6)%Q -> (- py_abs v == -4.6)%Q.
Proof.
  intros H. unfold py_abs.
  destruct (Qltb v 0) eqn:E; [apply Qltb_true in E | apply Qltb_false in E];
    destruct H as [H|H]; rewrite H in *; lra.
Qed.

Lemma bounce_paddle_speed (env : Env) (s : Widget) :
  ball_speed_bounded s -> ball_speed_bounded (bounce_paddle env s).
Proof.
  intros (Hvy & Hx1 & Hx2). unfold bounce_paddle. cbv zeta.
  destruct (QRectF_intersects _ _) eqn:Hhit; [|repeat split; assumption].
  destruct (Qltb 0 (ball_vy s)) eqn:Hdown; [|repeat split; assumption].
  cbn [andb]. apply paddle_hit_bounds in Hhit. destruct Hhit as [Hl Hr].
  unfold ball_speed_bounded.
  cbn [ball_x ball_y ball_vx ball_vy paddle_x set_ball_x set_ball_vx set_ball_y
       set_ball_vy].
  split; [right; apply py_abs_speed; assumption|].
  split; game_lra.
Qed.

Lemma hit_bricks_speed (s : Widget) :
  ball_speed_bounded s -> ball_speed_bounded (hit_bricks s).
Proof.
  intros (Hvy & Hx1 & Hx2). unfold hit_bricks.
  destruct (hit_first _ _); [|repeat split; assumption].
  unfold ball_speed_bounded. cbn [ball_vx ball_vy set_ball_vy set_score set_bricks].
  split; [|split; assumption].
  destruct Hvy as [E|E]; rewrite E; [right | left]; reflexivity.
Qed.

Lemma reset_speed (env : Env) (s : Widget) :
  ball_speed_bounded (_reset_ball_on_paddle env s).
Proof.
  unfold ball_speed_bounded, _reset_ball_on_paddle.
  cbn [ball_vx ball_vy set_paddle_x set_ball_x set_ball_y set_ball_vx set_ball_vy
       set_launched].
  split; [right; reflexivity|]. split; lra.
Qed.

Lemma speed_ext (s s' : Widget) :
  ball_vx s' = ball_vx s -> ball_vy s' = ball_vy s ->
  ball_speed_bounded s -> ball_speed_bounded s'.
Proof. unfold ball_speed_bounded. intros -> ->. auto. Qed.

Lemma speed_tick (env : Env) (s s' : Widget) :
  ball_speed_bounded s -> _tick env s = Ok s' -> ball_speed_bounded s'.
Proof.
  intros HP H.
  destruct (move_paddle_frame env s) as (_ & _ & Hvx & Hvy & _).
  assert (Hmp : ball_speed_bounded (move_paddle env s))
    by (apply (speed_ext s); assumption).
  destruct (tick_result env s s' H)
    as [(Hl & Hg & ->) | [(Hg & ->) | (Hl & Hg & n & Hn & ->)]].
  - apply (speed_ext (move_paddle env s)); [reflexivity | reflexivity | assumption].
  - assumption.
  - assert (Hm : ball_speed_bounded (hit_bricks (before_bricks env (move_paddle env s)))).
    { apply hit_bricks_speed. unfold before_bricks. cbv zeta.
      apply bounce_paddle_speed, bounce_walls_speed.
      apply (speed_ext (move_paddle env s)); [reflexivity | reflexivity | assumption]. }
    assert (Hnf : ball_speed_bounded n).
    { destruct (clear_level_cases env
                  (hit_bricks (before_bricks env (move_paddle env s))))
        as [Hc | [labels Hc]]; rewrite Hc in Hn; injection Hn as <-.
      - exact Hm.
      - apply reset_speed. }
    destruct (fall_bottom_cases env n) as [-> | [[_ ->] | [_ ->]]].
    + exact Hnf.
    + exact Hnf.
    + apply reset_speed.
Qed.

(** X23: the speed of the ball is bounded: in every run the vertical
    speed is 4.6 a tick, up or down, and the horizontal speed is at
    most 72/13 (about 5.54) a tick. *)
Theorem ball_speed_is_bounded (env : Env) (es : list Event) :
  exists s0 s',
    _init_state env = Ok s0 /\ run env s0 es = Ok s'
    /\ ((ball_vy s' == 4.6 \/ ball_vy s' == -4.6)
        /\ - (72 # 13) <= ball_vx s' /\ ball_vx s' <= 72 # 13)%Q.
Proof.
  destruct (run_invariant env ball_speed_bounded) with (es := es)
    as (s0 & s' & H0 & Hr & HP).
  - apply speed_tick.
  - intros s labels _. apply reset_speed.
  - intros s b H. split; exact H.
  - intros s H _. exact H.
  - exists s0, s'. auto.
Qed.

(** X24: the paddle sends a falling ball up.  When the ball's box
    meets the paddle's and the ball moves down, the ball is put on top
    of the paddle, its vertical speed changes sign, and its horizontal
    speed becomes 10/130 of its offset from the middle of the paddle
    (0 in the middle, at most 72/13 either way); a ball that moves up
    or level is left alone. *)
Theorem paddle_sends_the_ball_up (env : Env) (s : Widget) :
  (QRectF_intersects (_ball_rect s)
     {| rx := paddle_x s; ry := inject_Z (Z.max 360 (height env) - 30);
        rw := paddle_w; rh := paddle_h |} = true ->
   (0 < ball_vy s)%Q ->
   (ball_vy (bounce_paddle env s) == - ball_vy s
    /\ ball_y (bounce_paddle env s) + ball_r == inject_Z (Z.max 360 (height env) - 30)
    /\ ball_vx (bounce_paddle env s)
       == (ball_x s - (paddle_x s + paddle_w / 2)) * (10 / paddle_w)
    /\ - (72 # 13) < ball_vx (bounce_paddle env s)
    /\ ball_vx (bounce_paddle env s) < 72 # 13)%Q
   /\ ball_x (bounce_paddle env s) = ball_x s)
  /\ ((ball_vy s <= 0)%Q -> bounce_paddle env s = s).
Proof.
  split.
  - intros Hhit Hdown.
    pose proof (paddle_hit_bounds env s Hhit) as [Hl Hr].
    unfold bounce_paddle. cbv zeta. rewrite Hhit.
    apply Qltb_true in Hdown. rewrite Hdown. cbn [andb].
    cbn [ball_x ball_y ball_vx ball_vy paddle_x set_ball_x set_ball_vx set_ball_y
         set_ball_vy].
    apply Qltb_true in Hdown.
    assert (Habs : (py_abs (ball_vy s) == ball_vy s)%Q).
    { unfold py_abs. destruct (Qltb (ball_vy s) 0) eqn:E; [|reflexivity].
      apply Qltb_true in E. lra. }
    split; [|reflexivity].
    split; [rewrite Habs; reflexivity|].
    split; [game_lra|].
    split; [|split; game_lra].
    unfold paddle_w, Qdiv. change (/ 130)%Q with (1 # 130)%Q.
    change (/ 2)%Q with (1 # 2)%Q. ring.
  - intros Hup. unfold bounce_paddle. cbv zeta.
    assert (E : Qltb 0 (ball_vy s) = false) by now apply Qltb_false.
    rewrite E, andb_false_r. reflexivity.
Qed.

Lemma paddle_sends_the_ball_up_witness :
  let s := set_ball_vy (set_ball_y (set_ball_x demo_widget 400) 485) 4.6 in
  QRectF_intersects (_ball_rect s)
    {| rx := paddle_x s; ry := inject_Z (Z.max 360 (height demo_env) - 30);
       rw := paddle_w; rh := paddle_h |} = true
  /\ (0 < ball_vy s)%Q
  /\ (ball_vy (bounce_paddle demo_env s) == -4.6)%Q
  /\ (ball_vx (bounce_paddle demo_env s) == 35 # 13)%Q.
Proof.
  intros s.
  assert (Hhit : QRectF_intersects (_ball_rect s)
            {| rx := paddle_x s; ry := inject_Z (Z.max 360 (height demo_env) - 30);
               rw := paddle_w; rh := paddle_h |} = true) by (vm_compute; reflexivity).
  assert (Hdown : (0 < ball_vy s)%Q) by (vm_compute; reflexivity).
  split; [exact Hhit|]. split; [exact Hdown|].
  destruct (paddle_sends_the_ball_up demo_env s) as [H _].
  destruct (H Hhit Hdown) as [(Hvy & _ & Hvx & _) _].
  split.
  - rewrite Hvy. vm_compute. reflexivity.
  - rewrite Hvx. vm_compute. reflexivity.
Defined.

(** *** Bricks to play with *)

Lemma all_alive_playable (bs : list Brick) :
  Forall (fun b => alive b = true) bs -> playable bs.
Proof.
  intros H. destruct H as [|b bs Hb _]; [left; reflexivity|].
  right. simpl. now rewrite Hb.
Qed.

Lemma clear_level_playable (env : Env) (s n : Widget) :
  clear_level env s = Ok n -> playable (bricks n).
Proof.
  unfold clear_level.
  destruct (negb (is_empty (bricks s)) && negb (existsb alive (bricks s))) eqn:E.
  - intros H. destruct (reload_bricks_ok env s) as [labels Hr].
    rewrite Hr in H. injection H as <-.
    destruct (reset_frame env (_build_bricks env (set_brick_labels s labels)))
      as (_ & _ & _ & Hb).
    rewrite Hb. apply all_alive_playable, built_bricks_alive.
  - intros H. injection H as <-.
    apply andb_false_iff in E. destruct E as [E|E]; apply negb_false_iff in E.
    + left. now apply is_empty_true.
    + right. exact E.
Qed.

Lemma playable_tick (env : Env) (s s' : Widget) :
  playable (bricks s) -> _tick env s = Ok s' -> playable (bricks s').
Proof.
  intros HP H.
  destruct (move_paddle_frame env s) as (_ & _ & _ & _ & Hb & _).
  destruct (tick_result env s s' H)
    as [(Hl & Hg & ->) | [(Hg & ->) | (Hl & Hg & n & Hn & ->)]].
  - change (bricks (ride_paddle env (move_paddle env s)))
      with (bricks (move_paddle env s)).
    now rewrite Hb.
  - now rewrite Hb.
  - rewrite fall_bottom_bricks. eapply clear_level_playable. eassumption.
Qed.

(** X25: the field is never left without a brick to hit: in every run
    the brick list is empty (the layout found no token that fits) or
    holds an alive brick; the tick that kills the last brick lays the
    bricks out anew at once. *)
Theorem some_brick_is_always_alive (env : Env) (es : list Event) :
  exists s0 s',
    _init_state env = Ok s0 /\ run env s0 es = Ok s'
    /\ (bricks s' = [] \/ exists b, In b (bricks s') /\ alive b = true).
Proof.
  destruct (run_invariant env (fun s => playable (bricks s))) with (es := es)
    as (s0 & s' & H0 & Hr & HP).
  - apply playable_tick.
  - intros s labels _.
    destruct (reset_frame env (_build_bricks env (set_brick_labels s labels)))
      as (_ & _ & _ & Hb).
    rewrite Hb. apply all_alive_playable, built_bricks_alive.
  - intros s b H. split; exact H.
  - intros s H _. exact H.
  - exists s0, s'. split; [assumption|]. split; [assumption|].
    destruct HP as [E|E]; [left; assumption | right].
    apply existsb_exists in E. exact E.
Qed.

(** *** A game that is over *)

Lemma frozen_handle (env : Env) (s : Widget) (e : Event) :
  game_over s = true -> e <> KeyPress Key_R -> e <> KeyPress Key_N ->
  exists s',
    handle env s e = Ok s'
    /\ game_over s' = true /\ score s' = score s /\ lives s' = lives s
    /\ bricks s' = bricks s /\ launched s' = launched s
    /\ ball_x s' = ball_x s /\ ball_y s' = ball_y s
    /\ ball_vx s' = ball_vx s /\ ball_vy s' = ball_vy s.
Proof.
  intros Hg HR HN. destruct e as [|k|k]; simpl.
  - exists (move_paddle env s). split; [apply tick_over; assumption|].
    destruct (move_paddle_frame env s)
      as (Hbx & Hby & Hvx & Hvy & Hb & Hsc & Hli & Hg' & Hl).
    rewrite Hg in Hg'. repeat split; assumption.
  - destruct k; simpl; try congruence;
      try (eexists; split; [reflexivity|]; repeat split; assumption).
    rewrite Hg. simpl. eexists. split; [reflexivity|]. repeat split; assumption.
  - destruct k; simpl; eexists; (split; [reflexivity|]); repeat split; assumption.
Qed.

(** X26: a game that is over stays as it is until it is restarted or
    reloaded: whatever ticks, key presses (but R and N) and key
    releases follow, the game is still over, with the same score,
    lives and bricks and the ball where it was; Space does not launch
    it. *)
Theorem game_over_lasts_until_restart (env : Env) (s : Widget) (es : list Event) :
  game_over s = true ->
  Forall (fun e => e <> KeyPress Key_R /\ e <> KeyPress Key_N) es ->
  exists s',
    run env s es = Ok s'
    /\ game_over s' = true /\ score s' = score s /\ lives s' = lives s
    /\ bricks s' = bricks s /\ launched s' = launched s
    /\ ball_x s' = ball_x s /\ ball_y s' = ball_y s
    /\ ball_vx s' = ball_vx s /\ ball_vy s' = ball_vy s.
Proof.
  intros Hg Hes. revert s Hg.
  induction Hes as [|e es [HR HN] _ IH]; intros s Hg; simpl.
  - exists s. repeat split; assumption.
  - destruct (frozen_handle env s e Hg HR HN)
      as (s1 & H1 & Hg1 & E1 & E2 & E3 & E4 & E5 & E6 & E7 & E8).
    rewrite H1. simpl.
    destruct (IH s1 Hg1) as (s' & Hr & Hg' & F1 & F2 & F3 & F4 & F5 & F6 & F7 & F8).
    exists s'. split; [assumption|]. repeat split; congruence.
Qed.

Lemma game_over_lasts_until_restart_witness :
  let s := set_launched (set_game_over (set_lives demo_widget 0) true) false in
  game_over s = true
  /\ Forall (fun e => e <> KeyPress Key_R /\ e <> KeyPress Key_N)
            [KeyPress Key_Space; Tick; KeyPress Key_Left; Tick]
  /\ exists s',
       run demo_env s [KeyPress Key_Space; Tick; KeyPress Key_Left; Tick] = Ok s'
       /\ game_over s' = true /\ launched s' = false /\ lives s' = 0.
Proof.
  intros s.
  assert (Hes : Forall (fun e => e <> KeyPress Key_R /\ e <> KeyPress Key_N)
                       [KeyPress Key_Space; Tick; KeyPress Key_Left; Tick]).
  { repeat constructor; discriminate. }
  split; [reflexivity|]. split; [exact Hes|].
  destruct (game_over_lasts_until_restart demo_env s _ eq_refl Hes)
    as (s' & Hr & Hg & _ & Hl & _ & Hla & _).
  exists s'. repeat split; assumption.
Defined.

(** *** Clearing the level, restarting, waiting *)

Lemma reload_bricks_labels (env : Env) (s : Widget) :
  exists labels,
    reload_bricks env s
    = Ok (_reset_ball_on_paddle env (_build_bricks env (set_brick_labels s labels)))
    /\ 1 <= len labels <= 56.
Proof.
  unfold reload_bricks.
  destruct (extract_labels env MAX_BRICK_LINES ltac:(unfold MAX_BRICK_LINES; lia))
    as (labels & Hex & Hlen & _).
  rewrite Hex. simpl. exists labels. split; [reflexivity | exact Hlen].
Qed.

(** After a reset the ball is above the bottom edge. *)
Lemma reset_does_not_fall (env : Env) (s : Widget) :
  fall_bottom env (_reset_ball_on_paddle env s) = _reset_ball_on_paddle env s.
Proof.
  unfold fall_bottom.
  assert (E : Qltb (inject_Z (Z.max 360 (height env)))
                (ball_y (_reset_ball_on_paddle env s) - ball_r) = false).
  { apply Qltb_false. unfold _reset_ball_on_paddle.
    cbn [ball_y set_paddle_x set_ball_x set_ball_y set_ball_vx set_ball_vy set_launched].
    assert (H : (inject_Z (Z.max 300 (height env))
                 <= inject_Z (Z.max 360 (height env)))%Q)
      by (rewrite <- Zle_Qle; lia).
    game_lra. }
  rewrite E. reflexivity.
Qed.

(** What a reset makes of the ball. *)
Lemma reset_ball (env : Env) (s : Widget) :
  launched (_reset_ball_on_paddle env s) = false
  /\ ball_x (_reset_ball_on_paddle env s)
     = (paddle_x (_reset_ball_on_paddle env s) + paddle_w / 2)%Q
  /\ ball_y (_reset_ball_on_paddle env s) = (inject_Z (Z.max 300 (height env)) - 42)%Q
  /\ ball_vx (_reset_ball_on_paddle env s) = 3.8%Q
  /\ ball_vy (_reset_ball_on_paddle env s) = (-4.6)%Q
  /\ brick_labels (_reset_ball_on_paddle env s) = brick_labels s
  /\ left_pressed (_reset_ball_on_paddle env s) = left_pressed s
  /\ right_pressed (_reset_ball_on_paddle env s) = right_pressed s.
Proof. repeat split. Qed.

Lemma build_frame (env : Env) (s : Widget) :
  brick_labels (_build_bricks env s) = brick_labels s
  /\ score (_build_bricks env s) = score s /\ lives (_build_bricks env s) = lives s
  /\ game_over (_build_bricks env s) = game_over s
  /\ left_pressed (_build_bricks env s) = left_pressed s
  /\ right_pressed (_build_bricks env s) = right_pressed s.
Proof. repeat split. Qed.

(** X27: the tick that kills the last alive brick starts the next
    level at once: the bricks are laid out anew from freshly extracted
    lines, all alive; the ball waits on the paddle with the velocity
    (3.8, -4.6); the 10 points of the last brick are kept and no life
    is lost. *)
Theorem last_brick_starts_the_next_level (env : Env) (s : Widget) :
  launched s = true -> game_over s = false ->
  bricks (hit_bricks (before_bricks env (move_paddle env s))) <> [] ->
  existsb alive (bricks (hit_bricks (before_bricks env (move_paddle env s)))) = false ->
  exists s',
    _tick env s = Ok s'
    /\ Forall (fun b => alive b = true) (bricks s')
    /\ 1 <= len (brick_labels s') <= 56
    /\ launched s' = false /\ game_over s' = false /\ lives s' = lives s
    /\ score s' = score (hit_bricks (before_bricks env (move_paddle env s)))
    /\ ball_x s' = (paddle_x s' + paddle_w / 2)%Q
    /\ ball_y s' = (inject_Z (Z.max 300 (height env)) - 42)%Q
    /\ ball_vx s' = 3.8%Q /\ ball_vy s' = (-4.6)%Q.
Proof.
  intros Hl Hg Hne Hdead.
  destruct (reload_bricks_labels env
              (hit_bricks (before_bricks env (move_paddle env s))))
    as (labels & Hr & Hlen).
  assert (Hc : clear_level env (hit_bricks (before_bricks env (move_paddle env s)))
               = Ok (_reset_ball_on_paddle env
                       (_build_bricks env
                          (set_brick_labels
                             (hit_bricks (before_bricks env (move_paddle env s)))
                             labels)))).
  { unfold clear_level. apply is_empty_false in Hne. rewrite Hne, Hdead. exact Hr. }
  destruct (before_fall_frame env s _ Hc) as [Hli Hgo].
  destruct (rebuilt_frame env (hit_bricks (before_bricks env (move_paddle env s)))
              labels) as (_ & _ & Hsc).
  pose proof (tick_in_play env s Hl Hg) as Ht.
  rewrite Hc in Ht. cbn [bind] in Ht. rewrite reset_does_not_fall in Ht.
  clear Hne Hdead Hr Hc.
  generalize dependent (hit_bricks (before_bricks env (move_paddle env s))).
  intros m Hli Hgo Hsc Ht.
  destruct (reset_ball env (_build_bricks env (set_brick_labels m labels)))
    as (Hla & Hbx & Hby & Hvx & Hvy & Hlab & _).
  destruct (reset_frame env (_build_bricks env (set_brick_labels m labels)))
    as (_ & _ & _ & Hb).
  destruct (build_frame env (set_brick_labels m labels)) as (Hlab2 & _).
  exists (_reset_ball_on_paddle env (_build_bricks env (set_brick_labels m labels))).
  split; [exact Ht|].
  split; [rewrite Hb; apply built_bricks_alive|].
  split; [rewrite Hlab, Hlab2; exact Hlen|].
  split; [exact Hla|]. split; [rewrite Hgo; exact Hg|]. split; [exact Hli|].
  split; [exact Hsc|].
  repeat split; assumption.
Qed.

Lemma last_brick_starts_the_next_level_witness :
  let s := set_bricks demo_widget
             [demo_brick 70 64 40 16 false; demo_brick 340 330 40 16 true] in
  launched s = true /\ game_over s = false
  /\ bricks (hit_bricks (before_bricks demo_env (move_paddle demo_env s))) <> []
  /\ existsb alive (bricks (hit_bricks (before_bricks demo_env (move_paddle demo_env s))))
     = false
  /\ exists s',
       _tick demo_env s = Ok s'
       /\ Forall (fun b => alive b = true) (bricks s')
       /\ launched s' = false /\ score s' = 10 /\ lives s' = 3.
Proof.
  intros s.
  assert (Hne : bricks (hit_bricks (before_bricks demo_env (move_paddle demo_env s)))
                <> []) by (vm_compute; discriminate).
  assert (Hdead : existsb alive
                    (bricks (hit_bricks (before_bricks demo_env (move_paddle demo_env s))))
                  = false) by (vm_compute; reflexivity).
  assert (Hsc : score (hit_bricks (before_bricks demo_env (move_paddle demo_env s))) = 10)
    by (vm_compute; reflexivity).
  split; [reflexivity|]. split; [reflexivity|]. split; [exact Hne|].
  split; [exact Hdead|].
  destruct (last_brick_starts_the_next_level demo_env s eq_refl eq_refl Hne Hdead)
    as (s' & Ht & Ha & _ & Hla & _ & Hli & Hs & _).
  exists s'. split; [exact Ht|]. split; [exact Ha|]. split; [exact Hla|].
  split; [rewrite Hs; exact Hsc | exact Hli].
Defined.

(** X28: R restarts the game from any state: score 0, three lives, not
    over, not launched, freshly laid out bricks, all alive, the ball on
    the clamped paddle with the velocity (3.8, -4.6); the held arrow
    keys stay held, and Space then launches the ball. *)
Theorem restart_resets_the_game (env : Env) (s : Widget) :
  exists s',
    keyPressEvent env s Key_R = Ok s'
    /\ score s' = 0 /\ lives s' = 3 /\ game_over s' = false /\ launched s' = false
    /\ Forall (fun b => alive b = true) (bricks s')
    /\ 1 <= len (brick_labels s') <= 56
    /\ paddle_clamped env s'
    /\ ball_x s' = (paddle_x s' + paddle_w / 2)%Q
    /\ ball_y s' = (inject_Z (Z.max 300 (height env)) - 42)%Q
    /\ ball_vx s' = 3.8%Q /\ ball_vy s' = (-4.6)%Q
    /\ left_pressed s' = left_pressed s /\ right_pressed s' = right_pressed s
    /\ keyPressEvent env s' Key_Space = Ok (set_launched s' true).
Proof.
  unfold keyPressEvent at 1. cbv zeta.
  destruct (reload_bricks_labels env
              (set_game_over (set_lives (set_score s 0) 3) false))
    as (labels & Hr & Hlen).
  assert (Hfr : score (set_game_over (set_lives (set_score s 0) 3) false) = 0
                /\ lives (set_game_over (set_lives (set_score s 0) 3) false) = 3
                /\ game_over (set_game_over (set_lives (set_score s 0) 3) false) = false
                /\ left_pressed (set_game_over (set_lives (set_score s 0) 3) false)
                   = left_pressed s
                /\ right_pressed (set_game_over (set_lives (set_score s 0) 3) false)
                   = right_pressed s) by (repeat split).
  generalize dependent (set_game_over (set_lives (set_score s 0) 3) false).
  intros r Hr (Hsc & Hli & Hg & Hlp & Hrp).
  destruct (reset_ball env (_build_bricks env (set_brick_labels r labels)))
    as (Hla & Hbx & Hby & Hvx & Hvy & Hlab & Hlp1 & Hrp1).
  destruct (reset_frame env (_build_bricks env (set_brick_labels r labels)))
    as (Hli1 & Hg1 & Hsc1 & Hb).
  destruct (build_frame env (set_brick_labels r labels))
    as (Hlab2 & Hsc2 & Hli2 & Hg2 & Hlp2 & Hrp2).
  exists (_reset_ball_on_paddle env (_build_bricks env (set_brick_labels r labels))).
  split; [exact Hr|].
  split; [rewrite Hsc1, Hsc2; exact Hsc|].
  split; [rewrite Hli1, Hli2; exact Hli|].
  split; [rewrite Hg1, Hg2; exact Hg|].
  split; [exact Hla|].
  split; [rewrite Hb; apply built_bricks_alive|].
  split; [rewrite Hlab, Hlab2; exact Hlen|].
  split; [apply reset_clamped|].
  split; [exact Hbx|]. split; [exact Hby|]. split; [exact Hvx|]. split; [exact Hvy|].
  split; [rewrite Hlp1, Hlp2; exact Hlp|].
  split; [rewrite Hrp1, Hrp2; exact Hrp|].
  unfold keyPressEvent. rewrite Hg1, Hg2. cbn [set_brick_labels game_over] in *.
  rewrite Hg. reflexivity.
Qed.

(** X29: before the launch a tick only moves the paddle and carries
    the ball on it: the ball is centred on the clamped paddle at
    [max(360, height) - 42], and its velocity, the bricks, the score,
    the lives and the flags are as before. *)
Theorem ball_rides_the_paddle_before_launch (env : Env) (s : Widget) :
  launched s = false -> game_over s = false ->
  exists s',
    _tick env s = Ok s'
    /\ paddle_clamped env s'
    /\ ball_x s' = (paddle_x s' + paddle_w / 2)%Q
    /\ ball_y s' = (inject_Z (Z.max 360 (height env)) - 42)%Q
    /\ ball_vx s' = ball_vx s /\ ball_vy s' = ball_vy s
    /\ bricks s' = bricks s /\ score s' = score s /\ lives s' = lives s
    /\ launched s' = false /\ game_over s' = false.
Proof.
  intros Hl Hg. eexists. split; [apply tick_waiting; assumption|].
  destruct (move_paddle_frame env s)
    as (_ & _ & Hvx & Hvy & Hb & Hsc & Hli & Hg' & Hl').
  split.
  { apply (paddle_clamped_ext env (move_paddle env s));
      [reflexivity | apply move_paddle_clamped]. }
  split; [reflexivity|]. split; [reflexivity|].
  unfold ride_paddle.
  cbn [ball_vx ball_vy bricks score lives launched game_over set_ball_x set_ball_y].
  rewrite Hg', Hl'. repeat split; assumption.
Qed.

Lemma ball_rides_the_paddle_before_launch_witness :
  let s := set_right_pressed (set_launched demo_widget false) true in
  launched s = false /\ game_over s = false
  /\ exists s',
       _tick demo_env s = Ok s'
       /\ (paddle_x s' == 309)%Q /\ (ball_x s' == 374)%Q /\ (ball_y s' == 478)%Q.
Proof.
  intros s. split; [reflexivity|]. split; [reflexivity|].
  destruct (ball_rides_the_paddle_before_launch demo_env s eq_refl eq_refl)
    as (s' & Ht & _ & Hx & Hy & _).
  exists s'. split; [exact Ht|].
  assert (Hp : exists t, _tick demo_env s = Ok t /\ (paddle_x t == 309)%Q).
  { eexists. split; [vm_compute; reflexivity | vm_compute; reflexivity]. }
  destruct Hp as (t & Ht' & Hp). assert (E : s' = t) by congruence. subst t.
  split; [exact Hp|]. rewrite Hx, Hy, Hp. split; vm_compute; reflexivity.
Defined.
